(** * Verification of the branch revenue seeder ([seed_revenue.py])

    The development embeds the seeder's functions shallowly:

    - Python [int] is [Z]; Python [float] is IEEE 754 binary64, which is
      exactly Rocq's primitive [float] (round to nearest, ties to even);
    - a raised exception is the [Raise] branch of [result];
    - the module-level random generator is a piece of state that is
      threaded through every call that draws from it;
    - the database connection is a script of outcomes, one per call the
      seeder makes on it.

    Definitions come first, theorems after them. *)

From Stdlib Require Import ZArith List Bool String Lia Lqa QArith Qpower Qround.
From Stdlib Require Import Floats.
Import ListNotations.

#[local] Set Warnings "-inexact-float".
#[local] Open Scope Z_scope.

(** ** Exceptions and results

    The exceptions the seeder's own calls can raise.  All of them derive
    from [Exception]; the database client's derive from [psycopg2.Error]. *)

Inductive exn : Type :=
| KeyError (key : Z)
| ValueError
| OverflowError
| ZeroDivisionError
| IllegalMonthError (month : Z)
| Psycopg2Error (msg : string)
| RuntimeError (msg : string).

(** [except psycopg2.Error] matches the database exceptions only. *)
Definition is_psycopg2_error (e : exn) : bool :=
  match e with
  | Psycopg2Error _ => true
  | _ => false
  end.

Inductive result (A : Type) : Type :=
| Ok (a : A)
| Raise (e : exn).

Arguments Ok {A} a.
Arguments Raise {A} e.

Definition bind_result {A B : Type} (r : result A) (k : A -> result B) : result B :=
  match r with
  | Ok a => k a
  | Raise e => Raise e
  end.

(** ** Python numerics on binary64 *)

Module PyFloat.

(** [float(n)], the conversion Python applies to an [int] operand of a
    float operation; exact for every integer below 2^53 in magnitude. *)
Definition of_int (n : Z) : float :=
  SF2Prim (binary_normalize prec emax n 0 false).

(** Round half to even of [m * 2^e] for a mantissa [m >= 0]. *)
Definition round_half_even (m e : Z) : Z :=
  if 0 <=? e then m * 2 ^ e
  else
    let d := 2 ^ (- e) in
    let q := m / d in
    let r := m mod d in
    match 2 * r ?= d with
    | Lt => q
    | Gt => q + 1
    | Eq => if Z.even q then q else q + 1
    end.

(** [round(x)] with one argument: the nearest integer, ties to even;
    [ValueError] on NaN and [OverflowError] on an infinity. *)
Definition round (x : float) : result Z :=
  match Prim2SF x with
  | S754_nan => Raise ValueError
  | S754_infinity _ => Raise OverflowError
  | S754_zero _ => Ok 0
  | S754_finite s m e => Ok (cond_Zopp s (round_half_even (Zpos m) e))
  end.

End PyFloat.

(** ** Module constants *)

Record branch_info : Type := {
  name : string;
  multiplier : float
}.

(** A [dict] literal keeps insertion order; [items()] walks it in that order. *)
Definition BRANCHES : list (string * branch_info) :=
  [ ("HCM"%string, {| name := "Ho Chi Minh"; multiplier := 1.0 |});
    ("HN"%string,  {| name := "Ha Noi";      multiplier := 0.85 |});
    ("DN"%string,  {| name := "Da Nang";     multiplier := 0.6 |}) ].

Definition QUARTERLY_MULTIPLIERS : list (Z * float) :=
  [ (1, 0.90%float); (2, 1.00%float); (3, 1.05%float); (4, 1.15%float) ].

Definition YEAR_MULTIPLIERS : list (Z * float) :=
  [ (2024, 1.0%float); (2025, 1.08%float) ].

Definition BASE_REVENUE_MIN : Z := 12000000000.
Definition BASE_REVENUE_MAX : Z := 20000000000.

Definition NOISE_RANGE : float := 0.10.

(** [d[k]]: the value of the first binding of [k], [KeyError] otherwise. *)
Fixpoint dict_get (d : list (Z * float)) (k : Z) : result float :=
  match d with
  | [] => Raise (KeyError k)
  | (k', v) :: d' => if k =? k' then Ok v else dict_get d' k
  end.

(** ** Calendar helpers *)

Definition get_quarter (month : Z) : Z := (month - 1) / 3 + 1.

Record date : Type := {
  year : Z;
  month : Z;
  day : Z
}.

Definition date_eqb (a b : date) : bool :=
  (year a =? year b) && (month a =? month b) && (day a =? day b).

Module Calendar.

(** [calendar.isleap] *)
Definition isleap (y : Z) : bool :=
  (y mod 4 =? 0) && (negb (y mod 100 =? 0) || (y mod 400 =? 0)).

(** [calendar.mdays], indexed by month with a dummy entry at 0. *)
Definition mdays : list Z := [0; 31; 28; 31; 30; 31; 30; 31; 31; 30; 31; 30; 31].

(** [calendar.weekday], Monday = 0, by way of the day's ordinal. *)
Definition days_before_year (y : Z) : Z :=
  let p := y - 1 in p * 365 + p / 4 - p / 100 + p / 400.

Definition weekday_of_first (y0 m : Z) : Z :=
  let y := if (1 <=? y0) && (y0 <=? 9999) then y0 else 2000 + y0 mod 400 in
  let before_month :=
    fold_left Z.add (firstn (Z.to_nat m) mdays) 0
    + (if (2 <? m) && isleap y then 1 else 0) in
  (days_before_year y + before_month + 1 + 6) mod 7.

(** [calendar.monthrange]: weekday of the first day and number of days. *)
Definition monthrange (y m : Z) : result (Z * Z) :=
  if (1 <=? m) && (m <=? 12) then
    Ok (weekday_of_first y m,
        nth (Z.to_nat m) mdays 0 + (if (m =? 2) && isleap y then 1 else 0))
  else Raise (IllegalMonthError m).

End Calendar.

Module Datetime.

(** [datetime._days_in_month] *)
Definition is_leap (y : Z) : bool :=
  (y mod 4 =? 0) && (negb (y mod 100 =? 0) || (y mod 400 =? 0)).

Definition days_in_month (y m : Z) : Z :=
  if (m =? 2) && is_leap y then 29
  else nth (Z.to_nat m) [-1; 31; 28; 31; 30; 31; 30; 31; 31; 30; 31; 30; 31] (-1).

(** The checks of the [date(year, month, day)] constructor. *)
Definition valid_date (y m d : Z) : bool :=
  (1 <=? y) && (y <=? 9999) && (1 <=? m) && (m <=? 12)
  && (1 <=? d) && (d <=? days_in_month y m).

Definition make_date (y m d : Z) : result date :=
  if valid_date y m d then Ok {| year := y; month := m; day := d |}
  else Raise ValueError.

End Datetime.

Definition get_last_day_of_month (y m : Z) : result date :=
  bind_result (Calendar.monthrange y m) (fun '(_, last_day) =>
  Datetime.make_date y m last_day).

(** ** The random source

    [random.seed] and [random.uniform] belong to Python's library.  The
    seeder relies on two facts only: seeding replaces the generator's state
    by one that depends on the seed alone, and a draw reads the state and
    advances it. *)

Class RandomSource : Type := {
  rng : Type;
  rng_seed : Z -> rng;
  rng_uniform : float -> float -> rng -> float * rng
}.

(** The documented contract of [random.uniform(a, b)] for [a <= b]. *)
Definition uniform_in_range (a b x : float) : bool :=
  ((a <=? x) && (x <=? b))%float.

Definition uniform_contract `{RandomSource} : Prop :=
  forall (a b : float) (g : rng),
    (a <=? b)%float = true ->
    uniform_in_range a b (fst (rng_uniform a b g)) = true.

(** Computations that read and update the global generator and may raise. *)
Definition Gen `{RandomSource} (A : Type) : Type := rng -> result A * rng.

Section GenMonad.
Context `{RandomSource}.

Definition gen_ret {A : Type} (a : A) : Gen A := fun g => (Ok a, g).

Definition gen_bind {A B : Type} (c : Gen A) (k : A -> Gen B) : Gen B :=
  fun g =>
    match c g with
    | (Ok a, g') => k a g'
    | (Raise e, g') => (Raise e, g')
    end.

Definition gen_lift {A : Type} (r : result A) : Gen A := fun g => (r, g).

Definition seed (s : Z) : Gen unit := fun _ => (Ok tt, rng_seed s).

Definition uniform (a b : float) : Gen float :=
  fun g => let (x, g') := rng_uniform a b g in (Ok x, g').
End GenMonad.

Declare Scope gen_scope.
Delimit Scope gen_scope with gen.
Notation "x <- c ;; k" := (gen_bind c (fun x => k))
  (at level 61, c at next level, right associativity) : gen_scope.
Notation "c ;;; k" := (gen_bind c (fun _ => k))
  (at level 61, right associativity) : gen_scope.

(** ** Revenue generation *)

Section Generator.
Context `{RandomSource}.
#[local] Open Scope gen_scope.

Definition generate_revenue (branch_multiplier : float) (quarter year : Z)
    (seed_arg : option Z) : Gen Z :=
  match seed_arg with
  | Some s => seed s
  | None => gen_ret tt
  end ;;;
  base <- uniform (PyFloat.of_int BASE_REVENUE_MIN) (PyFloat.of_int BASE_REVENUE_MAX) ;;
  let revenue := (base * branch_multiplier)%float in
  qm <- gen_lift (dict_get QUARTERLY_MULTIPLIERS quarter) ;;
  let revenue := (revenue * qm)%float in
  ym <- gen_lift (dict_get YEAR_MULTIPLIERS year) ;;
  let revenue := (revenue * ym)%float in
  noise <- uniform (PyFloat.of_int 1 - NOISE_RANGE) (PyFloat.of_int 1 + NOISE_RANGE) ;;
  let revenue := (revenue * noise)%float in
  n <- gen_lift (PyFloat.round (revenue / PyFloat.of_int 1000000)) ;;
  let revenue := n * 1000000 in
  gen_ret revenue.

(** ** Dataset assembly *)

Record revenue_record : Type := {
  branch_code : string;
  branch_name : string;
  report_date : date;
  revenue_vnd : Z
}.

(** A [for] loop whose body updates the accumulated list and may raise. *)
Fixpoint for_each {X S : Type} (xs : list X) (body : X -> S -> Gen S) (acc : S) : Gen S :=
  match xs with
  | [] => gen_ret acc
  | x :: xs' => acc' <- body x acc ;; for_each xs' body acc'
  end.

(** [range(lo, hi)] *)
Definition range (lo hi : Z) : list Z :=
  map (fun i => lo + Z.of_nat i) (seq 0 (Z.to_nat (hi - lo))).

(** The three nested loops of [seed_data], up to the bulk insert. *)
Definition build_records : Gen (list revenue_record) :=
  for_each [2024; 2025] (fun y records =>
    for_each (range 1 13) (fun m records =>
      let quarter := get_quarter m in
      rd <- gen_lift (get_last_day_of_month y m) ;;
      for_each BRANCHES (fun '(code, info) records =>
        revenue <- generate_revenue (multiplier info) quarter y None ;;
        gen_ret (records ++ [ {| branch_code := code;
                                 branch_name := name info;
                                 report_date := rd;
                                 revenue_vnd := revenue |} ]))
        records)
      records)
    [].

End Generator.

(** ** The database and the console

    The database client is outside the program.  Each call the seeder makes
    on it either returns or raises; a [db_script] fixes those outcomes, and
    the calls actually made are logged in the order they happen. *)

Inductive db_call : Type :=
| CallConnect
| CallCursor
| CallExecute
| CallExecuteMany (rows : nat)
| CallCommit
| CallCursorClose
| CallConnClose.

Section Program.
Context `{RandomSource}.

Record db_script : Type := {
  on_connect : option exn;
  on_cursor : option exn;
  on_execute : option exn;
  on_executemany : list revenue_record -> option exn;
  on_commit : option exn;
  on_cursor_close : option exn;
  on_conn_close : option exn
}.

Inductive line : Type :=
| MsgStart
| MsgConnecting
| MsgConnected
| MsgTableCreated
| MsgInserted (n : nat)
| MsgCommitted
| MsgSampleHeader
| MsgSampleRow (r : revenue_record)
| MsgSummary (total_2024 total_2025 : Z) (growth : float)
| MsgDone
| MsgDatabaseError (e : exn)
| MsgError (e : exn).

Record world : Type := {
  w_rng : rng;
  w_console : list line;
  w_calls : list db_call
}.

Definition IO (A : Type) : Type := world -> result A * world.

Definition io_ret {A : Type} (a : A) : IO A := fun w => (Ok a, w).

Definition io_bind {A B : Type} (c : IO A) (k : A -> IO B) : IO B :=
  fun w =>
    match c w with
    | (Ok a, w') => k a w'
    | (Raise e, w') => (Raise e, w')
    end.

Definition io_raise {A : Type} (e : exn) : IO A := fun w => (Raise e, w).

Definition print (l : line) : IO unit :=
  fun w => (Ok tt, {| w_rng := w_rng w;
                      w_console := w_console w ++ [l];
                      w_calls := w_calls w |}).

(** One call on the database client: logged, then its scripted outcome. *)
Definition db (c : db_call) (outcome : option exn) : IO unit :=
  fun w =>
    let w' := {| w_rng := w_rng w;
                 w_console := w_console w;
                 w_calls := w_calls w ++ [c] |} in
    match outcome with
    | None => (Ok tt, w')
    | Some e => (Raise e, w')
    end.

Definition io_gen {A : Type} (c : Gen A) : IO A :=
  fun w =>
    let (r, g') := c (w_rng w) in
    (r, {| w_rng := g'; w_console := w_console w; w_calls := w_calls w |}).

Fixpoint io_iter {X : Type} (xs : list X) (body : X -> IO unit) : IO unit :=
  match xs with
  | [] => io_ret tt
  | x :: xs' => io_bind (body x) (fun _ => io_iter xs' body)
  end.

Notation "x <-- c ; k" := (io_bind c (fun x => k))
  (at level 61, c at next level, right associativity).
Notation "c ;> k" := (io_bind c (fun _ => k))
  (at level 61, right associativity).

Definition create_table (script : db_script) : IO unit :=
  db CallExecute (on_execute script) ;>
  print MsgTableCreated.

Definition seed_data (script : db_script) : IO (list revenue_record) :=
  records <-- io_gen build_records ;
  db (CallExecuteMany (List.length records)) (on_executemany script records) ;>
  print (MsgInserted (List.length records)) ;>
  io_ret records.

(** [records[:3] + records[-3:]] *)
Definition sample (records : list revenue_record) : list revenue_record :=
  firstn 3 records ++ skipn (List.length records - 3) records.

Definition total_of_year (y : Z) (records : list revenue_record) : Z :=
  fold_left Z.add
    (map revenue_vnd (filter (fun r => year (report_date r) =? y) records)) 0.

Definition print_sample_data (records : list revenue_record) : IO unit :=
  print MsgSampleHeader ;>
  io_iter (sample records) (fun r => print (MsgSampleRow r)) ;>
  let total_2024 := total_of_year 2024 records in
  let total_2025 := total_of_year 2025 records in
  (if total_2024 =? 0 then io_raise ZeroDivisionError else io_ret tt) ;>
  let growth :=
    (PyFloat.of_int (total_2025 - total_2024) / PyFloat.of_int total_2024
     * PyFloat.of_int 100)%float in
  print (MsgSummary total_2024 total_2025 growth).

(** The body of the [try] block. *)
Definition main_body (script : db_script) : IO unit :=
  print MsgConnecting ;>
  db CallConnect (on_connect script) ;>
  db CallCursor (on_cursor script) ;>
  print MsgConnected ;>
  create_table script ;>
  records <-- seed_data script ;
  db CallCommit (on_commit script) ;>
  print MsgCommitted ;>
  print_sample_data records ;>
  db CallCursorClose (on_cursor_close script) ;>
  db CallConnClose (on_conn_close script) ;>
  print MsgDone.

(** [try: ... except psycopg2.Error as e: print; raise
           except Exception as e: print; raise] *)
Definition main (script : db_script) : IO unit :=
  print MsgStart ;>
  (fun w =>
     match main_body script w with
     | (Ok tt, w') => (Ok tt, w')
     | (Raise e, w') =>
         if is_psycopg2_error e
         then (print (MsgDatabaseError e) ;> io_raise e) w'
         else (print (MsgError e) ;> io_raise e) w'
     end).

(** The status the interpreter exits with after running [main()]. *)
Definition exit_status (r : result unit) : Z :=
  match r with
  | Ok _ => 0
  | Raise _ => 1
  end.

End Program.

(** ** A concrete random source

    The state is a counter; a draw returns the lower end of the requested
    range on an even count and the upper end on an odd one.  It meets the
    contract of [random.uniform] and is used to run the model. *)

#[export] Instance Alternating : RandomSource := {|
  rng := Z;
  rng_seed := fun s => Z.abs s;
  rng_uniform := fun a b g => (if Z.even g then a else b, g + 1)
|}.

(** A database on which every call succeeds. *)
Definition healthy_db : db_script := {|
  on_connect := None;
  on_cursor := None;
  on_execute := None;
  on_executemany := fun _ => None;
  on_commit := None;
  on_cursor_close := None;
  on_conn_close := None
|}.

(** ** The value of a binary64 number

    [Prim2SF] exposes sign, mantissa and exponent of a float; its value is
    the rational [m * 2^e].  Everything below is stated on these exact
    values. *)

Definition pow2 (e : Z) : Q := (2 ^ e)%Q.

Definition F2Q (m e : Z) : Q := (inject_Z m * pow2 e)%Q.

Definition SF2Q (x : spec_float) : Q :=
  match x with
  | S754_finite s m e => if s then (- F2Q (Zpos m) e)%Q else F2Q (Zpos m) e
  | _ => 0%Q
  end.

(** Zero of either sign, or a positive finite number. *)
Definition nonneg_finite (x : spec_float) : bool :=
  match x with
  | S754_zero _ => true
  | S754_finite false _ _ => true
  | _ => false
  end.

Definition fval (x : float) : Q := SF2Q (Prim2SF x).

Definition fin (x : float) : bool := nonneg_finite (Prim2SF x).

Definition fexp64 : Z -> Z := fexp prec emax.

(** What [binary_round_aux] returns for final mantissa [m2], exponent [e2]. *)
Definition round_result (sx : bool) (m2 e2 : Z) : spec_float :=
  match m2 with
  | Z0 => S754_zero sx
  | Zpos m => if e2 <=? emax - prec then S754_finite sx m e2 else S754_infinity sx
  | Zneg _ => S754_nan
  end.

(** Relative and absolute rounding error of one operation. *)
Definition u64 : Q := pow2 (-52).
Definition eta64 : Q := pow2 (-1074).

Definition lo_mul (a b : Q) : Q := (a * b - (a * b * u64 + eta64))%Q.
Definition hi_mul (a b : Q) : Q := (a * b + (a * b * u64 + eta64))%Q.
Definition lo_div (a b : Q) : Q := (a / b - 2 * (a / b * u64 + eta64))%Q.
Definition hi_div (a b : Q) : Q := (a / b + (a / b * u64 + eta64))%Q.

(** Enclosures of non-negative floats by rational end points. *)
Record interval : Type := { lower : Q; upper : Q }.

Definition within (x : float) (lo hi : Q) : Prop :=
  fin x = true /\ (lo <= fval x <= hi)%Q.

Definition inside (x : float) (a : interval) : Prop :=
  within x (lower a) (upper a).

Definition clip (q : Q) : Q := if Qle_bool 0 q then q else 0%Q.

(** End points are kept on the grid of multiples of [2^-80], rounded
    outwards, so that they stay small along a chain of operations. *)
Definition grid : positive := 2 ^ 80.

Definition round_down (q : Q) : Q := Qfloor (q * inject_Z (Zpos grid)) # grid.
Definition round_up (q : Q) : Q := Qceiling (q * inject_Z (Zpos grid)) # grid.

Definition imul (a b : interval) : interval :=
  {| lower := clip (round_down (lo_mul (lower a) (lower b)));
     upper := round_up (hi_mul (upper a) (upper b)) |}.

Definition idiv (a : interval) (c : Q) : interval :=
  {| lower := clip (round_down (lo_div (lower a) c));
     upper := round_up (hi_div (upper a) c) |}.

Definition valid (a : interval) : bool :=
  Qle_bool 0 (lower a) && Qle_bool (upper a) (pow2 900).

Definition hull (x y : float) : interval := {| lower := fval x; upper := fval y |}.

Definition base_range : interval :=
  hull (PyFloat.of_int BASE_REVENUE_MIN) (PyFloat.of_int BASE_REVENUE_MAX).

Definition noise_range : interval :=
  hull (PyFloat.of_int 1 - NOISE_RANGE) (PyFloat.of_int 1 + NOISE_RANGE).

Definition branch_range : interval := hull 0.6 1.0.
Definition contract_range : interval := hull 0 1.
Definition quarter_range : interval := hull 0.90 1.15.
Definition year_range : interval := hull 1.0 1.08.

(** Enclosure of [revenue / 1_000_000] just before it is rounded. *)
Definition revenue_range (f q y : interval) : interval :=
  idiv (imul (imul (imul (imul base_range f) q) y) noise_range)
       (fval (PyFloat.of_int 1000000)).

Definition revenue_checks (f q y : interval) : bool :=
  valid base_range && valid f && valid (imul base_range f)
  && valid q && valid (imul (imul base_range f) q)
  && valid y && valid (imul (imul (imul base_range f) q) y)
  && valid noise_range
  && valid (imul (imul (imul (imul base_range f) q) y) noise_range)
  && valid (revenue_range f q y).

(** ** Reference definitions, written from the specification *)

(** Seasonal factor by quarter: Q1 0.90, Q2 1.00, Q3 1.05, Q4 1.15. *)
Definition seasonal_factor (q : Z) : float :=
  match q with
  | 1 => 0.90
  | 2 => 1.00
  | 3 => 1.05
  | 4 => 1.15
  | _ => nan
  end.

(** Year-over-year factor: baseline year 1.0, the following year 1.08. *)
Definition growth_factor (y : Z) : float :=
  match y with
  | 2024 => 1.0
  | 2025 => 1.08
  | _ => nan
  end.

(** [round((base * f * Q[q] * Y[y] * noise) / 1,000,000) * 1,000,000] *)
Definition reference_revenue (base f : float) (q y : Z) (noise : float) : result Z :=
  bind_result
    (PyFloat.round
       (base * f * seasonal_factor q * growth_factor y * noise
        / PyFloat.of_int 1000000)%float)
    (fun n => Ok (n * 1000000)).

(** The theoretical bound, in exact arithmetic. *)
Definition revenue_lower_bound : Q :=
  (12000000000 * (6 # 10) * (90 # 100) * 1 * (90 # 100))%Q.

Definition revenue_upper_bound : Q :=
  (20000000000 * 1 * (115 # 100) * (108 # 100) * (110 # 100))%Q.

(** Months 1-3 are quarter 1, 4-6 quarter 2, 7-9 quarter 3, 10-12 quarter 4. *)
Definition quarter_of_month (m : Z) : Z :=
  if m <=? 3 then 1 else if m <=? 6 then 2 else if m <=? 9 then 3 else 4.

(** Length of a month in the Gregorian calendar. *)
Definition gregorian_leap_year (y : Z) : bool :=
  if y mod 400 =? 0 then true
  else if y mod 100 =? 0 then false
  else y mod 4 =? 0.

Definition gregorian_month_length (y m : Z) : Z :=
  match m with
  | 2 => if gregorian_leap_year y then 29 else 28
  | 4 | 6 | 9 | 11 => 30
  | _ => 31
  end.

(** What identifies a record: branch code, branch name, report date. *)
Definition record_key (r : revenue_record) : string * string * date :=
  (branch_code r, branch_name r, report_date r).

Definition month_keys (y m : Z) : list (string * string * date) :=
  map (fun b => (fst b, name (snd b),
                 {| year := y; month := m; day := gregorian_month_length y m |}))
      BRANCHES.

(** Years outermost, months next, branches innermost. *)
Definition expected_keys : list (string * string * date) :=
  flat_map (fun y => flat_map (fun m => month_keys y m) (range 1 13)) [2024; 2025].

(** A revenue as [generate_revenue] produces it for one of the branches. *)
Definition revenue_ok (r : Z) : Prop :=
  (1000000 | r) /\ 5832000000 <= r <= 27324000000.

Definition unique_key (r : revenue_record) : string * date :=
  (branch_code r, report_date r).

Definition unique_key_eqb (a b : string * date) : bool :=
  String.eqb (fst a) (fst b) && date_eqb (snd a) (snd b).

Fixpoint nodupb (l : list (string * date)) : bool :=
  match l with
  | [] => true
  | k :: l' => negb (existsb (unique_key_eqb k) l') && nodupb l'
  end.

(** The line the handlers of [main] print for an exception. *)
Definition error_marker (e : exn) : line :=
  if is_psycopg2_error e then MsgDatabaseError e else MsgError e.

Definition is_marker (l : line) : bool :=
  match l with
  | MsgDatabaseError _ | MsgError _ => true
  | _ => false
  end.

(** The calls of a complete run, in order. *)
Definition all_calls : list db_call :=
  [CallConnect; CallCursor; CallExecute; CallExecuteMany 72; CallCommit;
   CallCursorClose; CallConnClose].

Fixpoint is_prefix (l full : list db_call) : Prop :=
  match l, full with
  | [], _ => True
  | c :: l', c' :: full' => c = c' /\ is_prefix l' full'
  | _ :: _, [] => False
  end.

(** A computation that returns, from every generator state, a value in [P]. *)
Definition returns `{RandomSource} {A : Type} (c : Gen A) (P : A -> Prop) : Prop :=
  forall g, exists a g', c g = (Ok a, g') /\ P a.

(** The generator state the base draw is made from. *)
Definition start_state `{RandomSource} (seed_arg : option Z) (g : rng) : rng :=
  match seed_arg with
  | Some s => rng_seed s
  | None => g
  end.

(** A zero of either sign. *)
Definition zero_float (x : float) : Prop := exists s, Prim2SF x = S754_zero s.

(** The accumulated list grows by records with keys [K] and sound revenues. *)
Definition appends (K : list (string * string * date)) (acc acc' : list revenue_record)
    : Prop :=
  exists l, acc' = acc ++ l /\ map record_key l = K /\
            Forall (fun r => revenue_ok (revenue_vnd r)) l.

(** The first call the script makes fail, the calls being made in program
    order; [records] is the dataset handed to the bulk insert. *)
Definition scripted_failure (script : db_script) (records : list revenue_record)
    : option exn :=
  match on_connect script with Some e => Some e | None =>
  match on_cursor script with Some e => Some e | None =>
  match on_execute script with Some e => Some e | None =>
  match on_executemany script records with Some e => Some e | None =>
  match on_commit script with Some e => Some e | None =>
  match on_cursor_close script with Some e => Some e | None =>
  on_conn_close script
  end end end end end end.

(** A run of the concrete source that starts with an empty console. *)
Definition initial_world (g : Z) : @world Alternating :=
  {| w_rng := g; w_console := []; w_calls := [] |}.

(** A database that loses the connection at the commit. *)
Definition commit_fails_db : db_script := {|
  on_connect := None;
  on_cursor := None;
  on_execute := None;
  on_executemany := fun _ => None;
  on_commit := Some (Psycopg2Error "connection lost");
  on_cursor_close := None;
  on_conn_close := None
|}.

(** ** Definitions for the further properties *)

(** [Ok r] becomes [Ok (- r)]; an exception stays. *)
Definition negate_result (r : result Z) : result Z :=
  match r with
  | Ok n => Ok (- n)
  | Raise e => Raise e
  end.

Definition infinite_float (x : float) : Prop := exists s, Prim2SF x = S754_infinity s.

Definition positive_float (x : float) : Prop :=
  exists m e, Prim2SF x = S754_finite false m e.

(** Error after multiplying a value known up to [d], below [M], by a float
    below [Z]; kept on the grid. *)
Definition err_mul (d M Z : Q) : Q :=
  round_up (d * Z + ((M + d) * Z * u64 + eta64))%Q.

Definition err_div (d M c : Q) : Q :=
  round_up (d / c + 2 * ((M + d) / c * u64 + eta64))%Q.

(** The product of the five operands in exact arithmetic. *)
Definition exact_revenue (base f : float) (q y : Z) (noise : float) : Q :=
  (fval base * fval f * fval (seasonal_factor q) * fval (growth_factor y) * fval noise)%Q.

Definition max_base : Q := upper base_range.
Definition max_quarter : Q := upper quarter_range.
Definition max_year : Q := upper year_range.
Definition max_noise : Q := upper noise_range.

Definition err1 : Q := err_mul 0 max_base 1.
Definition err2 : Q := err_mul err1 max_base max_quarter.
Definition err3 : Q := err_mul err2 (max_base * max_quarter) max_year.
Definition err4 : Q := err_mul err3 (max_base * max_quarter * max_year) max_noise.
Definition err5 : Q :=
  err_div err4 (max_base * max_quarter * max_year * max_noise)
    (fval (PyFloat.of_int 1000000)).

(** Half a million plus the accumulated rounding error. *)
Definition half_million : Q := (500000 + (1 # 1000))%Q.

(** The product of the branch, seasonal and year factors. *)
Definition factor (f : float) (q y : Z) : Q :=
  (fval f * fval (seasonal_factor q) * fval (growth_factor y))%Q.

(** [BRANCHES[code]["multiplier"]] *)
Definition branch_multiplier_of (code : string) : option float :=
  option_map (fun b => multiplier (snd b))
    (find (fun b => String.eqb (fst b) code) BRANCHES).

(** The records are generated one after the other, each by a call of
    [generate_revenue] with the multiplier of its branch, the quarter of its
    month and its year, made from the state the previous call left. *)
Inductive generated_from `{RandomSource} : rng -> list revenue_record -> rng -> Prop :=
| generated_nil (g : rng) : generated_from g [] g
| generated_cons (g g1 g2 : rng) (r : revenue_record) (l : list revenue_record)
    (f : float) :
    branch_multiplier_of (branch_code r) = Some f ->
    generate_revenue f (get_quarter (month (report_date r))) (year (report_date r)) None g
      = (Ok (revenue_vnd r), g1) ->
    generated_from g1 l g2 ->
    generated_from g (r :: l) g2.

Definition produces `{RandomSource} (c : Gen (list revenue_record))
    (acc : list revenue_record) (K : list (string * string * date)) : Prop :=
  forall g, exists l g',
    c g = (Ok (acc ++ l), g') /\ map record_key l = K /\ generated_from g l g'.

(** Codes and names as [BRANCHES] pairs them. *)
Definition branch_names : list (string * string) :=
  map (fun b => (fst b, name (snd b))) BRANCHES.

Definition name_pair_eqb (a b : string * string) : bool :=
  String.eqb (fst a) (fst b) && String.eqb (snd a) (snd b).

(** A key of a configured branch at the last day of a configured month. *)
Definition key_wellformed (k : string * string * date) : bool :=
  let '(code, nm, d) := k in
  existsb (name_pair_eqb (code, nm)) branch_names
  && ((year d =? 2024) || (year d =? 2025))
  && (1 <=? month d) && (month d <=? 12)
  && match get_last_day_of_month (year d) (month d) with
     | Ok d' => date_eqb d' d
     | Raise _ => false
     end.

(** Column limits of the table as [create_table] declares them:
    [branch_code VARCHAR(3)], [branch_name VARCHAR(50)], [revenue_vnd BIGINT]. *)
Definition BRANCH_CODE_WIDTH : nat := 3.
Definition BRANCH_NAME_WIDTH : nat := 50.
Definition BIGINT_MIN : Z := - 2 ^ 63.
Definition BIGINT_MAX : Z := 2 ^ 63 - 1.

Definition fits_columns (r : revenue_record) : bool :=
  (String.length (branch_code r) <=? BRANCH_CODE_WIDTH)%nat
  && (String.length (branch_name r) <=? BRANCH_NAME_WIDTH)%nat
  && (BIGINT_MIN <=? revenue_vnd r) && (revenue_vnd r <=? BIGINT_MAX).

Definition key_fits (k : string * string * date) : bool :=
  (String.length (fst (fst k)) <=? BRANCH_CODE_WIDTH)%nat
  && (String.length (snd (fst k)) <=? BRANCH_NAME_WIDTH)%nat.

(** The lines of the sample rows, and the summary line. *)
Definition is_sample_row (l : line) : bool :=
  match l with
  | MsgSampleRow _ => true
  | _ => false
  end.

Definition is_summary (l : line) : bool :=
  match l with
  | MsgSummary _ _ _ => true
  | _ => false
  end.

(** The sum of the revenues of all the records. *)
Definition total_revenue (records : list revenue_record) : Z :=
  fold_left Z.add (map revenue_vnd records) 0.

Definition in_year (y : Z) (r : revenue_record) : bool := year (report_date r) =? y.

(** The scripted outcome of a call of the run that inserts [records]. *)
Definition outcome_of (script : db_script) (records : list revenue_record)
    (c : db_call) : option exn :=
  match c with
  | CallConnect => on_connect script
  | CallCursor => on_cursor script
  | CallExecute => on_execute script
  | CallExecuteMany _ => on_executemany script records
  | CallCommit => on_commit script
  | CallCursorClose => on_cursor_close script
  | CallConnClose => on_conn_close script
  end.

(** The lines [print_sample_data] prints for a dataset with a 2024 total. *)
Definition sample_lines (records : list revenue_record) : list line :=
  let total_2024 := total_of_year 2024 records in
  let total_2025 := total_of_year 2025 records in
  MsgSampleHeader :: map MsgSampleRow (sample records) ++
  [MsgSummary total_2024 total_2025
     (PyFloat.of_int (total_2025 - total_2024) / PyFloat.of_int total_2024
      * PyFloat.of_int 100)%float].

(** The world a run started in [w] ends in: [g] is the generator state,
    [out] the lines printed and [calls] the calls made. *)
Definition world_after `{RandomSource} (w : world) (g : rng) (out : list line)
    (calls : list db_call) : world :=
  {| w_rng := g; w_console := w_console w ++ out; w_calls := w_calls w ++ calls |}.

(** The lines that report the progress of the run. *)
Definition is_progress (l : line) : bool :=
  match l with
  | MsgConnected | MsgTableCreated | MsgInserted _ | MsgCommitted | MsgDone => true
  | _ => false
  end.

(** * Theorems *)

(** ** Rounding in binary64

    One multiplication or division of non-negative floats is off its exact
    value by at most the relative error [u64] plus the absolute error
    [eta64]; [round] is off by at most one half. *)

Lemma digits2_pos_size (p : positive) : digits2_pos p = Pos.size p.
Proof. induction p; simpl; congruence. Qed.

Lemma Zdigits2_bounds (m : Z) :
  0 < m -> 2 ^ (Zdigits2 m - 1) <= m < 2 ^ Zdigits2 m.
Proof.
  destruct m as [|p|p]; try lia. intros _. simpl Zdigits2.
  rewrite digits2_pos_size.
  pose proof (Pos.size_gt p) as Hgt.
  pose proof (Pos.size_le p) as Hle.
  split.
  - assert (2 ^ Z.pos (Pos.size p) <= 2 * Z.pos p).
    { rewrite <- Pos2Z.inj_pow. change (2 * Z.pos p) with (Z.pos p~0). lia. }
    replace (Z.pos (Pos.size p)) with (Z.succ (Z.pos (Pos.size p) - 1)) in H by lia.
    rewrite Z.pow_succ_r in H by lia. lia.
  - rewrite <- Pos2Z.inj_pow. lia.
Qed.

Lemma Zdigits2_nonneg (m : Z) : 0 <= Zdigits2 m.
Proof. destruct m; simpl; lia. Qed.

Lemma Zdigits2_le_of_lt (m k : Z) : 0 <= m -> 0 <= k -> m < 2 ^ k -> Zdigits2 m <= k.
Proof.
  intros Hm Hk Hlt.
  destruct (Z.eq_dec m 0) as [->|Hne]; [simpl; lia|].
  pose proof (Zdigits2_bounds m ltac:(lia)) as [Hlo _].
  destruct (Z_le_gt_dec (Zdigits2 m) k) as [|Hgt]; [assumption|exfalso].
  assert (2 ^ k <= 2 ^ (Zdigits2 m - 1)) by (apply Z.pow_le_mono_r; lia).
  lia.
Qed.

Lemma shr_1_m (mrs : shr_record) : 0 <= shr_m mrs -> shr_m (shr_1 mrs) = shr_m mrs / 2.
Proof.
  destruct mrs as [m r s]; cbn [shr_m]. intros Hm.
  destruct m as [|[p|p|]|p]; cbn [shr_1 shr_m]; try lia; try reflexivity.
  - apply Z.div_unique with (r := 1); lia.
  - apply Z.div_unique with (r := 0); lia.
Qed.

Lemma shr_m_iter_pos (p : positive) : forall mrs,
  0 <= shr_m mrs -> shr_m (iter_pos shr_1 p mrs) = shr_m mrs / 2 ^ Z.pos p.
Proof.
  induction p as [p IH|p IH|]; intros mrs Hm; simpl iter_pos.
  - assert (H1 : 0 <= shr_m (shr_1 mrs)) by (rewrite shr_1_m by assumption; apply Z.div_pos; lia).
    assert (H2 : 0 <= shr_m (iter_pos shr_1 p (shr_1 mrs))) by (rewrite IH by assumption; apply Z.div_pos; lia).
    rewrite IH, IH, shr_1_m by assumption.
    rewrite !Z.div_div by lia.
    f_equal.
    replace (Z.pos p~1) with (1 + Z.pos p + Z.pos p) by lia.
    rewrite !Z.pow_add_r by lia. lia.
  - assert (H2 : 0 <= shr_m (iter_pos shr_1 p mrs)) by (rewrite IH by assumption; apply Z.div_pos; lia).
    rewrite IH, IH by assumption.
    rewrite !Z.div_div by lia.
    f_equal.
    replace (Z.pos p~0) with (Z.pos p + Z.pos p) by lia.
    rewrite !Z.pow_add_r by lia. lia.
  - rewrite shr_1_m by assumption. reflexivity.
Qed.

Lemma shr_m_record_of_loc m l : shr_m (shr_record_of_loc m l) = m.
Proof. destruct l as [|[]]; reflexivity. Qed.

Lemma shr_fexp_spec (m e : Z) (l : location) :
  0 <= m ->
  let e' := Z.max e (fexp64 (Zdigits2 m + e)) in
  snd (shr_fexp prec emax m e l) = e' /\
  shr_m (fst (shr_fexp prec emax m e l)) = m / 2 ^ (e' - e).
Proof.
  intros Hm e'. unfold shr_fexp, shr. fold fexp64.
  destruct (fexp64 (Zdigits2 m + e) - e) as [|p|p] eqn:Hn; simpl fst; simpl snd.
  - assert (e' = e) by lia. rewrite shr_m_record_of_loc.
    replace (e' - e) with 0 by lia. rewrite Z.pow_0_r, Z.div_1_r. auto.
  - assert (e' = e + Z.pos p) by lia. split; [lia|].
    rewrite shr_m_iter_pos by (rewrite shr_m_record_of_loc; assumption).
    rewrite shr_m_record_of_loc. f_equal. f_equal. lia.
  - assert (e' = e) by lia. rewrite shr_m_record_of_loc.
    replace (e' - e) with 0 by lia. rewrite Z.pow_0_r, Z.div_1_r. auto.
Qed.

Lemma round_nearest_even_cases (m : Z) (l : location) :
  round_nearest_even m l = m \/ round_nearest_even m l = m + 1.
Proof. destruct l as [|[]]; simpl; auto. destruct (Z.even m); auto. Qed.

Lemma fexp64_eq (x : Z) : fexp64 x = Z.max (x - 53) (-1074).
Proof. reflexivity. Qed.

Lemma div_pow2_digits (m d k : Z) :
  0 <= m -> 0 <= d -> 0 <= k -> m < 2 ^ d -> m / 2 ^ k < 2 ^ Z.max 0 (d - k).
Proof.
  intros Hm Hd Hk Hlt.
  assert (Hpk : 0 < 2 ^ k) by (apply Z.pow_pos_nonneg; lia).
  destruct (Z_le_gt_dec k d) as [Hle|Hgt].
  - replace (Z.max 0 (d - k)) with (d - k) by lia.
    apply Z.div_lt_upper_bound; [assumption|].
    rewrite <- Z.pow_add_r by lia. replace (k + (d - k)) with d by lia. assumption.
  - replace (Z.max 0 (d - k)) with 0 by lia.
    assert (2 ^ d <= 2 ^ k) by (apply Z.pow_le_mono_r; lia).
    rewrite Z.div_small by lia. simpl. lia.
Qed.

Lemma binary_round_aux_spec (sx : bool) (mx ex : Z) (lx : location) :
  0 <= mx ->
  let e1 := Z.max ex (fexp64 (Zdigits2 mx + ex)) in
  let q := mx / 2 ^ (e1 - ex) in
  exists m2 e2,
    e1 <= e2 <= e1 + 1 /\
    q <= m2 * 2 ^ (e2 - e1) <= q + 1 /\
    (lx = loc_Exact -> e1 = ex -> m2 = mx /\ e2 = ex) /\
    binary_round_aux prec emax sx mx ex lx = round_result sx m2 e2.
Proof.
  intros Hmx e1 q.
  pose proof (shr_fexp_spec mx ex lx Hmx) as [He' Hq]. fold e1 in He', Hq. fold q in Hq.
  unfold binary_round_aux.
  destruct (shr_fexp prec emax mx ex lx) as [mrs' e'] eqn:H1.
  simpl in He', Hq. subst e'.
  set (m1 := round_nearest_even (shr_m mrs') (loc_of_shr_record mrs')).
  assert (Hq0 : 0 <= q) by (apply Z.div_pos; [lia | apply Z.pow_pos_nonneg; lia]).
  assert (Hm1 : m1 = q \/ m1 = q + 1)
    by (unfold m1; rewrite Hq; apply round_nearest_even_cases).
  assert (Hm1' : 0 <= m1) by lia.
  pose proof (shr_fexp_spec m1 e1 loc_Exact Hm1') as [He'' Hm2].
  destruct (shr_fexp prec emax m1 e1 loc_Exact) as [mrs'' e''] eqn:H2.
  simpl in He'', Hm2. rewrite <- He'' in Hm2.
  set (d := Zdigits2 mx) in *.
  assert (Hd : 0 <= d) by apply Zdigits2_nonneg.
  set (k := e1 - ex) in *.
  assert (Hk : 0 <= k) by lia.
  assert (Hmxd : mx < 2 ^ d).
  { destruct (Z.eq_dec mx 0) as [->|]; [apply Z.pow_pos_nonneg; lia|].
    apply Zdigits2_bounds; lia. }
  pose proof (div_pow2_digits mx d k Hmx Hd Hk Hmxd) as Hqlt. fold q in Hqlt.
  assert (He1 : e1 = Z.max ex (Z.max (d + ex - 53) (-1074))) by (unfold e1; rewrite fexp64_eq; reflexivity).
  assert (Hdq : Zdigits2 q <= Z.max 0 (d - k)) by (apply Zdigits2_le_of_lt; lia).
  assert (Hdq1 : Zdigits2 (q + 1) <= Z.max 0 (d - k) + 1).
  { apply Zdigits2_le_of_lt; try lia.
    rewrite Z.pow_add_r by lia. simpl (2 ^ 1). lia. }
  rewrite fexp64_eq in He''.
  exists (shr_m mrs''), e''.
  assert (Hcase : (m1 = q /\ e'' = e1) \/ (m1 = q + 1 /\ e1 <= e'' <= e1 + 1)).
  { destruct Hm1 as [E|E]; [left|right]; (split; [assumption|]); rewrite E in He''; lia. }
  assert (Hmant : q <= shr_m mrs'' * 2 ^ (e'' - e1) <= q + 1).
  { rewrite Hm2.
    destruct Hcase as [[E1 E2]|[E1 E2]].
    - rewrite E2, Z.sub_diag, Z.pow_0_r, Z.div_1_r. lia.
    - assert (e'' = e1 \/ e'' = e1 + 1) as [E3|E3] by lia.
      + rewrite E3, Z.sub_diag, Z.pow_0_r, Z.div_1_r. lia.
      + rewrite E3. replace (e1 + 1 - e1) with 1 by lia. change (2 ^ 1) with 2.
        pose proof (Z.div_mod m1 2 ltac:(lia)). pose proof (Z.mod_pos_bound m1 2 ltac:(lia)). lia. }
  split; [lia|]. split; [exact Hmant|]. split.
  - intros -> Hex.
    assert (Hk0 : k = 0) by lia.
    assert (Hqmx : q = mx) by (unfold q; rewrite Hk0, Z.pow_0_r, Z.div_1_r; reflexivity).
    assert (m1 = q).
    { unfold m1. rewrite Hq.
      unfold shr_fexp, shr in H1. fold fexp64 in H1. fold d in H1.
      destruct (fexp64 (d + ex) - ex) as [|p|p] eqn:Hn;
        [ | rewrite fexp64_eq in Hn; lia | ]; inversion H1; reflexivity. }
    destruct Hcase as [[E1 E2]|[E1 E2]]; [|lia].
    rewrite Hm2, E2, Z.sub_diag, Z.pow_0_r, Z.div_1_r. lia.
  - reflexivity.
Qed.

Lemma pow2_pos (e : Z) : (0 < pow2 e)%Q.
Proof. apply Qpower_0_lt. reflexivity. Qed.

Lemma pow2_add (a b : Z) : (pow2 (a + b) == pow2 a * pow2 b)%Q.
Proof. apply Qpower_plus. discriminate. Qed.

Lemma pow2_Z (k : Z) : 0 <= k -> (pow2 k == inject_Z (2 ^ k))%Q.
Proof. intros Hk. unfold pow2. rewrite Zpower_Qpower by assumption. reflexivity. Qed.

Lemma pow2_le (a b : Z) : a <= b -> (pow2 a <= pow2 b)%Q.
Proof.
  intros Hab. replace b with (a + (b - a)) by lia.
  rewrite pow2_add, (pow2_Z (b - a)) by lia.
  assert (H1 : (1 <= inject_Z (2 ^ (b - a)))%Q).
  { change 1%Q with (inject_Z 1). rewrite <- Zle_Qle.
    assert (0 < 2 ^ (b - a)) by (apply Z.pow_pos_nonneg; lia). lia. }
  pose proof (pow2_pos a). nra.
Qed.

Lemma pow2_lt_inv (a b : Z) : (pow2 a < pow2 b)%Q -> a < b.
Proof.
  intros Hlt. destruct (Z_lt_le_dec a b) as [|Hge]; [assumption|exfalso].
  pose proof (pow2_le b a Hge). lra.
Qed.

Lemma F2Q_shift (m e k : Z) : 0 <= k -> (F2Q m (e + k) == F2Q (m * 2 ^ k) e)%Q.
Proof.
  intros Hk. unfold F2Q. rewrite pow2_add, (pow2_Z k), inject_Z_mult by assumption. ring.
Qed.

Lemma F2Q_le (m1 m2 e : Z) : m1 <= m2 -> (F2Q m1 e <= F2Q m2 e)%Q.
Proof.
  intros H. unfold F2Q. apply Qmult_le_compat_r; [rewrite <- Zle_Qle; assumption|].
  apply Qlt_le_weak, pow2_pos.
Qed.

Lemma F2Q_plus (a b e : Z) : (F2Q (a + b) e == F2Q a e + F2Q b e)%Q.
Proof. unfold F2Q. rewrite inject_Z_plus. ring. Qed.

Lemma F2Q_one (e : Z) : (F2Q 1 e == pow2 e)%Q.
Proof. unfold F2Q. change (inject_Z 1) with 1%Q. ring. Qed.

Lemma F2Q_zero (e : Z) : (F2Q 0 e == 0)%Q.
Proof. unfold F2Q. change (inject_Z 0) with 0%Q. ring. Qed.

Lemma F2Q_nonneg (m e : Z) : 0 <= m -> (0 <= F2Q m e)%Q.
Proof. intros H. rewrite <- (F2Q_zero e). apply F2Q_le. assumption. Qed.

(** A mantissa with [d] digits weighs at least [2^(d-1)]. *)
Lemma F2Q_digits_lower (m e : Z) :
  0 < m -> (pow2 (Zdigits2 m - 1 + e) <= F2Q m e)%Q.
Proof.
  intros Hm. pose proof (Zdigits2_bounds m Hm) as [Hlo _].
  assert (Hd : 0 <= Zdigits2 m - 1).
  { destruct m as [|p|p]; try lia. unfold Zdigits2. lia. }
  rewrite <- F2Q_one. rewrite Z.add_comm, F2Q_shift by assumption.
  apply F2Q_le. lia.
Qed.

Lemma F2Q_digits_upper (m e : Z) :
  0 <= m -> (F2Q m e < pow2 (Zdigits2 m + e))%Q.
Proof.
  intros Hm.
  assert (Hlt : m < 2 ^ Zdigits2 m).
  { destruct (Z.eq_dec m 0) as [->|]; [simpl; lia|]. apply Zdigits2_bounds. lia. }
  rewrite <- F2Q_one. rewrite Z.add_comm, F2Q_shift by apply Zdigits2_nonneg.
  unfold F2Q. apply Qmult_lt_compat_r; [apply pow2_pos|].
  rewrite <- Zlt_Qlt. lia.
Qed.

(** Value of the rounded result against the exact value. *)
Lemma binary_round_aux_value (mx ex : Z) (lx : location) :
  0 <= mx ->
  let e1 := Z.max ex (fexp64 (Zdigits2 mx + ex)) in
  let r := binary_round_aux prec emax false mx ex lx in
  e1 <= 970 ->
  nonneg_finite r = true /\
  (F2Q mx ex - pow2 e1 <= SF2Q r <= F2Q mx ex + pow2 e1)%Q /\
  (lx = loc_Exact -> e1 = ex -> SF2Q r == F2Q mx ex)%Q.
Proof.
  intros Hmx e1 r He1.
  destruct (binary_round_aux_spec false mx ex lx Hmx) as (m2 & e2 & He2 & Hm & Hex & Hr).
  fold e1 in He2, Hm, Hex. fold r in Hr.
  set (k := e1 - ex) in *. set (q := mx / 2 ^ k) in *. set (j := e2 - e1) in *.
  assert (Hk : 0 <= k) by lia.
  assert (Hj : 0 <= j) by lia.
  assert (Hpk : 0 < 2 ^ k) by (apply Z.pow_pos_nonneg; lia).
  assert (Hpj : 0 < 2 ^ j) by (apply Z.pow_pos_nonneg; lia).
  assert (Hq0 : 0 <= q) by (apply Z.div_pos; lia).
  assert (Hm2 : 0 <= m2) by nia.
  pose proof (Z.div_mod mx (2 ^ k) ltac:(lia)) as Hdm.
  pose proof (Z.mod_pos_bound mx (2 ^ k) Hpk) as Hmod. fold q in Hdm.
  assert (Hval : SF2Q r = F2Q m2 e2 \/ (m2 = 0 /\ SF2Q r = 0%Q)).
  { rewrite Hr. unfold round_result. destruct m2 as [|p|p]; [right; auto| |lia].
    left. replace (e2 <=? emax - prec) with true; [reflexivity|].
    symmetry. apply Z.leb_le. change (emax - prec) with 971. lia. }
  assert (Hfin : nonneg_finite r = true).
  { rewrite Hr. unfold round_result. destruct m2 as [|p|p]; [reflexivity| |lia].
    replace (e2 <=? emax - prec) with true; [reflexivity|].
    symmetry. apply Z.leb_le. change (emax - prec) with 971. lia. }
  assert (Hv : (SF2Q r == F2Q m2 e2)%Q).
  { destruct Hval as [->|[-> ->]]; [reflexivity|]. rewrite F2Q_zero. reflexivity. }
  assert (E2 : (F2Q m2 e2 == F2Q (m2 * 2 ^ j) e1)%Q).
  { replace e2 with (e1 + j) by lia. apply F2Q_shift. assumption. }
  assert (E1 : (F2Q q e1 == F2Q (q * 2 ^ k) ex)%Q).
  { replace e1 with (ex + k) at 1 by lia. apply F2Q_shift. assumption. }
  assert (E3 : (pow2 e1 == F2Q (2 ^ k) ex)%Q).
  { rewrite <- F2Q_one. replace e1 with (ex + k) by lia.
    rewrite F2Q_shift by assumption. rewrite Z.mul_1_l. reflexivity. }
  pose proof (F2Q_le _ _ e1 (proj1 Hm)) as B1.
  pose proof (F2Q_le _ _ e1 (proj2 Hm)) as B2.
  rewrite F2Q_plus, F2Q_one in B2.
  assert (B3 : (F2Q (q * 2 ^ k) ex <= F2Q mx ex)%Q) by (apply F2Q_le; lia).
  assert (B4 : (F2Q mx ex <= F2Q (q * 2 ^ k + 2 ^ k) ex)%Q) by (apply F2Q_le; lia).
  rewrite F2Q_plus in B4.
  split; [assumption|]. split.
  - rewrite Hv, E2. rewrite E1 in B1, B2. rewrite E3. lra.
  - intros Hl Hee. destruct (Hex Hl Hee) as [-> ->]. exact Hv.
Qed.

Lemma pow2_lt (a b : Z) : a < b -> (pow2 a < pow2 b)%Q.
Proof.
  intros Hab. replace b with (a + (b - a)) by lia.
  rewrite pow2_add, (pow2_Z (b - a)) by lia.
  assert (H1 : (2 <= inject_Z (2 ^ (b - a)))%Q).
  { change 2%Q with (inject_Z 2). rewrite <- Zle_Qle.
    change 2 with (2 ^ 1) at 1. apply Z.pow_le_mono_r; lia. }
  pose proof (pow2_pos a). nra.
Qed.

Lemma pow2_le_inv (a b : Z) : (pow2 a <= pow2 b)%Q -> a <= b.
Proof.
  intros Hle. destruct (Z_le_gt_dec a b) as [|Hgt]; [assumption|exfalso].
  pose proof (pow2_lt b a ltac:(lia)). lra.
Qed.

Lemma u64_pos : (0 < u64)%Q.
Proof. apply pow2_pos. Qed.

Lemma eta64_pos : (0 < eta64)%Q.
Proof. apply pow2_pos. Qed.

Lemma u64_lt_1 : (u64 < 1)%Q.
Proof. change 1%Q with (pow2 0). apply pow2_lt. lia. Qed.

(** The weight of the last place after rounding a mantissa [m > 0] at
    exponent [e], against the value [m * 2^e]. *)
Lemma ulp_bound (m e : Z) :
  0 < m ->
  let e1 := Z.max e (fexp64 (Zdigits2 m + e)) in
  e1 = e \/ (pow2 e1 <= F2Q m e * u64 + eta64)%Q.
Proof.
  intros Hm e1. unfold e1. rewrite fexp64_eq.
  pose proof (F2Q_digits_lower m e Hm) as Hlo.
  pose proof u64_pos. pose proof eta64_pos. pose proof (pow2_pos (Zdigits2 m - 1 + e)).
  destruct (Z.max_spec e (Z.max (Zdigits2 m + e - 53) (-1074))) as [[_ ->]|[_ ->]]; [|left; reflexivity].
  right.
  destruct (Z.max_spec (Zdigits2 m + e - 53) (-1074)) as [[_ ->]|[_ ->]].
  - fold eta64. nra.
  - replace (Zdigits2 m + e - 53) with (Zdigits2 m - 1 + e + (-52)) by lia.
    rewrite pow2_add. fold u64. nra.
Qed.

Lemma SFmul_value (mx my : positive) (ex ey : Z) :
  let v := (F2Q (Zpos mx) ex * F2Q (Zpos my) ey)%Q in
  let r := SFmul prec emax (S754_finite false mx ex) (S754_finite false my ey) in
  (v <= pow2 900)%Q ->
  nonneg_finite r = true /\
  (v - (v * u64 + eta64) <= SF2Q r <= v + (v * u64 + eta64))%Q.
Proof.
  intros v r Hv.
  assert (Ev : (v == F2Q (Zpos (mx * my)) (ex + ey))%Q).
  { unfold v, F2Q. rewrite pow2_add, Pos2Z.inj_mul, inject_Z_mult. ring. }
  set (m := Zpos (mx * my)) in *.
  assert (Hm : 0 < m) by (unfold m; lia).
  pose proof (F2Q_digits_lower m (ex + ey) Hm) as Hlo.
  assert (Hd : Zdigits2 m - 1 + (ex + ey) <= 900) by (apply pow2_le_inv; lra).
  assert (Hd1 : 1 <= Zdigits2 m) by (unfold m; simpl; lia).
  set (e1 := Z.max (ex + ey) (fexp64 (Zdigits2 m + (ex + ey)))).
  assert (He1 : e1 <= 970) by (unfold e1; rewrite fexp64_eq; lia).
  destruct (binary_round_aux_value m (ex + ey) loc_Exact ltac:(lia) He1) as (Hfin & Hb & Hexact).
  fold e1 in Hb, Hexact.
  change (binary_round_aux prec emax false m (ex + ey) loc_Exact) with r in *.
  split; [assumption|].
  pose proof u64_pos. pose proof eta64_pos.
  assert (Hv0 : (0 <= v)%Q) by (rewrite Ev; apply F2Q_nonneg; lia).
  destruct (ulp_bound m (ex + ey) Hm) as [E|B]; fold e1 in E || fold e1 in B.
  - rewrite (Hexact eq_refl E), <- Ev. nra.
  - rewrite <- Ev in Hb, B. lra.
Qed.

Lemma inject_Z_pos (m : Z) : 0 < m -> (0 < inject_Z m)%Q.
Proof. intros H. change 0%Q with (inject_Z 0). rewrite <- Zlt_Qlt. assumption. Qed.

Lemma F2Q_pos (m e : Z) : 0 < m -> (0 < F2Q m e)%Q.
Proof.
  intros H. unfold F2Q. apply Qmult_lt_0_compat; [apply inject_Z_pos; assumption|apply pow2_pos].
Qed.

Lemma SFdiv_value (mx my : positive) (ex ey : Z) (v : Q) :
  let r := SFdiv prec emax (S754_finite false mx ex) (S754_finite false my ey) in
  (v * F2Q (Zpos my) ey == F2Q (Zpos mx) ex)%Q ->
  (v <= pow2 900)%Q ->
  nonneg_finite r = true /\
  (v - 2 * (v * u64 + eta64) <= SF2Q r <= v + (v * u64 + eta64))%Q.
Proof.
  intros r Hv Hv900. unfold r, SFdiv, SFdiv_core_binary. cbn [xorb].
  set (m1 := Zpos mx) in *. set (m2 := Zpos my) in *.
  fold fexp64.
  set (d1 := Zdigits2 m1). set (d2 := Zdigits2 m2).
  set (e' := Z.min (fexp64 (d1 + ex - (d2 + ey))) (ex - ey)).
  set (s := ex - ey - e').
  set (m' := match s with Z0 => m1 | Zpos _ => Z.shiftl m1 s | Zneg _ => 0 end).
  assert (Hm1 : 0 < m1) by (unfold m1; lia).
  assert (Hm2 : 0 < m2) by (unfold m2; lia).
  assert (Hs : 0 <= s) by (unfold s, e'; lia).
  assert (Em' : m' = m1 * 2 ^ s).
  { unfold m'. destruct s as [|p|p] eqn:Es; [rewrite Z.pow_0_r; lia| |lia].
    rewrite Z.shiftl_mul_pow2 by lia. reflexivity. }
  assert (Hm' : 0 < m').
  { rewrite Em'. apply Z.mul_pos_pos; [assumption|apply Z.pow_pos_nonneg; lia]. }
  destruct (Z.div_eucl m' m2) as [q rem] eqn:Hdiv.
  assert (Eq : q = m' / m2) by (unfold Z.div; rewrite Hdiv; reflexivity).
  assert (Hq0 : 0 <= q) by (rewrite Eq; apply Z.div_pos; lia).
  assert (Hq1 : q * m2 <= m').
  { rewrite Eq, Z.mul_comm. apply Z.mul_div_le. assumption. }
  assert (Hq2 : m' < (q + 1) * m2).
  { rewrite Eq, Z.mul_comm. apply Z.mul_succ_div_gt. assumption. }
  (* the exact quotient against the integer quotient *)
  pose proof (pow2_pos e') as HP. pose proof (pow2_pos ey) as HPy.
  pose proof (inject_Z_pos m2 Hm2) as HM2.
  assert (Evm : (v * inject_Z m2 == F2Q m' e')%Q).
  { assert (E1 : (F2Q m1 ex == F2Q m' e' * pow2 ey)%Q).
    { replace ex with (e' + ey + s) by (unfold s; lia).
      rewrite F2Q_shift by assumption. rewrite <- Em'.
      unfold F2Q. rewrite pow2_add. ring. }
    rewrite E1 in Hv. unfold F2Q in Hv at 1.
    apply (Qmult_inj_r _ _ (pow2 ey)); [lra|].
    rewrite <- Hv. ring. }
  assert (Hvpos : (0 < v)%Q).
  { pose proof (F2Q_pos m' e' Hm'). rewrite <- Evm in H.
    destruct (Qlt_le_dec 0 v); [assumption|exfalso]. nra. }
  assert (Hlow : (F2Q q e' <= v)%Q).
  { assert (H : (F2Q (q * m2) e' <= F2Q m' e')%Q) by (apply F2Q_le; assumption).
    rewrite <- Evm in H. unfold F2Q in H. rewrite inject_Z_mult in H.
    unfold F2Q. apply (Qmult_le_r _ _ (inject_Z m2)); [assumption|]. lra. }
  assert (Hupp : (v <= F2Q q e' + pow2 e')%Q).
  { assert (H : (F2Q m' e' <= F2Q ((q + 1) * m2) e')%Q) by (apply F2Q_le; lia).
    rewrite <- Evm in H. unfold F2Q in H. rewrite inject_Z_mult, inject_Z_plus in H.
    change (inject_Z 1) with 1%Q in H.
    unfold F2Q. apply (Qmult_le_r _ _ (inject_Z m2)); [assumption|]. lra. }
  pose proof u64_pos as Hu. pose proof eta64_pos as Heta. pose proof u64_lt_1 as Hu1.
  (* the last place of the quotient *)
  assert (Hpe' : (pow2 e' <= v * u64 + eta64)%Q).
  { assert (He' : e' <= Z.max (d1 + ex - (d2 + ey) - 53) (-1074)).
    { unfold e'. rewrite fexp64_eq. lia. }
    pose proof (pow2_le _ _ He') as Hle.
    destruct (Z.max_spec (d1 + ex - (d2 + ey) - 53) (-1074)) as [[_ E]|[_ E]];
      rewrite E in Hle; [fold eta64 in Hle; nra|].
    pose proof (F2Q_digits_lower m1 ex Hm1) as H1. fold d1 in H1.
    pose proof (F2Q_digits_upper m2 ey ltac:(lia)) as H2. fold d2 in H2.
    rewrite <- Hv in H1.
    assert (H3 : (pow2 (d1 - 1 + ex - (d2 + ey)) <= v)%Q).
    { replace (d1 - 1 + ex) with (d1 - 1 + ex - (d2 + ey) + (d2 + ey)) in H1 by lia.
      rewrite pow2_add in H1.
      pose proof (pow2_pos (d2 + ey)). pose proof (pow2_pos (d1 - 1 + ex - (d2 + ey))).
      pose proof (F2Q_pos m2 ey Hm2).
      destruct (Qlt_le_dec v (pow2 (d1 - 1 + ex - (d2 + ey)))); [exfalso; nra|assumption]. }
    replace (d1 + ex - (d2 + ey) - 53) with (d1 - 1 + ex - (d2 + ey) + (-52)) in Hle by lia.
    rewrite pow2_add in Hle. fold u64 in Hle. nra. }
  set (E1 := Z.max e' (fexp64 (Zdigits2 q + e'))).
  assert (HpE1 : (pow2 E1 <= v * u64 + eta64)%Q /\ (pow2 e' <= pow2 E1)%Q).
  { split; [|apply pow2_le; unfold E1; lia].
    destruct (Z.eq_dec q 0) as [Hq|Hq].
    - unfold E1. rewrite Hq, fexp64_eq. simpl Zdigits2.
      destruct (Z.max_spec e' (Z.max (0 + e' - 53) (-1074))) as [[Hlt ->]|[_ ->]]; [|assumption].
      replace (Z.max (0 + e' - 53) (-1074)) with (-1074) by lia.
      fold eta64. nra.
    - destruct (ulp_bound q e' ltac:(lia)) as [E|B]; fold E1 in E || fold E1 in B.
      + rewrite E. assumption.
      + nra. }
  destruct HpE1 as [HpE1 HpE1'].
  assert (HE1 : E1 <= 970).
  { assert (H : (pow2 E1 < pow2 901)%Q).
    { replace 901 with (900 + 1) by lia. rewrite pow2_add.
      change (pow2 1) with 2%Q.
      assert (eta64 < pow2 900)%Q by (apply pow2_lt; lia). nra. }
    apply pow2_lt_inv in H. lia. }
  destruct (binary_round_aux_value q e' (new_location m2 rem) Hq0 HE1) as (Hfin & Hb & _).
  fold E1 in Hb.
  split; [exact Hfin|]. lra.
Qed.

Lemma F2Q_int (m e : Z) : 0 <= e -> (F2Q m e == inject_Z (m * 2 ^ e))%Q.
Proof.
  intros He. replace e with (0 + e) at 1 by lia. rewrite F2Q_shift by assumption.
  unfold F2Q. change (pow2 0) with 1%Q. ring.
Qed.

Lemma round_half_even_value (m e : Z) :
  0 < m ->
  (F2Q m e - (1 # 2) <= inject_Z (PyFloat.round_half_even m e) <= F2Q m e + (1 # 2))%Q.
Proof.
  intros Hm. unfold PyFloat.round_half_even.
  destruct (Z.leb_spec 0 e) as [He|He].
  - rewrite F2Q_int by assumption. lra.
  - set (d := 2 ^ (- e)).
    assert (Hd : 0 < d) by (apply Z.pow_pos_nonneg; lia).
    pose proof (Z.div_mod m d ltac:(lia)) as Hdm.
    pose proof (Z.mod_pos_bound m d Hd) as Hr.
    set (q := m / d) in *. set (r := m mod d) in *.
    assert (EV : (F2Q m e * inject_Z d == inject_Z m)%Q).
    { unfold F2Q, d. rewrite <- pow2_Z by lia.
      rewrite <- Qmult_assoc, <- pow2_add. replace (e + - e) with 0 by lia.
      change (pow2 0) with 1%Q. ring. }
    pose proof (inject_Z_pos d Hd) as HD.
    assert (EQ : (inject_Z m == inject_Z d * inject_Z q + inject_Z r)%Q).
    { rewrite <- inject_Z_mult, <- inject_Z_plus, <- Hdm. reflexivity. }
    assert (Hr0 : (0 <= inject_Z r)%Q) by (change 0%Q with (inject_Z 0); rewrite <- Zle_Qle; lia).
    assert (Hr1 : (inject_Z r <= inject_Z d)%Q) by (rewrite <- Zle_Qle; lia).
    set (V := F2Q m e) in *.
    assert (Hcore : forall n c : Q,
              (n * inject_Z d == inject_Z d * inject_Z q + c)%Q ->
              (2 * (inject_Z r - c) <= inject_Z d)%Q ->
              (2 * (c - inject_Z r) <= inject_Z d)%Q ->
              (V - (1 # 2) <= n <= V + (1 # 2))%Q).
    { intros n c En H1 H2. split.
      - apply (Qmult_le_r _ _ (inject_Z d)); [assumption|]. lra.
      - apply (Qmult_le_r _ _ (inject_Z d)); [assumption|]. lra. }
    destruct (Z.compare_spec (2 * r) d) as [Hc|Hc|Hc].
    + assert (Hc' : (2 * inject_Z r == inject_Z d)%Q).
      { rewrite <- Hc, inject_Z_mult. reflexivity. }
      destruct (Z.even q).
      * apply (Hcore _ 0%Q); lra.
      * apply (Hcore _ (inject_Z d)); [rewrite inject_Z_plus; change (inject_Z 1) with 1%Q; ring|lra|lra].
    + assert (Hc' : (2 * inject_Z r <= inject_Z d)%Q).
      { change 2%Q with (inject_Z 2). rewrite <- inject_Z_mult, <- Zle_Qle. lia. }
      apply (Hcore _ 0%Q); lra.
    + assert (Hc' : (inject_Z d <= 2 * inject_Z r)%Q).
      { change 2%Q with (inject_Z 2). rewrite <- inject_Z_mult, <- Zle_Qle. lia. }
      apply (Hcore _ (inject_Z d)); [rewrite inject_Z_plus; change (inject_Z 1) with 1%Q; ring|lra|lra].
Qed.

Lemma SF2Q_nonneg (x : spec_float) : nonneg_finite x = true -> (0 <= SF2Q x)%Q.
Proof.
  destruct x as [s|s| |[] m e]; simpl; intros H; try discriminate; try lra.
  apply F2Q_nonneg. lia.
Qed.

Lemma fval_nonneg (x : float) : fin x = true -> (0 <= fval x)%Q.
Proof. apply SF2Q_nonneg. Qed.

(** [round] succeeds on a finite non-negative float, within one half. *)
Lemma round_value (x : float) :
  fin x = true ->
  exists n, PyFloat.round x = Ok n /\
            (fval x - (1 # 2) <= inject_Z n <= fval x + (1 # 2))%Q.
Proof.
  unfold fin, fval, PyFloat.round.
  destruct (Prim2SF x) as [s|s| |[] m e]; simpl; intros H; try discriminate.
  - exists 0. split; [reflexivity|]. change (inject_Z 0) with 0%Q. lra.
  - eexists. split; [reflexivity|]. apply round_half_even_value. lia.
Qed.

Lemma bounded_canonical (m : positive) (e : Z) :
  bounded prec emax m e = true ->
  e = Z.max (Zdigits2 (Zpos m) + e - 53) (-1074).
Proof.
  unfold bounded, canonical_mantissa. intros H.
  apply andb_prop in H as [H _]. apply Z.eqb_eq in H.
  fold fexp64 in H. rewrite fexp64_eq in H. simpl Zdigits2. lia.
Qed.

Lemma F2Q_lt_of_exp (m1 m2 : positive) (e1 e2 : Z) :
  bounded prec emax m1 e1 = true ->
  bounded prec emax m2 e2 = true ->
  e1 < e2 ->
  (F2Q (Zpos m1) e1 < F2Q (Zpos m2) e2)%Q.
Proof.
  intros B1 B2 Hlt.
  apply bounded_canonical in B1, B2.
  pose proof (F2Q_digits_upper (Zpos m1) e1 ltac:(lia)) as U.
  pose proof (F2Q_digits_lower (Zpos m2) e2 ltac:(lia)) as L.
  assert (H : Zdigits2 (Zpos m1) + e1 <= Zdigits2 (Zpos m2) - 1 + e2) by lia.
  apply pow2_le in H. lra.
Qed.

Lemma SFleb_value (x y : spec_float) :
  valid_binary x = true -> valid_binary y = true ->
  nonneg_finite x = true -> nonneg_finite y = true ->
  SFleb x y = true ->
  (SF2Q x <= SF2Q y)%Q.
Proof.
  destruct x as [sx|sx| |[] mx ex]; destruct y as [sy|sy| |[] my ey];
    simpl; intros Vx Vy Fx Fy H; try discriminate; try lra.
  - apply F2Q_nonneg. lia.
  - unfold SFleb, SFcompare in H.
    destruct (Z.compare_spec ex ey) as [E|E|E]; try discriminate.
    + subst ey. apply F2Q_le.
      change (Pos.compare_cont Eq mx my) with (Pos.compare mx my) in H.
      destruct (Pos.compare_spec mx my); try discriminate; lia.
    + apply Qlt_le_weak. apply F2Q_lt_of_exp; assumption.
Qed.

Lemma SFleb_between (lo x hi : spec_float) :
  nonneg_finite lo = true -> nonneg_finite hi = true ->
  SFleb lo x = true -> SFleb x hi = true ->
  nonneg_finite x = true.
Proof.
  destruct lo as [sl|sl| |[] ml el]; destruct hi as [sh|sh| |[] mh eh];
    destruct x as [s|[]| |[] m e]; cbv [SFleb SFcompare nonneg_finite];
    intros; congruence.
Qed.

Lemma uniform_in_range_within (lo hi x : float) :
  fin lo = true -> fin hi = true ->
  uniform_in_range lo hi x = true ->
  within x (fval lo) (fval hi).
Proof.
  unfold uniform_in_range, within, fin, fval. intros Flo Fhi H.
  apply andb_prop in H as [H1 H2]. rewrite leb_spec in H1, H2.
  assert (Fx : nonneg_finite (Prim2SF x) = true)     by (apply (SFleb_between (Prim2SF lo) _ (Prim2SF hi)); assumption).
  split; [assumption|].
  split; apply SFleb_value; auto using Prim2SF_valid.
Qed.

Lemma mul_value (x y : float) :
  fin x = true -> fin y = true ->
  (fval x * fval y <= pow2 900)%Q ->
  fin (x * y) = true /\
  (lo_mul (fval x) (fval y) <= fval (x * y) <= hi_mul (fval x) (fval y))%Q.
Proof.
  unfold fin, fval, lo_mul, hi_mul. rewrite mul_spec. unfold SF64mul.
  pose proof u64_pos. pose proof eta64_pos.
  destruct (Prim2SF x) as [sx|sx| |[] mx ex]; destruct (Prim2SF y) as [sy|sy| |[] my ey];
    intros Fx Fy Hv; try discriminate;
    try (cbn [SFmul SF2Q nonneg_finite]; split; [reflexivity|lra]).
  apply SFmul_value. exact Hv.
Qed.

Lemma mul_within (x y : float) (lx ux ly uy : Q) :
  within x lx ux -> within y ly uy ->
  (0 <= lx)%Q -> (0 <= ly)%Q -> (ux * uy <= pow2 900)%Q ->
  within (x * y) (lo_mul lx ly) (hi_mul ux uy).
Proof.
  intros [Fx [Lx Ux]] [Fy [Ly Uy]] Hlx Hly Hu.
  assert (Hv : (fval x * fval y <= pow2 900)%Q) by nra.
  destruct (mul_value x y Fx Fy Hv) as [F [L U]].
  pose proof u64_pos as Hu0. pose proof u64_lt_1 as Hu1.
  assert (HL : (lx * ly <= fval x * fval y)%Q) by nra.
  assert (HU : (fval x * fval y <= ux * uy)%Q) by nra.
  split; [assumption|]. unfold lo_mul, hi_mul in *.
  set (V := (fval x * fval y)%Q) in *. set (A := (lx * ly)%Q) in *. set (B := (ux * uy)%Q) in *.
  assert ((V - A) * (1 - u64) >= 0)%Q by nra.
  assert ((B - V) * (1 + u64) >= 0)%Q by nra.
  split; lra.
Qed.

Lemma div_value (x y : float) :
  fin x = true -> fin y = true -> (0 < fval y)%Q ->
  (fval x / fval y <= pow2 900)%Q ->
  fin (x / y) = true /\
  (lo_div (fval x) (fval y) <= fval (x / y) <= hi_div (fval x) (fval y))%Q.
Proof.
  unfold fin, fval, lo_div, hi_div. rewrite div_spec. unfold SF64div.
  pose proof u64_pos. pose proof eta64_pos.
  destruct (Prim2SF y) as [sy|sy| |[] my ey]; cbn [nonneg_finite SF2Q];
    intros Fx Fy Hy Hv; try discriminate; try lra.
  destruct (Prim2SF x) as [sx|sx| |[] mx ex]; try discriminate.
  - cbn [SFdiv SF2Q nonneg_finite]. split; [reflexivity|].
    assert (E : (0 / F2Q (Z.pos my) ey == 0)%Q) by (field; lra).
    rewrite E. lra.
  - cbn [SF2Q] in *. apply SFdiv_value; [field; lra|assumption].
Qed.

Lemma div_within (x y : float) (lx ux : Q) :
  within x lx ux -> fin y = true -> (0 < fval y)%Q ->
  (0 <= lx)%Q -> (ux / fval y <= pow2 900)%Q ->
  within (x / y) (lo_div lx (fval y)) (hi_div ux (fval y)).
Proof.
  intros [Fx [Lx Ux]] Fy Hy Hlx Hu.
  set (c := fval y) in *.
  assert (Hc : (0 < / c)%Q) by (apply Qinv_lt_0_compat; assumption).
  assert (HU : (fval x / c <= ux / c)%Q) by (unfold Qdiv; nra).
  assert (HL : (lx / c <= fval x / c)%Q) by (unfold Qdiv; nra).
  destruct (div_value x y Fx Fy Hy ltac:(fold c; lra)) as [F [L U]]. fold c in L, U.
  pose proof u64_pos as Hu0. pose proof eta64_pos.
  assert (Hu2 : (2 * u64 < 1)%Q).
  { unfold u64. change 2%Q with (pow2 1). rewrite <- pow2_add.
    change 1%Q with (pow2 0). apply pow2_lt. lia. }
  split; [assumption|]. unfold lo_div, hi_div in *.
  set (V := (fval x / c)%Q) in *. set (A := (lx / c)%Q) in *. set (B := (ux / c)%Q) in *.
  assert ((V - A) * (1 - 2 * u64) >= 0)%Q by nra.
  assert ((B - V) * (1 + u64) >= 0)%Q by nra.
  split; lra.
Qed.

Lemma clip_le (q v : Q) : (q <= v)%Q -> (0 <= v)%Q -> (clip q <= v)%Q.
Proof. unfold clip. destruct (Qle_bool 0 q); intros; assumption. Qed.

Lemma round_down_le (q : Q) : (round_down q <= q)%Q.
Proof.
  unfold round_down.
  pose proof (Qfloor_le (q * inject_Z (Zpos grid))) as H.
  rewrite (Qmake_Qdiv (Qfloor (q * inject_Z (Zpos grid))) grid).
  apply Qle_shift_div_r; [reflexivity|exact H].
Qed.

Lemma round_up_ge (q : Q) : (q <= round_up q)%Q.
Proof.
  unfold round_up.
  pose proof (Qle_ceiling (q * inject_Z (Zpos grid))) as H.
  rewrite (Qmake_Qdiv (Qceiling (q * inject_Z (Zpos grid))) grid).
  apply Qle_shift_div_l; [reflexivity|exact H].
Qed.

Lemma valid_spec (a : interval) :
  valid a = true -> (0 <= lower a)%Q /\ (upper a <= pow2 900)%Q.
Proof.
  unfold valid. intros H. apply andb_prop in H as [H1 H2].
  split; apply Qle_bool_imp_le; assumption.
Qed.

Lemma imul_sound (x y : float) (a b : interval) :
  inside x a -> inside y b ->
  valid a = true -> valid b = true -> valid (imul a b) = true ->
  inside (x * y) (imul a b).
Proof.
  intros Hx Hy Va Vb Vab.
  apply valid_spec in Va as [La _], Vb as [Lb _], Vab as [_ Uab].
  pose proof u64_pos. pose proof eta64_pos.
  assert (H900 : (upper a * upper b <= pow2 900)%Q).
  { cbn [imul upper] in Uab.
    pose proof (round_up_ge (hi_mul (upper a) (upper b))) as Hup.
    set (R := round_up (hi_mul (upper a) (upper b))) in *. unfold hi_mul in Hup.
    destruct Hx as [Fx [? ?]], Hy as [Fy [? ?]].
    pose proof (fval_nonneg x Fx). pose proof (fval_nonneg y Fy).
    assert (0 <= upper a * upper b)%Q by nra. nra. }
  destruct (mul_within x y _ _ _ _ Hx Hy La Lb H900) as [F [L U]].
  pose proof (round_down_le (lo_mul (lower a) (lower b))).
  pose proof (round_up_ge (hi_mul (upper a) (upper b))).
  split; [assumption|]. cbn [imul lower upper]. split; [|lra].
  apply clip_le; [lra|apply fval_nonneg; assumption].
Qed.

Lemma idiv_sound (x y : float) (a : interval) :
  inside x a -> fin y = true -> (0 < fval y)%Q ->
  valid a = true -> valid (idiv a (fval y)) = true ->
  inside (x / y) (idiv a (fval y)).
Proof.
  intros Hx Fy Hy Va Vd.
  apply valid_spec in Va as [La _], Vd as [_ Ud].
  pose proof u64_pos. pose proof eta64_pos.
  assert (H900 : (upper a / fval y <= pow2 900)%Q).
  { cbn [idiv upper] in Ud.
    pose proof (round_up_ge (hi_div (upper a) (fval y))) as Hup.
    set (R := round_up (hi_div (upper a) (fval y))) in *. unfold hi_div in Hup.
    destruct Hx as [Fx [? ?]]. pose proof (fval_nonneg x Fx).
    assert (0 < / fval y)%Q by (apply Qinv_lt_0_compat; assumption).
    assert (0 <= upper a / fval y)%Q by (unfold Qdiv; nra). nra. }
  destruct (div_within x y _ _ Hx Fy Hy La H900) as [F [L U]].
  pose proof (round_down_le (lo_div (lower a) (fval y))).
  pose proof (round_up_ge (hi_div (upper a) (fval y))).
  split; [assumption|]. cbn [idiv lower upper]. split; [|lra].
  apply clip_le; [lra|apply fval_nonneg; assumption].
Qed.

Lemma scaled_revenue_inside (base f qm ym noise : float) (fi qi yi : interval) :
  inside base base_range -> inside f fi -> inside qm qi -> inside ym yi ->
  inside noise noise_range ->
  revenue_checks fi qi yi = true ->
  inside (base * f * qm * ym * noise / PyFloat.of_int 1000000) (revenue_range fi qi yi).
Proof.
  intros Hb Hf Hq Hy Hn Hc. unfold revenue_checks in Hc.
  repeat (apply andb_prop in Hc as [Hc ?]).
  unfold revenue_range.
  apply idiv_sound; try assumption; try reflexivity.
  repeat (apply imul_sound; try assumption).
Qed.

(** ** Revenue generation *)

(** The decimal literals of the source as binary64 numbers, mantissa and
    exponent, and the two ends of the noise range as the source computes
    them. *)
Lemma literal_values :
  map Prim2SF [0.6; 0.85; 0.90; 1.05; 1.15; 1.08; 0.10]%float =
    [ S754_finite false 5404319552844595 (-53);
      S754_finite false 7656119366529843 (-53);
      S754_finite false 8106479329266893 (-53);
      S754_finite false 4728779608739021 (-52);
      S754_finite false 5179139571476070 (-52);
      S754_finite false 4863887597560136 (-52);
      S754_finite false 7205759403792794 (-56) ].
Proof. reflexivity. Qed.

Lemma noise_ends :
  (PyFloat.of_int 1 - NOISE_RANGE = 0.9)%float /\
  (PyFloat.of_int 1 + NOISE_RANGE = 1.1)%float.
Proof. split; reflexivity. Qed.

Lemma round_ties_to_even :
  map PyFloat.round [0.5; 1.5; 2.5; 3.5; 5831.5; 2.4999999999999996]%float =
    [Ok 0; Ok 2; Ok 2; Ok 4; Ok 5832; Ok 2].
Proof. reflexivity. Qed.

Lemma generate_revenue_steps `{RandomSource} (f : float) (q y : Z)
    (seed_arg : option Z) (g g1 g2 : rng) (base noise qm ym : float) :
  dict_get QUARTERLY_MULTIPLIERS q = Ok qm ->
  dict_get YEAR_MULTIPLIERS y = Ok ym ->
  rng_uniform (PyFloat.of_int BASE_REVENUE_MIN) (PyFloat.of_int BASE_REVENUE_MAX)
    (start_state seed_arg g) = (base, g1) ->
  rng_uniform (PyFloat.of_int 1 - NOISE_RANGE) (PyFloat.of_int 1 + NOISE_RANGE) g1
    = (noise, g2) ->
  generate_revenue f q y seed_arg g =
    (bind_result
       (PyFloat.round (base * f * qm * ym * noise / PyFloat.of_int 1000000)%float)
       (fun n => Ok (n * 1000000)), g2).
Proof.
  intros Hq Hy Hb Hn.
  unfold generate_revenue, gen_bind, gen_lift, gen_ret, uniform, seed.
  assert (E : (let (_, g') := match seed_arg with
                              | Some s => (Ok tt, rng_seed s)
                              | None => (Ok tt, g)
                              end in g') = start_state seed_arg g)
    by (destruct seed_arg; reflexivity).
  destruct seed_arg as [s|]; cbn [start_state] in Hb; rewrite Hb, Hq, Hy, Hn;
    destruct (PyFloat.round _); reflexivity.
Qed.

Lemma quarter_lookup (q : Z) :
  In q [1; 2; 3; 4] -> dict_get QUARTERLY_MULTIPLIERS q = Ok (seasonal_factor q).
Proof. intros [<-|[<-|[<-|[<-|[]]]]]; reflexivity. Qed.

Lemma year_lookup (y : Z) :
  In y [2024; 2025] -> dict_get YEAR_MULTIPLIERS y = Ok (growth_factor y).
Proof. intros [<-|[<-|[]]]; reflexivity. Qed.

(** Any other year is missing from the table. *)
Lemma year_lookup_missing (y : Z) :
  ~ In y [2024; 2025] -> dict_get YEAR_MULTIPLIERS y = Raise (KeyError y).
Proof.
  intros Hy. unfold YEAR_MULTIPLIERS, dict_get.
  destruct (Z.eqb_spec y 2024) as [->|]; [exfalso; apply Hy; simpl; auto|].
  destruct (Z.eqb_spec y 2025) as [->|]; [exfalso; apply Hy; simpl; auto|].
  reflexivity.
Qed.

Lemma seasonal_factor_inside (q : Z) :
  In q [1; 2; 3; 4] -> inside (seasonal_factor q) quarter_range.
Proof.
  intros [<-|[<-|[<-|[<-|[]]]]]; (split; [reflexivity|]);
    split; apply Qle_bool_imp_le; vm_compute; reflexivity.
Qed.

Lemma growth_factor_inside (y : Z) :
  In y [2024; 2025] -> inside (growth_factor y) year_range.
Proof.
  intros [<-|[<-|[]]]; (split; [reflexivity|]);
    split; apply Qle_bool_imp_le; vm_compute; reflexivity.
Qed.

Lemma branch_multiplier_inside (f : float) :
  In f (map (fun b => multiplier (snd b)) BRANCHES) -> inside f branch_range.
Proof.
  intros [<-|[<-|[<-|[]]]]; (split; [reflexivity|]);
    split; apply Qle_bool_imp_le; vm_compute; reflexivity.
Qed.

Lemma base_inside (base : float) :
  uniform_in_range (PyFloat.of_int BASE_REVENUE_MIN) (PyFloat.of_int BASE_REVENUE_MAX) base
    = true ->
  inside base base_range.
Proof. apply uniform_in_range_within; reflexivity. Qed.

Lemma noise_inside (noise : float) :
  uniform_in_range (PyFloat.of_int 1 - NOISE_RANGE) (PyFloat.of_int 1 + NOISE_RANGE) noise
    = true ->
  inside noise noise_range.
Proof. apply uniform_in_range_within; reflexivity. Qed.

Lemma contract_inside (f : float) :
  uniform_in_range 0 1 f = true -> inside f contract_range.
Proof. apply uniform_in_range_within; reflexivity. Qed.

(** The million-rounded revenue of enclosed operands. *)
Lemma rounded_revenue (base f qm ym noise : float) (fi qi yi : interval) :
  inside base base_range -> inside f fi -> inside qm qi -> inside ym yi ->
  inside noise noise_range ->
  revenue_checks fi qi yi = true ->
  exists n,
    PyFloat.round (base * f * qm * ym * noise / PyFloat.of_int 1000000)%float = Ok n /\
    (lower (revenue_range fi qi yi) - (1 # 2) <= inject_Z n
     <= upper (revenue_range fi qi yi) + (1 # 2))%Q.
Proof.
  intros Hb Hf Hq Hy Hn Hc.
  destruct (scaled_revenue_inside _ _ _ _ _ _ _ _ Hb Hf Hq Hy Hn Hc) as [F [L U]].
  destruct (round_value _ F) as (n & Hr & Hlo & Hhi).
  exists n. split; [assumption|]. split; lra.
Qed.

Lemma branch_checks : revenue_checks branch_range quarter_range year_range = true.
Proof. vm_compute. reflexivity. Qed.

Lemma contract_checks : revenue_checks contract_range quarter_range year_range = true.
Proof. vm_compute. reflexivity. Qed.

Lemma branch_revenue_range :
  (5831 < lower (revenue_range branch_range quarter_range year_range) - (1 # 2))%Q /\
  (upper (revenue_range branch_range quarter_range year_range) + (1 # 2) < 27325)%Q.
Proof. split; vm_compute; reflexivity. Qed.

Lemma branch_revenue_ok (base f noise : float) (q y : Z) :
  In f (map (fun b => multiplier (snd b)) BRANCHES) ->
  In q [1; 2; 3; 4] -> In y [2024; 2025] ->
  uniform_in_range (PyFloat.of_int BASE_REVENUE_MIN) (PyFloat.of_int BASE_REVENUE_MAX) base
    = true ->
  uniform_in_range (PyFloat.of_int 1 - NOISE_RANGE) (PyFloat.of_int 1 + NOISE_RANGE) noise
    = true ->
  exists n,
    PyFloat.round (base * f * seasonal_factor q * growth_factor y * noise
                   / PyFloat.of_int 1000000)%float = Ok n /\
    5832 <= n <= 27324.
Proof.
  intros Hf Hq Hy Hb Hn.
  destruct (rounded_revenue base f (seasonal_factor q) (growth_factor y) noise
              branch_range quarter_range year_range
              (base_inside base Hb) (branch_multiplier_inside f Hf)
              (seasonal_factor_inside q Hq) (growth_factor_inside y Hy)
              (noise_inside noise Hn) branch_checks) as (n & Hr & Hlo & Hhi).
  destruct branch_revenue_range as [B1 B2].
  exists n. split; [assumption|].
  assert (H1 : (inject_Z 5831 < inject_Z n)%Q) by (change (inject_Z 5831) with 5831%Q; lra).
  assert (H2 : (inject_Z n < inject_Z 27325)%Q) by (change (inject_Z 27325) with 27325%Q; lra).
  rewrite <- Zlt_Qlt in H1, H2. lia.
Qed.

Lemma eqb_zero (f : float) : (f =? 0)%float = true -> zero_float f.
Proof.
  rewrite eqb_spec. change (Prim2SF 0) with (S754_zero false).
  unfold zero_float. destruct (Prim2SF f) as [s|s| |s m e]; cbv [SFeqb SFcompare]; intros H.
  - exists s. reflexivity.
  - destruct s; discriminate.
  - discriminate.
  - destruct s; discriminate.
Qed.

Lemma mul_zero_r (x z : float) : fin x = true -> zero_float z -> zero_float (x * z).
Proof.
  unfold fin, zero_float. intros Fx [s Hz]. rewrite mul_spec, Hz. unfold SF64mul.
  destruct (Prim2SF x) as [sx|sx| |[] mx ex]; try discriminate; cbn [SFmul]; eauto.
Qed.

Lemma mul_zero_l (z y : float) : zero_float z -> fin y = true -> zero_float (z * y).
Proof.
  unfold fin, zero_float. intros [s Hz] Fy. rewrite mul_spec, Hz. unfold SF64mul.
  destruct (Prim2SF y) as [sy|sy| |[] my ey]; try discriminate; cbn [SFmul]; eauto.
Qed.

Lemma div_zero_l (z y : float) :
  zero_float z -> fin y = true -> (0 < fval y)%Q -> zero_float (z / y).
Proof.
  unfold fin, fval, zero_float. intros [s Hz] Fy Hy. rewrite div_spec, Hz. unfold SF64div.
  destruct (Prim2SF y) as [sy|sy| |[] my ey]; try discriminate; cbn [SFdiv SF2Q] in *;
    eauto; lra.
Qed.

Lemma round_zero (z : float) : zero_float z -> PyFloat.round z = Ok 0.
Proof. intros [s Hz]. unfold PyFloat.round. rewrite Hz. reflexivity. Qed.

Lemma million_fin : fin (PyFloat.of_int 1000000) = true.
Proof. reflexivity. Qed.

Lemma million_pos : (0 < fval (PyFloat.of_int 1000000))%Q.
Proof. vm_compute. reflexivity. Qed.

Lemma inside_fin (x : float) (a : interval) : inside x a -> fin x = true.
Proof. intros [F _]. exact F. Qed.

(** C1.  With quarter in 1..4 and year in 2024..2025, whatever the branch
    multiplier, the seed argument and the generator state, [generate_revenue]
    draws the base first and the noise second and returns the reference value
    [round(base * f * Q[q] * Y[y] * noise / 1,000,000) * 1,000,000]: the
    branch, seasonal, year and noise factors are applied in that order and
    the product is rounded to the nearest million.  When the two draws lie
    in their ranges and the multiplier in [0, 1], that value is an integer
    (no exception is raised). *)
Theorem generate_revenue_reference `{RandomSource} (f : float) (q y : Z)
    (seed_arg : option Z) (g g1 g2 : rng) (base noise : float) :
  In q [1; 2; 3; 4] ->
  In y [2024; 2025] ->
  rng_uniform (PyFloat.of_int BASE_REVENUE_MIN) (PyFloat.of_int BASE_REVENUE_MAX)
    (start_state seed_arg g) = (base, g1) ->
  rng_uniform (PyFloat.of_int 1 - NOISE_RANGE) (PyFloat.of_int 1 + NOISE_RANGE) g1
    = (noise, g2) ->
  generate_revenue f q y seed_arg g = (reference_revenue base f q y noise, g2) /\
  (uniform_in_range (PyFloat.of_int BASE_REVENUE_MIN) (PyFloat.of_int BASE_REVENUE_MAX) base
     = true ->
   uniform_in_range (PyFloat.of_int 1 - NOISE_RANGE) (PyFloat.of_int 1 + NOISE_RANGE) noise
     = true ->
   uniform_in_range 0 1 f = true ->
   exists n, reference_revenue base f q y noise = Ok (n * 1000000)).
Proof.
  intros Hq Hy Hb Hn. split.
  - exact (generate_revenue_steps f q y seed_arg g g1 g2 base noise _ _
             (quarter_lookup q Hq) (year_lookup y Hy) Hb Hn).
  - intros Rb Rn Rf.
    destruct (rounded_revenue base f (seasonal_factor q) (growth_factor y) noise
                contract_range quarter_range year_range
                (base_inside base Rb) (contract_inside f Rf)
                (seasonal_factor_inside q Hq) (growth_factor_inside y Hy)
                (noise_inside noise Rn) contract_checks) as (n & Hr & _).
    exists n. unfold reference_revenue. rewrite Hr. reflexivity.
Qed.

Lemma generate_revenue_reference_witness :
  generate_revenue (H := Alternating) 0.85 2 2025 None 0 =
    (reference_revenue (PyFloat.of_int BASE_REVENUE_MIN) 0.85 2 2025
       (PyFloat.of_int 1 + NOISE_RANGE), 2).
Proof.
  apply (generate_revenue_reference (H := Alternating) 0.85 2 2025 None 0 1 2
           (PyFloat.of_int BASE_REVENUE_MIN) (PyFloat.of_int 1 + NOISE_RANGE)).
  - simpl. auto.
  - simpl. auto.
  - reflexivity.
  - reflexivity.
Defined.

Lemma revenue_bounds_exact :
  (revenue_lower_bound == 5832000000)%Q /\ (revenue_upper_bound == 27324000000)%Q.
Proof. split; reflexivity. Qed.

(** C2.  For each of the three branch multipliers, quarter in 1..4, year in
    2024..2025 and every pair of draws within their ranges,
    [generate_revenue] returns an integer multiple of 1,000,000 that lies
    between [12e9 * 0.6 * 0.90 * 1.0 * 0.90] and
    [20e9 * 1.0 * 1.15 * 1.08 * 1.10], both ends included. *)
Theorem generate_revenue_bounds `{RandomSource} (f : float) (q y : Z)
    (seed_arg : option Z) (g g1 g2 : rng) (base noise : float) :
  In f (map (fun b => multiplier (snd b)) BRANCHES) ->
  In q [1; 2; 3; 4] ->
  In y [2024; 2025] ->
  rng_uniform (PyFloat.of_int BASE_REVENUE_MIN) (PyFloat.of_int BASE_REVENUE_MAX)
    (start_state seed_arg g) = (base, g1) ->
  rng_uniform (PyFloat.of_int 1 - NOISE_RANGE) (PyFloat.of_int 1 + NOISE_RANGE) g1
    = (noise, g2) ->
  uniform_in_range (PyFloat.of_int BASE_REVENUE_MIN) (PyFloat.of_int BASE_REVENUE_MAX) base
    = true ->
  uniform_in_range (PyFloat.of_int 1 - NOISE_RANGE) (PyFloat.of_int 1 + NOISE_RANGE) noise
    = true ->
  exists r,
    generate_revenue f q y seed_arg g = (Ok r, g2) /\
    (1000000 | r) /\
    (revenue_lower_bound <= inject_Z r <= revenue_upper_bound)%Q.
Proof.
  intros Hf Hq Hy Hb Hn Rb Rn.
  destruct (branch_revenue_ok base f noise q y Hf Hq Hy Rb Rn) as (n & Hr & Hlo & Hhi).
  exists (n * 1000000). split; [|split].
  - rewrite (generate_revenue_steps f q y seed_arg g g1 g2 base noise _ _
               (quarter_lookup q Hq) (year_lookup y Hy) Hb Hn).
    rewrite Hr. reflexivity.
  - exists n. reflexivity.
  - destruct revenue_bounds_exact as [-> ->].
    change 5832000000%Q with (inject_Z 5832000000).
    change 27324000000%Q with (inject_Z 27324000000).
    rewrite <- !Zle_Qle. lia.
Qed.

Lemma generate_revenue_bounds_witness :
  exists r,
    generate_revenue (H := Alternating) 0.6 1 2024 None 0 = (Ok r, 2) /\
    (1000000 | r) /\
    (revenue_lower_bound <= inject_Z r <= revenue_upper_bound)%Q.
Proof.
  apply (generate_revenue_bounds (H := Alternating) 0.6 1 2024 None 0 1 2
           (PyFloat.of_int BASE_REVENUE_MIN) (PyFloat.of_int 1 + NOISE_RANGE)).
  - simpl. auto.
  - simpl. auto.
  - simpl. auto.
  - reflexivity.
  - reflexivity.
  - vm_compute. reflexivity.
  - vm_compute. reflexivity.
Defined.

(** C4 as stated fails: a multiplier in [0, 1], a quarter in 1..4 and the
    integer year 2026 make [generate_revenue] raise [KeyError]. *)
Lemma generate_revenue_unknown_year :
  uniform_in_range 0 1 1.0 = true /\
  In 1 [1; 2; 3; 4] /\
  fst (generate_revenue (H := Alternating) 1.0 1 2026 None 0) = Raise (KeyError 2026).
Proof. repeat split; simpl; auto. Qed.

(** C4, amended.  For a multiplier in [0, 1], a quarter in 1..4, a year
    among the keys 2024 and 2025 of [YEAR_MULTIPLIERS], any optional seed and
    any generator state whose two draws lie in their ranges,
    [generate_revenue] returns without raising. *)
Theorem generate_revenue_completes `{RandomSource} (f : float) (q y : Z)
    (seed_arg : option Z) (g g1 g2 : rng) (base noise : float) :
  uniform_in_range 0 1 f = true ->
  In q [1; 2; 3; 4] ->
  In y [2024; 2025] ->
  rng_uniform (PyFloat.of_int BASE_REVENUE_MIN) (PyFloat.of_int BASE_REVENUE_MAX)
    (start_state seed_arg g) = (base, g1) ->
  rng_uniform (PyFloat.of_int 1 - NOISE_RANGE) (PyFloat.of_int 1 + NOISE_RANGE) g1
    = (noise, g2) ->
  uniform_in_range (PyFloat.of_int BASE_REVENUE_MIN) (PyFloat.of_int BASE_REVENUE_MAX) base
    = true ->
  uniform_in_range (PyFloat.of_int 1 - NOISE_RANGE) (PyFloat.of_int 1 + NOISE_RANGE) noise
    = true ->
  exists r, generate_revenue f q y seed_arg g = (Ok r, g2).
Proof.
  intros Rf Hq Hy Hb Hn Rb Rn.
  destruct (rounded_revenue base f (seasonal_factor q) (growth_factor y) noise
              contract_range quarter_range year_range
              (base_inside base Rb) (contract_inside f Rf)
              (seasonal_factor_inside q Hq) (growth_factor_inside y Hy)
              (noise_inside noise Rn) contract_checks) as (n & Hr & _).
  exists (n * 1000000).
  rewrite (generate_revenue_steps f q y seed_arg g g1 g2 base noise _ _
             (quarter_lookup q Hq) (year_lookup y Hy) Hb Hn).
  rewrite Hr. reflexivity.
Qed.

Lemma generate_revenue_completes_witness :
  exists r, generate_revenue (H := Alternating) 0.5 3 2025 (Some 7) 0 = (Ok r, 9).
Proof.
  apply (generate_revenue_completes (H := Alternating) 0.5 3 2025 (Some 7) 0 8 9
           (PyFloat.of_int BASE_REVENUE_MAX) (PyFloat.of_int 1 - NOISE_RANGE)).
  - vm_compute. reflexivity.
  - simpl. auto.
  - simpl. auto.
  - reflexivity.
  - reflexivity.
  - vm_compute. reflexivity.
  - vm_compute. reflexivity.
Defined.

(** C8.  A call with seed [s] reseeds the generator before the base draw: it
    behaves as an unseeded call made from the state [rng_seed s], so two such
    calls agree on result and final state whatever the states they start
    from.  Unseeded calls depend on the state they start from: there is a
    random source and two states on which they differ. *)
Theorem seeded_calls_agree :
  (forall (RS : RandomSource) (f : float) (q y s : Z) (g g' : rng),
      generate_revenue f q y (Some s) g = generate_revenue f q y None (rng_seed s) /\
      generate_revenue f q y (Some s) g = generate_revenue f q y (Some s) g') /\
  (exists (RS : RandomSource) (f : float) (q y : Z) (g g' : rng),
      fst (generate_revenue f q y None g) <> fst (generate_revenue f q y None g')).
Proof.
  split.
  - intros RS f q y s g g'. split; reflexivity.
  - exists Alternating, 1.0%float, 1, 2024, 0, 1. vm_compute. discriminate.
Qed.

(** C10.  With a multiplier equal to zero, quarter in 1..4, year in
    2024..2025 and any pair of draws within their ranges, [generate_revenue]
    returns exactly 0. *)
Theorem generate_revenue_zero_multiplier `{RandomSource} (f : float) (q y : Z)
    (seed_arg : option Z) (g g1 g2 : rng) (base noise : float) :
  (f =? 0)%float = true ->
  In q [1; 2; 3; 4] ->
  In y [2024; 2025] ->
  rng_uniform (PyFloat.of_int BASE_REVENUE_MIN) (PyFloat.of_int BASE_REVENUE_MAX)
    (start_state seed_arg g) = (base, g1) ->
  rng_uniform (PyFloat.of_int 1 - NOISE_RANGE) (PyFloat.of_int 1 + NOISE_RANGE) g1
    = (noise, g2) ->
  uniform_in_range (PyFloat.of_int BASE_REVENUE_MIN) (PyFloat.of_int BASE_REVENUE_MAX) base
    = true ->
  uniform_in_range (PyFloat.of_int 1 - NOISE_RANGE) (PyFloat.of_int 1 + NOISE_RANGE) noise
    = true ->
  generate_revenue f q y seed_arg g = (Ok 0, g2).
Proof.
  intros Hf Hq Hy Hb Hn Rb Rn.
  rewrite (generate_revenue_steps f q y seed_arg g g1 g2 base noise _ _
             (quarter_lookup q Hq) (year_lookup y Hy) Hb Hn).
  assert (Z1 : zero_float (base * f)).
  { apply mul_zero_r; [exact (inside_fin _ _ (base_inside base Rb))|apply eqb_zero, Hf]. }
  assert (Z2 : zero_float (base * f * seasonal_factor q)).
  { apply mul_zero_l; [assumption|exact (inside_fin _ _ (seasonal_factor_inside q Hq))]. }
  assert (Z3 : zero_float (base * f * seasonal_factor q * growth_factor y)).
  { apply mul_zero_l; [assumption|exact (inside_fin _ _ (growth_factor_inside y Hy))]. }
  assert (Z4 : zero_float (base * f * seasonal_factor q * growth_factor y * noise)).
  { apply mul_zero_l; [assumption|exact (inside_fin _ _ (noise_inside noise Rn))]. }
  rewrite (round_zero _ (div_zero_l _ _ Z4 million_fin million_pos)).
  reflexivity.
Qed.

Lemma generate_revenue_zero_multiplier_witness :
  generate_revenue (H := Alternating) 0 4 2025 None 1 = (Ok 0, 3).
Proof.
  apply (generate_revenue_zero_multiplier (H := Alternating) 0 4 2025 None 1 2 3
           (PyFloat.of_int BASE_REVENUE_MAX) (PyFloat.of_int 1 - NOISE_RANGE)).
  - vm_compute. reflexivity.
  - simpl. auto.
  - simpl. auto.
  - reflexivity.
  - reflexivity.
  - vm_compute. reflexivity.
  - vm_compute. reflexivity.
Defined.

(** ** Calendar helpers *)

Lemma month_cases (m : Z) :
  1 <= m <= 12 ->
  m = 1 \/ m = 2 \/ m = 3 \/ m = 4 \/ m = 5 \/ m = 6 \/
  m = 7 \/ m = 8 \/ m = 9 \/ m = 10 \/ m = 11 \/ m = 12.
Proof. lia. Qed.

Lemma leap_rules_agree (y : Z) :
  Calendar.isleap y = gregorian_leap_year y /\ Datetime.is_leap y = gregorian_leap_year y.
Proof.
  unfold Calendar.isleap, Datetime.is_leap, gregorian_leap_year.
  destruct (Z.eqb_spec (y mod 400) 0) as [H400|H400];
  destruct (Z.eqb_spec (y mod 100) 0) as [H100|H100];
  destruct (Z.eqb_spec (y mod 4) 0) as [H4|H4]; split; try reflexivity; exfalso;
    Z.div_mod_to_equations; lia.
Qed.

(** For every year a [date] can hold, the month ends on its Gregorian
    last day. *)
Lemma get_last_day_of_month_gregorian (y m : Z) :
  1 <= y <= 9999 -> 1 <= m <= 12 ->
  get_last_day_of_month y m =
    Ok {| year := y; month := m; day := gregorian_month_length y m |} /\
  Datetime.valid_date y m (gregorian_month_length y m) = true /\
  Datetime.valid_date y m (gregorian_month_length y m + 1) = false.
Proof.
  intros Hy Hm.
  destruct (leap_rules_agree y) as [E1 E2].
  unfold get_last_day_of_month, Calendar.monthrange, Datetime.make_date,
    Datetime.valid_date, Datetime.days_in_month, bind_result.
  rewrite E1, E2.
  assert (Hy1 : (1 <=? y) = true) by (apply Z.leb_le; lia).
  assert (Hy2 : (y <=? 9999) = true) by (apply Z.leb_le; lia).
  rewrite Hy1, Hy2.
  destruct (month_cases m Hm) as [->|[->|[->|[->|[->|[->|[->|[->|[->|[->|[->| ->]]]]]]]]]]];
    cbn; destruct (gregorian_leap_year y); cbn; auto.
Qed.

(** C5.  For year 2024 or 2025 and month 1..12, [get_last_day_of_month]
    returns the date of that year and month whose day is the Gregorian length
    of the month: it is a valid date and the day after it is not.  February
    2024 ends on the 29th, February 2025 on the 28th. *)
Theorem get_last_day_of_month_last_day (y m : Z) :
  In y [2024; 2025] ->
  1 <= m <= 12 ->
  (exists d,
      get_last_day_of_month y m = Ok {| year := y; month := m; day := d |} /\
      d = gregorian_month_length y m /\
      Datetime.valid_date y m d = true /\
      Datetime.valid_date y m (d + 1) = false) /\
  get_last_day_of_month 2024 2 = Ok {| year := 2024; month := 2; day := 29 |} /\
  get_last_day_of_month 2025 2 = Ok {| year := 2025; month := 2; day := 28 |}.
Proof.
  intros Hy Hm. split; [|split; reflexivity].
  assert (Hy' : 1 <= y <= 9999) by (destruct Hy as [<-|[<-|[]]]; lia).
  destruct (get_last_day_of_month_gregorian y m Hy' Hm) as (E & V1 & V2).
  exists (gregorian_month_length y m). auto.
Qed.

Lemma get_last_day_of_month_last_day_witness :
  get_last_day_of_month 2024 2 = Ok {| year := 2024; month := 2; day := 29 |}.
Proof.
  apply (get_last_day_of_month_last_day 2024 2).
  - simpl. auto.
  - lia.
Defined.

(** C6.  For month 1..12, [get_quarter] is [(m - 1) // 3 + 1]; it sends
    months 1-3 to 1, 4-6 to 2, 7-9 to 3 and 10-12 to 4, and in particular
    1, 3, 4, 6, 7, 9, 10, 12 to 1, 1, 2, 2, 3, 3, 4, 4. *)
Theorem get_quarter_of_month (m : Z) :
  1 <= m <= 12 ->
  get_quarter m = (m - 1) / 3 + 1 /\
  get_quarter m = quarter_of_month m /\
  map get_quarter [1; 3; 4; 6; 7; 9; 10; 12] = [1; 1; 2; 2; 3; 3; 4; 4].
Proof.
  intros Hm. split; [reflexivity|]. split; [|reflexivity].
  destruct (month_cases m Hm) as [->|[->|[->|[->|[->|[->|[->|[->|[->|[->|[->| ->]]]]]]]]]]];
    reflexivity.
Qed.

Lemma get_quarter_of_month_witness :
  get_quarter 8 = quarter_of_month 8.
Proof.
  apply (get_quarter_of_month 8). lia.
Defined.

(** ** Dataset assembly *)

Section Assembly.
Context `{RandomSource}.
Hypothesis contract : uniform_contract.

Lemma returns_bind {A B : Type} (c : Gen A) (k : A -> Gen B)
    (P : A -> Prop) (Q : B -> Prop) :
  returns c P -> (forall a, P a -> returns (k a) Q) -> returns (gen_bind c k) Q.
Proof.
  intros Hc Hk g. destruct (Hc g) as (a & g' & E & Pa).
  destruct (Hk a Pa g') as (b & g'' & E' & Qb).
  exists b, g''. unfold gen_bind. rewrite E. auto.
Qed.

Lemma returns_ret {A : Type} (a : A) (P : A -> Prop) : P a -> returns (gen_ret a) P.
Proof. intros Pa g. exists a, g. auto. Qed.

Lemma returns_lift {A : Type} (a : A) (P : A -> Prop) : P a -> returns (gen_lift (Ok a)) P.
Proof. intros Pa g. exists a, g. auto. Qed.

Lemma base_ends_ordered :
  (PyFloat.of_int BASE_REVENUE_MIN <=? PyFloat.of_int BASE_REVENUE_MAX)%float = true.
Proof. reflexivity. Qed.

Lemma noise_ends_ordered :
  (PyFloat.of_int 1 - NOISE_RANGE <=? PyFloat.of_int 1 + NOISE_RANGE)%float = true.
Proof. reflexivity. Qed.

Lemma generate_revenue_returns (f : float) (q y : Z) :
  In f (map (fun b => multiplier (snd b)) BRANCHES) ->
  In q [1; 2; 3; 4] -> In y [2024; 2025] ->
  returns (generate_revenue f q y None) revenue_ok.
Proof.
  intros Hf Hq Hy g.
  destruct (rng_uniform (PyFloat.of_int BASE_REVENUE_MIN) (PyFloat.of_int BASE_REVENUE_MAX) g)
    as [base g1] eqn:Hb.
  destruct (rng_uniform (PyFloat.of_int 1 - NOISE_RANGE) (PyFloat.of_int 1 + NOISE_RANGE) g1)
    as [noise g2] eqn:Hn.
  pose proof (contract (PyFloat.of_int BASE_REVENUE_MIN) (PyFloat.of_int BASE_REVENUE_MAX)
                g base_ends_ordered) as Rb.
  pose proof (contract (PyFloat.of_int 1 - NOISE_RANGE)%float
                (PyFloat.of_int 1 + NOISE_RANGE)%float g1 noise_ends_ordered) as Rn.
  rewrite Hb in Rb. rewrite Hn in Rn. cbn [fst] in Rb, Rn.
  destruct (branch_revenue_ok base f noise q y Hf Hq Hy Rb Rn) as (n & Hr & Hlo & Hhi).
  exists (n * 1000000), g2. split.
  - rewrite (generate_revenue_steps f q y None g g1 g2 base noise _ _
               (quarter_lookup q Hq) (year_lookup y Hy) Hb Hn).
    rewrite Hr. reflexivity.
  - split; [exists n; reflexivity|lia].
Qed.

Lemma for_each_appends {X : Type} (xs : list X)
    (body : X -> list revenue_record -> Gen (list revenue_record))
    (K : X -> list (string * string * date)) :
  (forall x acc, In x xs -> returns (body x acc) (appends (K x) acc)) ->
  forall acc, returns (for_each xs body acc) (appends (flat_map K xs) acc).
Proof.
  induction xs as [|x xs IH]; intros Hbody acc; cbn [for_each flat_map].
  - apply returns_ret. exists []. rewrite app_nil_r. auto.
  - apply returns_bind with (P := appends (K x) acc).
    + apply Hbody. left. reflexivity.
    + intros acc1 (l1 & -> & K1 & F1).
      intros g. destruct (IH (fun x' a Hin => Hbody x' a (or_intror Hin)) (acc ++ l1) g)
        as (acc2 & g' & E & l2 & -> & K2 & F2).
      exists ((acc ++ l1) ++ l2), g'. split; [assumption|].
      exists (l1 ++ l2). rewrite app_assoc, map_app, K1, K2.
      split; [reflexivity|]. split; [reflexivity|]. apply Forall_app. auto.
Qed.

Lemma range_months (m : Z) : In m (range 1 13) -> 1 <= m <= 12.
Proof. cbv [range Z.to_nat Z.sub Z.add Z.opp Z.pos_sub Pos.to_nat Pos.iter_op Nat.add seq map Z.of_nat]. simpl. intuition lia. Qed.

Lemma get_quarter_range (m : Z) : 1 <= m <= 12 -> In (get_quarter m) [1; 2; 3; 4].
Proof.
  intros Hm.
  destruct (month_cases m Hm) as [->|[->|[->|[->|[->|[->|[->|[->|[->|[->|[->| ->]]]]]]]]]]];
    simpl; auto.
Qed.

Lemma month_appends (y m : Z) (acc : list revenue_record) :
  In y [2024; 2025] -> In m (range 1 13) ->
  returns
    (gen_bind (gen_lift (get_last_day_of_month y m)) (fun rd =>
       for_each BRANCHES (fun '(code, info) records =>
         gen_bind (generate_revenue (multiplier info) (get_quarter m) y None) (fun revenue =>
           gen_ret (records ++ [ {| branch_code := code;
                                    branch_name := name info;
                                    report_date := rd;
                                    revenue_vnd := revenue |} ])))
         acc))
    (appends (month_keys y m) acc).
Proof.
  intros Hy Hm. apply range_months in Hm.
  assert (Hy' : 1 <= y <= 9999) by (destruct Hy as [<-|[<-|[]]]; lia).
  destruct (get_last_day_of_month_gregorian y m Hy' Hm) as (-> & _).
  apply returns_bind with
    (P := fun rd => rd = {| year := y; month := m; day := gregorian_month_length y m |});
    [apply returns_lift; reflexivity|].
  intros rd ->.
  change (month_keys y m) with
    (flat_map (fun b : string * branch_info =>
                 [(fst b, name (snd b),
                   {| year := y; month := m; day := gregorian_month_length y m |})])
              BRANCHES).
  apply for_each_appends.
  intros [code info] acc' Hin.
  apply returns_bind with (P := revenue_ok).
  - apply generate_revenue_returns; [|apply get_quarter_range; assumption|assumption].
    apply (in_map (fun b => multiplier (snd b)) _ _ Hin).
  - intros revenue Hrev. apply returns_ret.
    eexists. split; [reflexivity|]. split; [reflexivity|].
    constructor; [exact Hrev|constructor].
Qed.

Lemma build_records_returns :
  returns build_records (appends expected_keys []).
Proof.
  unfold build_records, expected_keys.
  apply for_each_appends. intros y acc Hy.
  apply for_each_appends. intros m acc' Hm.
  apply month_appends; assumption.
Qed.

End Assembly.

Lemma SFleb_refl (x y : spec_float) : SFleb x y = true -> SFleb x x = true /\ SFleb y y = true.
Proof.
  assert (R : forall z, z <> S754_nan -> SFleb z z = true).
  { intros [s|[]| |[] m e] Hz; cbv [SFleb SFcompare]; try reflexivity; try congruence;
      rewrite Z.compare_refl;
      change (Pos.compare_cont Eq m m) with (Pos.compare m m);
      rewrite Pos.compare_refl; reflexivity. }
  intros H. split; apply R; intros ->.
  - discriminate H.
  - destruct x as [s|[]| |[] m e]; discriminate H.
Qed.

Lemma Alternating_contract : uniform_contract (H := Alternating).
Proof.
  intros a b g Hab. unfold uniform_in_range. cbn [rng_uniform Alternating fst].
  pose proof Hab as Hab'. rewrite leb_spec in Hab'.
  destruct (SFleb_refl _ _ Hab') as [Ra Rb]. rewrite <- leb_spec in Ra, Rb.
  destruct (Z.even g); [rewrite Ra, Hab|rewrite Hab, Rb]; reflexivity.
Qed.

Lemma unique_key_eqb_refl (k : string * date) : unique_key_eqb k k = true.
Proof.
  unfold unique_key_eqb, date_eqb. rewrite String.eqb_refl, !Z.eqb_refl. reflexivity.
Qed.

Lemma nodupb_sound (l : list (string * date)) : nodupb l = true -> NoDup l.
Proof.
  induction l as [|k l IH]; cbn [nodupb]; intros Hl; constructor.
  - apply andb_prop in Hl as [Hk _]. intros Hin.
    assert (E : existsb (unique_key_eqb k) l = true).
    { apply existsb_exists. exists k. split; [assumption|apply unique_key_eqb_refl]. }
    rewrite E in Hk. discriminate.
  - apply IH. apply andb_prop in Hl as [_ Hl]. exact Hl.
Qed.

Lemma unique_key_of_record_key (l : list revenue_record) :
  map unique_key l = map (fun k => (fst (fst k), snd k)) (map record_key l).
Proof. rewrite map_map. reflexivity. Qed.

Lemma expected_keys_length : List.length expected_keys = 72%nat.
Proof. reflexivity. Qed.

Lemma expected_keys_unique :
  NoDup (map (fun k : string * string * date => (fst (fst k), snd k)) expected_keys).
Proof. apply nodupb_sound. vm_compute. reflexivity. Qed.

Lemma seed_data_steps `{RandomSource} (script : db_script) (w : world)
    (records : list revenue_record) (g' : rng) :
  build_records (w_rng w) = (Ok records, g') ->
  on_executemany script records = None ->
  fst (seed_data script w) = Ok records.
Proof.
  intros Hb He. unfold seed_data, io_bind, io_gen, db, print, io_ret.
  rewrite Hb, He. reflexivity.
Qed.

(** C3.  Whatever the draws, as long as they respect the contract of
    [random.uniform], the dataset [seed_data] builds has exactly 72 records,
    no two of them with the same branch code and report date; it is what
    [seed_data] returns once the bulk insert has succeeded. *)
Theorem seed_data_72_unique `{RandomSource} (script : db_script) (w : world) :
  uniform_contract ->
  exists records g',
    build_records (w_rng w) = (Ok records, g') /\
    List.length records = 72%nat /\
    NoDup (map unique_key records) /\
    (on_executemany script records = None -> fst (seed_data script w) = Ok records).
Proof.
  intros contract.
  destruct (build_records_returns contract (w_rng w)) as (records & g' & E & l & -> & K & _).
  exists ([] ++ l), g'. cbn [app] in *.
  split; [assumption|]. split; [|split].
  - rewrite <- (length_map record_key), K. apply expected_keys_length.
  - rewrite unique_key_of_record_key, K. apply expected_keys_unique.
  - intros He. apply (seed_data_steps script w l g' E He).
Qed.

Lemma seed_data_72_unique_witness :
  exists records g',
    build_records (H := Alternating) 0 = (Ok records, g') /\
    List.length records = 72%nat /\
    NoDup (map unique_key records) /\
    (on_executemany healthy_db records = None ->
     fst (seed_data healthy_db (initial_world 0)) = Ok records).
Proof.
  apply (seed_data_72_unique (H := Alternating) healthy_db (initial_world 0)).
  exact Alternating_contract.
Defined.

(** C7.  The records come in the order of the nested loops: years 2024 then
    2025, months 1 to 12 within a year, branches HCM, HN, DN within a month.
    The first three are the three branches at 2024-01-31, the last three the
    three branches at 2025-12-31, and these six are the sample that
    [print_sample_data] prints. *)
Theorem seed_data_order `{RandomSource} (g : rng) :
  uniform_contract ->
  exists records g',
    build_records g = (Ok records, g') /\
    map record_key records = expected_keys /\
    map record_key (firstn 3 records) = month_keys 2024 1 /\
    map record_key (skipn (List.length records - 3) records) = month_keys 2025 12 /\
    map record_key (sample records) = month_keys 2024 1 ++ month_keys 2025 12 /\
    month_keys 2024 1 =
      [ ("HCM"%string, "Ho Chi Minh"%string, {| year := 2024; month := 1; day := 31 |});
        ("HN"%string, "Ha Noi"%string, {| year := 2024; month := 1; day := 31 |});
        ("DN"%string, "Da Nang"%string, {| year := 2024; month := 1; day := 31 |}) ] /\
    month_keys 2025 12 =
      [ ("HCM"%string, "Ho Chi Minh"%string, {| year := 2025; month := 12; day := 31 |});
        ("HN"%string, "Ha Noi"%string, {| year := 2025; month := 12; day := 31 |});
        ("DN"%string, "Da Nang"%string, {| year := 2025; month := 12; day := 31 |}) ].
Proof.
  intros contract.
  destruct (build_records_returns contract g) as (records & g' & E & l & -> & K & _).
  exists ([] ++ l), g'. cbn [app] in *.
  assert (Hlen : List.length l = 72%nat).
  { rewrite <- (length_map record_key), K. apply expected_keys_length. }
  assert (H1 : map record_key (firstn 3 l) = month_keys 2024 1).
  { rewrite <- firstn_map, K. reflexivity. }
  assert (H2 : map record_key (skipn (List.length l - 3) l) = month_keys 2025 12).
  { rewrite <- skipn_map, K, Hlen. reflexivity. }
  repeat split; try assumption.
  unfold sample. rewrite map_app, H1, H2. reflexivity.
Qed.

Lemma seed_data_order_witness :
  exists records g',
    build_records (H := Alternating) 5 = (Ok records, g') /\
    map record_key records = expected_keys.
Proof.
  destruct (seed_data_order (H := Alternating) 5 Alternating_contract)
    as (records & g' & E & K & _).
  exists records, g'. split; assumption.
Defined.

(** ** The main program *)

Lemma io_iter_print_rows `{RandomSource} (rows : list revenue_record) (w : world) :
  io_iter rows (fun r => print (MsgSampleRow r)) w =
    (Ok tt, {| w_rng := w_rng w;
               w_console := w_console w ++ map MsgSampleRow rows;
               w_calls := w_calls w |}).
Proof.
  revert w. induction rows as [|r rows IH]; intros w; cbn [io_iter map].
  - unfold io_ret. rewrite app_nil_r. destruct w; reflexivity.
  - unfold io_bind, print. rewrite IH. cbn [w_rng w_console w_calls].
    rewrite <- app_assoc. reflexivity.
Qed.

Lemma io_iter_rows `{RandomSource} (rows : list revenue_record) (w : world) :
  io_iter rows
    (fun (r : revenue_record) (w0 : world) =>
       (Ok tt, {| w_rng := w_rng w0;
                  w_console := w_console w0 ++ [MsgSampleRow r];
                  w_calls := w_calls w0 |})) w =
    (Ok tt, {| w_rng := w_rng w;
               w_console := w_console w ++ map MsgSampleRow rows;
               w_calls := w_calls w |}).
Proof. exact (io_iter_print_rows rows w). Qed.

Lemma filter_marker_rows (rows : list revenue_record) :
  filter is_marker (map MsgSampleRow rows) = [].
Proof. induction rows as [|r rows IH]; cbn; auto. Qed.

Lemma fold_left_add (l : list Z) (a : Z) : fold_left Z.add l a = a + fold_left Z.add l 0.
Proof.
  revert a. induction l as [|x l IH]; intros a; cbn [fold_left]; [lia|].
  rewrite (IH (a + x)), (IH (0 + x)). lia.
Qed.

Lemma total_of_year_nonneg (y : Z) (l : list revenue_record) :
  Forall (fun r => revenue_ok (revenue_vnd r)) l -> 0 <= total_of_year y l.
Proof.
  unfold total_of_year. induction 1 as [|r l [_ Hr] _ IH]; cbn [filter map fold_left]; [lia|].
  destruct (year (report_date r) =? y); [|exact IH].
  cbn [map fold_left]. rewrite fold_left_add. lia.
Qed.

Lemma total_2024_positive (l : list revenue_record) :
  map record_key l = expected_keys ->
  Forall (fun r => revenue_ok (revenue_vnd r)) l ->
  0 < total_of_year 2024 l.
Proof.
  intros K F. destruct l as [|r l]; [discriminate K|].
  inversion F as [|? ? [_ Hr] F']; subst.
  pose proof (total_of_year_nonneg 2024 l F') as Hl.
  assert (Hy : year (report_date r) = 2024).
  { apply (f_equal (fun ks => match ks with
                                | k :: _ => year (snd k)
                                | [] => 0
                                end)) in K.
    exact K. }
  unfold total_of_year in *. cbn [filter]. rewrite Hy. cbn [Z.eqb Pos.eqb map fold_left].
  rewrite fold_left_add. lia.
Qed.

Ltac step := cbn beta iota zeta delta [w_rng w_console w_calls fst snd].

Ltac leaf :=
  eexists; eexists;
  split; [repeat rewrite <- app_assoc; cbn [app]; reflexivity|];
  split; [repeat rewrite <- app_assoc; cbn [app]; reflexivity|];
  split; [cbn [filter is_marker];
          try (rewrite filter_app, filter_marker_rows; cbn [filter is_marker app]);
          reflexivity|];
  split; [cbn [is_prefix all_calls]; repeat split|];
  split; [try (intros u Hu; discriminate Hu)|try reflexivity].

Lemma main_body_run `{RandomSource} (script : db_script) (w : world)
    (records : list revenue_record) (g' : rng) :
  build_records (w_rng w) = (Ok records, g') ->
  List.length records = 72%nat ->
  0 < total_of_year 2024 records ->
  exists out calls,
    w_console (snd (main_body script w)) = w_console w ++ out /\
    w_calls (snd (main_body script w)) = w_calls w ++ calls /\
    filter is_marker out = [] /\
    is_prefix calls all_calls /\
    (forall u, fst (main_body script w) = Ok u ->
               (exists pre, out = pre ++ [MsgDone]) /\ calls = all_calls) /\
    fst (main_body script w) =
      match scripted_failure script records with
      | Some e => Raise e
      | None => Ok tt
      end.
Proof.
  intros E Hlen Htot.
  unfold scripted_failure, main_body, create_table, seed_data, print_sample_data.
  unfold io_bind, print, db, io_gen, io_ret, io_raise.
  destruct (on_connect script) as [e|]; step; [leaf|].
  destruct (on_cursor script) as [e|]; step; [leaf|].
  destruct (on_execute script) as [e|]; step; [leaf|].
  rewrite E, Hlen; step.
  destruct (on_executemany script records) as [e|]; step; [leaf|].
  destruct (on_commit script) as [e|]; step; [leaf|].
  rewrite io_iter_rows; step.
  destruct (Z.eqb_spec (total_of_year 2024 records) 0) as [Hz|_]; [lia|]; step.
  destruct (on_cursor_close script) as [e|]; step; [leaf|].
  destruct (on_conn_close script) as [e|]; step; [leaf|].
  leaf.
  intros u _. split; [|reflexivity].
  eexists (_ :: _ :: _ :: _ :: _ :: _ :: _ ++ [_]).
  cbn [app]. rewrite <- app_assoc. reflexivity.
Qed.

(** The database marker is printed for database errors and for them only. *)
Lemma error_marker_database (e : exn) :
  error_marker e = MsgDatabaseError e <-> is_psycopg2_error e = true.
Proof.
  unfold error_marker. destruct (is_psycopg2_error e); split; intros E;
    try reflexivity; discriminate E.
Qed.

Lemma main_unfold `{RandomSource} (script : db_script) (w : world) :
  main script w =
    let (r, w') := main_body script (snd (print MsgStart w)) in
    match r with
    | Ok u => (Ok u, w')
    | Raise e =>
        (Raise e, {| w_rng := w_rng w';
                     w_console := w_console w' ++ [error_marker e];
                     w_calls := w_calls w' |})
    end.
Proof.
  unfold main, io_bind, io_raise, error_marker. cbn [print snd].
  destruct (main_body script _) as [[[]|e] w']; [reflexivity|].
  destruct (is_psycopg2_error e); reflexivity.
Qed.

Lemma is_prefix_NoDup (l full : list db_call) :
  is_prefix l full -> NoDup full -> NoDup l.
Proof.
  revert full. induction l as [|c l IH]; intros full Hp Hn; [constructor|].
  destruct full as [|c' full]; [contradiction|]. destruct Hp as [<- Hp].
  inversion Hn as [|? ? Hnotin Hn']; subst.
  assert (Hin : forall l0 full0, is_prefix l0 full0 -> forall x, In x l0 -> In x full0).
  { clear. induction l0 as [|a l0 IH0]; intros full0 Hp x Hx; [contradiction|].
    destruct full0 as [|a' full0]; [contradiction|]. destruct Hp as [<- Hp].
    destruct Hx as [<-|Hx]; [left; reflexivity|right; eauto]. }
  constructor; [|eauto].
  intros Hc. apply Hnotin. eapply Hin; eassumption.
Qed.

Lemma all_calls_NoDup : NoDup all_calls.
Proof.
  unfold all_calls. repeat constructor; cbn [In]; intuition discriminate.
Qed.

(** C9.  [main] ends as its [try] block does: with the exception of the
    first database call that fails (connect, cursor, create table, bulk
    insert, commit, close), re-raised unchanged, or normally when none
    fails.  On an exception the handlers print one line, the last of the
    run: the database marker for a [psycopg2.Error], the general marker
    otherwise, and the exit status is not 0.  On success no marker is
    printed, the last line is the completion banner and the status is 0.
    The calls made are an initial part of the sequence of a complete run,
    none made twice. *)
Theorem main_reraises `{RandomSource} (script : db_script) (w : world) :
  uniform_contract ->
  exists records g' out calls,
    build_records (w_rng w) = (Ok records, g') /\
    fst (main script w) =
      match scripted_failure script records with
      | Some e => Raise e
      | None => Ok tt
      end /\
    fst (main script w) = fst (main_body script (snd (print MsgStart w))) /\
    w_console (snd (main script w)) = w_console w ++ MsgStart :: out /\
    w_calls (snd (main script w)) = w_calls w ++ calls /\
    is_prefix calls all_calls /\ NoDup calls /\
    match fst (main script w) with
    | Ok _ =>
        filter is_marker out = [] /\ last out MsgStart = MsgDone /\
        calls = all_calls /\ exit_status (fst (main script w)) = 0
    | Raise e =>
        filter is_marker out = [error_marker e] /\ last out MsgStart = error_marker e /\
        exit_status (fst (main script w)) <> 0
    end.
Proof.
  intros contract.
  destruct (build_records_returns contract (w_rng w)) as (records & g' & E & l & -> & K & F).
  cbn [app] in E.
  assert (Hlen : List.length l = 72%nat).
  { rewrite <- (length_map record_key), K. apply expected_keys_length. }
  pose proof (total_2024_positive l K F) as Htot.
  destruct (main_body_run script (snd (print MsgStart w)) l g' E Hlen Htot)
    as (out & calls & Hout & Hcalls & Hmark & Hpre & Hok & Hres).
  rewrite main_unfold.
  change (w_console (snd (print MsgStart w))) with (w_console w ++ [MsgStart]) in Hout.
  change (w_calls (snd (print MsgStart w))) with (w_calls w) in Hcalls.
  destruct (main_body script (snd (print MsgStart w))) as [[u|e] w'] eqn:Hbody;
    cbn [fst snd w_console w_calls] in *.
  - destruct (Hok u eq_refl) as [[pre ->] ->].
    exists l, g', (pre ++ [MsgDone]), all_calls.
    rewrite Hout, <- app_assoc. destruct u.
    repeat split; auto using all_calls_NoDup.
    apply last_last.
  - exists l, g', (out ++ [error_marker e]), calls.
    rewrite Hout, <- !app_assoc.
    repeat split; auto.
    + eapply is_prefix_NoDup; [eassumption|apply all_calls_NoDup].
    + rewrite filter_app, Hmark. cbn [filter app]. unfold error_marker.
      destruct (is_psycopg2_error e); reflexivity.
    + apply last_last.
    + cbn. discriminate.
Qed.

Lemma main_reraises_witness :
  fst (main commit_fails_db (initial_world 0)) = Raise (Psycopg2Error "connection lost").
Proof.
  destruct (main_reraises (H := Alternating) commit_fails_db (initial_world 0)
              Alternating_contract) as (records & g' & out & calls & _ & E & _).
  exact E.
Defined.

(** * Further properties of the code *)

(** ** Failures of the revenue generator *)

Lemma quarter_lookup_missing (q : Z) :
  ~ In q [1; 2; 3; 4] -> dict_get QUARTERLY_MULTIPLIERS q = Raise (KeyError q).
Proof.
  intros Hq. unfold QUARTERLY_MULTIPLIERS, dict_get.
  destruct (Z.eqb_spec q 1) as [->|]; [exfalso; apply Hq; simpl; auto|].
  destruct (Z.eqb_spec q 2) as [->|]; [exfalso; apply Hq; simpl; auto|].
  destruct (Z.eqb_spec q 3) as [->|]; [exfalso; apply Hq; simpl; auto|].
  destruct (Z.eqb_spec q 4) as [->|]; [exfalso; apply Hq; simpl; auto|].
  reflexivity.
Qed.

Lemma generate_revenue_base_draw `{RandomSource} (f : float) (q y : Z)
    (seed_arg : option Z) (g : rng) :
  generate_revenue f q y seed_arg g =
    let (base, g1) :=
      rng_uniform (PyFloat.of_int BASE_REVENUE_MIN) (PyFloat.of_int BASE_REVENUE_MAX)
        (start_state seed_arg g) in
    gen_bind (gen_lift (dict_get QUARTERLY_MULTIPLIERS q)) (fun qm =>
    gen_bind (gen_lift (dict_get YEAR_MULTIPLIERS y)) (fun ym =>
    gen_bind (uniform (PyFloat.of_int 1 - NOISE_RANGE) (PyFloat.of_int 1 + NOISE_RANGE))
      (fun noise =>
    gen_bind (gen_lift (PyFloat.round
                (base * f * qm * ym * noise / PyFloat.of_int 1000000)%float)) (fun n =>
    gen_ret (n * 1000000))))) g1.
Proof.
  unfold generate_revenue. unfold gen_bind at 1 2. unfold seed, gen_ret at 1, uniform at 1.
  destruct seed_arg as [s|]; cbn [start_state];
    destruct (rng_uniform _ _ _) as [base g1]; reflexivity.
Qed.

(** X1.  A quarter that is not a key of [QUARTERLY_MULTIPLIERS] makes
    [generate_revenue] raise [KeyError] with that quarter, whatever the
    multiplier, the year and the seed argument.  The base has been drawn by
    then and the noise has not: the generator is left in the state after
    one draw. *)
Theorem generate_revenue_unknown_quarter `{RandomSource} (f : float) (q y : Z)
    (seed_arg : option Z) (g : rng) :
  ~ In q [1; 2; 3; 4] ->
  generate_revenue f q y seed_arg g =
    (Raise (KeyError q),
     snd (rng_uniform (PyFloat.of_int BASE_REVENUE_MIN) (PyFloat.of_int BASE_REVENUE_MAX)
            (start_state seed_arg g))).
Proof.
  intros Hq. rewrite generate_revenue_base_draw.
  destruct (rng_uniform _ _ _) as [base g1]. cbn [snd].
  unfold gen_bind at 1, gen_lift at 1. rewrite (quarter_lookup_missing q Hq). reflexivity.
Qed.

Lemma generate_revenue_unknown_quarter_witness :
  generate_revenue (H := Alternating) 1.0 5 2030 None 0 = (Raise (KeyError 5), 1).
Proof.
  apply (generate_revenue_unknown_quarter (H := Alternating) 1.0 5 2030 None 0).
  simpl. intuition lia.
Defined.

(** X2.  With a quarter in 1..4, a year that is not a key of
    [YEAR_MULTIPLIERS] makes [generate_revenue] raise [KeyError] with that
    year, whatever the multiplier and the seed argument, and again between
    the base draw and the noise draw: one draw is consumed. *)
Theorem generate_revenue_missing_year `{RandomSource} (f : float) (q y : Z)
    (seed_arg : option Z) (g : rng) :
  In q [1; 2; 3; 4] ->
  ~ In y [2024; 2025] ->
  generate_revenue f q y seed_arg g =
    (Raise (KeyError y),
     snd (rng_uniform (PyFloat.of_int BASE_REVENUE_MIN) (PyFloat.of_int BASE_REVENUE_MAX)
            (start_state seed_arg g))).
Proof.
  intros Hq Hy. rewrite generate_revenue_base_draw.
  destruct (rng_uniform _ _ _) as [base g1]. cbn [snd].
  unfold gen_bind at 1, gen_lift at 1. rewrite (quarter_lookup q Hq).
  unfold gen_bind at 1, gen_lift at 1. rewrite (year_lookup_missing y Hy). reflexivity.
Qed.

Lemma generate_revenue_missing_year_witness :
  generate_revenue (H := Alternating) 0.85 3 2023 (Some 4) 9 = (Raise (KeyError 2023), 5).
Proof.
  apply (generate_revenue_missing_year (H := Alternating) 0.85 3 2023 (Some 4) 9).
  - simpl. auto.
  - simpl. intuition lia.
Defined.

Lemma is_nan_Prim2SF (f : float) : is_nan f = true -> Prim2SF f = S754_nan.
Proof. intros H. unfold Prim2SF. rewrite H. reflexivity. Qed.

Lemma mul_nan_r (x f : float) : Prim2SF f = S754_nan -> Prim2SF (x * f) = S754_nan.
Proof.
  intros H. rewrite mul_spec, H. unfold SF64mul. destruct (Prim2SF x); reflexivity.
Qed.

Lemma mul_nan_l (x y : float) : Prim2SF x = S754_nan -> Prim2SF (x * y) = S754_nan.
Proof. intros H. rewrite mul_spec, H. reflexivity. Qed.

Lemma div_nan_l (x y : float) : Prim2SF x = S754_nan -> Prim2SF (x / y) = S754_nan.
Proof. intros H. rewrite div_spec, H. reflexivity. Qed.

(** X3.  A NaN multiplier makes [generate_revenue] raise [ValueError] (from
    [round]), for every quarter in 1..4, year in 2024..2025 and pair of
    draws; both draws have been made by then. *)
Theorem generate_revenue_nan_multiplier `{RandomSource} (f : float) (q y : Z)
    (seed_arg : option Z) (g g1 g2 : rng) (base noise : float) :
  is_nan f = true ->
  In q [1; 2; 3; 4] ->
  In y [2024; 2025] ->
  rng_uniform (PyFloat.of_int BASE_REVENUE_MIN) (PyFloat.of_int BASE_REVENUE_MAX)
    (start_state seed_arg g) = (base, g1) ->
  rng_uniform (PyFloat.of_int 1 - NOISE_RANGE) (PyFloat.of_int 1 + NOISE_RANGE) g1
    = (noise, g2) ->
  generate_revenue f q y seed_arg g = (Raise ValueError, g2).
Proof.
  intros Hf Hq Hy Hb Hn.
  rewrite (generate_revenue_steps f q y seed_arg g g1 g2 base noise _ _
             (quarter_lookup q Hq) (year_lookup y Hy) Hb Hn).
  unfold PyFloat.round.
  rewrite (div_nan_l _ _ (mul_nan_l _ _ (mul_nan_l _ _ (mul_nan_l _ _
             (mul_nan_r base f (is_nan_Prim2SF f Hf)))))).
  reflexivity.
Qed.

Lemma generate_revenue_nan_multiplier_witness :
  generate_revenue (H := Alternating) nan 2 2024 None 0 = (Raise ValueError, 2).
Proof.
  apply (generate_revenue_nan_multiplier (H := Alternating) nan 2 2024 None 0 1 2
           (PyFloat.of_int BASE_REVENUE_MIN) (PyFloat.of_int 1 + NOISE_RANGE)).
  - reflexivity.
  - simpl. auto.
  - simpl. auto.
  - reflexivity.
  - reflexivity.
Defined.

Lemma inside_positive (x : float) (a : interval) :
  inside x a -> (0 < lower a)%Q -> positive_float x.
Proof.
  unfold inside, within, fin, fval, positive_float. intros [F [L _]] Hl.
  destruct (Prim2SF x) as [s|s| |[] m e]; try discriminate; cbn [SF2Q] in L; [lra|eauto].
Qed.

Lemma mul_inf_r (x f : float) :
  positive_float x -> infinite_float f -> infinite_float (x * f).
Proof.
  intros (m & e & Hx) [s Hf]. unfold infinite_float.
  rewrite mul_spec, Hx, Hf. cbn. eauto.
Qed.

Lemma mul_inf_l (x y : float) :
  infinite_float x -> positive_float y -> infinite_float (x * y).
Proof.
  intros [s Hx] (m & e & Hy). unfold infinite_float.
  rewrite mul_spec, Hx, Hy. cbn. eauto.
Qed.

Lemma div_inf_l (x y : float) :
  infinite_float x -> positive_float y -> infinite_float (x / y).
Proof.
  intros [s Hx] (m & e & Hy). unfold infinite_float.
  rewrite div_spec, Hx, Hy. cbn. eauto.
Qed.

Lemma quarter_range_positive : (0 < lower quarter_range)%Q.
Proof. vm_compute. reflexivity. Qed.

Lemma year_range_positive : (0 < lower year_range)%Q.
Proof. vm_compute. reflexivity. Qed.

Lemma base_range_positive : (0 < lower base_range)%Q.
Proof. vm_compute. reflexivity. Qed.

Lemma noise_range_positive : (0 < lower noise_range)%Q.
Proof. vm_compute. reflexivity. Qed.

Lemma million_positive : positive_float (PyFloat.of_int 1000000).
Proof. unfold positive_float. eexists. eexists. reflexivity. Qed.

(** X4.  A multiplier that is plus or minus infinity makes
    [generate_revenue] raise [OverflowError] (from [round]), for every
    quarter in 1..4, year in 2024..2025 and pair of draws within their
    ranges; both draws have been made by then. *)
Theorem generate_revenue_infinite_multiplier `{RandomSource} (f : float) (q y : Z)
    (seed_arg : option Z) (g g1 g2 : rng) (base noise : float) :
  f = infinity \/ f = neg_infinity ->
  In q [1; 2; 3; 4] ->
  In y [2024; 2025] ->
  rng_uniform (PyFloat.of_int BASE_REVENUE_MIN) (PyFloat.of_int BASE_REVENUE_MAX)
    (start_state seed_arg g) = (base, g1) ->
  rng_uniform (PyFloat.of_int 1 - NOISE_RANGE) (PyFloat.of_int 1 + NOISE_RANGE) g1
    = (noise, g2) ->
  uniform_in_range (PyFloat.of_int BASE_REVENUE_MIN) (PyFloat.of_int BASE_REVENUE_MAX) base
    = true ->
  uniform_in_range (PyFloat.of_int 1 - NOISE_RANGE) (PyFloat.of_int 1 + NOISE_RANGE) noise
    = true ->
  generate_revenue f q y seed_arg g = (Raise OverflowError, g2).
Proof.
  intros Hf Hq Hy Hb Hn Rb Rn.
  rewrite (generate_revenue_steps f q y seed_arg g g1 g2 base noise _ _
             (quarter_lookup q Hq) (year_lookup y Hy) Hb Hn).
  assert (If : infinite_float f).
  { destruct Hf as [-> | ->]; eexists; reflexivity. }
  pose proof (inside_positive _ _ (base_inside base Rb) base_range_positive) as Pb.
  pose proof (inside_positive _ _ (seasonal_factor_inside q Hq) quarter_range_positive) as Pq.
  pose proof (inside_positive _ _ (growth_factor_inside y Hy) year_range_positive) as Py.
  pose proof (inside_positive _ _ (noise_inside noise Rn) noise_range_positive) as Pn.
  destruct (div_inf_l _ _ (mul_inf_l _ _ (mul_inf_l _ _ (mul_inf_l _ _
              (mul_inf_r base f Pb If) Pq) Py) Pn) million_positive) as [s E].
  unfold PyFloat.round. rewrite E. reflexivity.
Qed.

Lemma generate_revenue_infinite_multiplier_witness :
  generate_revenue (H := Alternating) infinity 2 2024 None 0 = (Raise OverflowError, 2).
Proof.
  apply (generate_revenue_infinite_multiplier (H := Alternating) infinity 2 2024 None 0 1 2
           (PyFloat.of_int BASE_REVENUE_MIN) (PyFloat.of_int 1 + NOISE_RANGE)).
  - left. reflexivity.
  - simpl. auto.
  - simpl. auto.
  - reflexivity.
  - reflexivity.
  - vm_compute. reflexivity.
  - vm_compute. reflexivity.
Defined.

(** *** Negative multipliers *)

Lemma binary_round_aux_opp (s : bool) (m e : Z) (l : location) :
  binary_round_aux prec emax (negb s) m e l = SFopp (binary_round_aux prec emax s m e l).
Proof.
  unfold binary_round_aux.
  destruct (shr_fexp prec emax m e l) as [mrs' e'].
  destruct (shr_fexp prec emax _ e' loc_Exact) as [mrs'' e''].
  destruct (shr_m mrs''); [reflexivity| |reflexivity].
  destruct (e'' <=? emax - prec); reflexivity.
Qed.

Lemma xorb_negb_right (a b : bool) : xorb a (negb b) = negb (xorb a b).
Proof. destruct a, b; reflexivity. Qed.

Lemma xorb_negb_left (a b : bool) : xorb (negb a) b = negb (xorb a b).
Proof. destruct a, b; reflexivity. Qed.

Lemma SFmul_opp_r (x y : spec_float) :
  SFmul prec emax x (SFopp y) = SFopp (SFmul prec emax x y).
Proof.
  destruct x as [sx|sx| |sx mx ex]; destruct y as [sy|sy| |sy my ey];
    cbn [SFmul SFopp]; rewrite ?xorb_negb_right; try reflexivity.
  apply binary_round_aux_opp.
Qed.

Lemma SFmul_opp_l (x y : spec_float) :
  SFmul prec emax (SFopp x) y = SFopp (SFmul prec emax x y).
Proof.
  destruct x as [sx|sx| |sx mx ex]; destruct y as [sy|sy| |sy my ey];
    cbn [SFmul SFopp]; rewrite ?xorb_negb_left; try reflexivity.
  apply binary_round_aux_opp.
Qed.

Lemma SFdiv_opp_l (x y : spec_float) :
  SFdiv prec emax (SFopp x) y = SFopp (SFdiv prec emax x y).
Proof.
  destruct x as [sx|sx| |sx mx ex]; destruct y as [sy|sy| |sy my ey];
    cbn [SFdiv SFopp]; rewrite ?xorb_negb_left; try reflexivity.
  destruct (SFdiv_core_binary prec emax (Z.pos mx) ex (Z.pos my) ey) as [[mz ez] lz].
  apply binary_round_aux_opp.
Qed.

Lemma mul_opp_r (x y : float) : (x * - y = - (x * y))%float.
Proof.
  apply Prim2SF_inj. rewrite opp_spec, !mul_spec, opp_spec. apply SFmul_opp_r.
Qed.

Lemma mul_opp_l (x y : float) : (- x * y = - (x * y))%float.
Proof.
  apply Prim2SF_inj. rewrite opp_spec, !mul_spec, opp_spec. apply SFmul_opp_l.
Qed.

Lemma div_opp_l (x y : float) : (- x / y = - (x / y))%float.
Proof.
  apply Prim2SF_inj. rewrite opp_spec, !div_spec, opp_spec. apply SFdiv_opp_l.
Qed.

Lemma round_opp (x : float) : PyFloat.round (- x) = negate_result (PyFloat.round x).
Proof.
  unfold PyFloat.round. rewrite opp_spec.
  destruct (Prim2SF x) as [s|s| |s m e]; cbn [SFopp negate_result]; try reflexivity.
  destruct s; cbn [negb cond_Zopp]; f_equal; lia.
Qed.

(** X5.  Negating the multiplier negates the revenue: from the same state
    and with the same quarter, year and seed argument, the call with [- f]
    leaves the generator in the same state as the call with [f], returns
    the opposite integer when that one returns, and raises the same
    exception when that one raises. *)
Theorem generate_revenue_negated `{RandomSource} (f : float) (q y : Z)
    (seed_arg : option Z) (g : rng) :
  generate_revenue (- f) q y seed_arg g =
    (negate_result (fst (generate_revenue f q y seed_arg g)),
     snd (generate_revenue f q y seed_arg g)).
Proof.
  rewrite !generate_revenue_base_draw.
  destruct (rng_uniform _ _ (start_state seed_arg g)) as [base g1].
  unfold gen_bind, gen_lift, gen_ret, uniform.
  destruct (dict_get QUARTERLY_MULTIPLIERS q) as [qm|e]; [|reflexivity].
  destruct (dict_get YEAR_MULTIPLIERS y) as [ym|e]; [|reflexivity].
  destruct (rng_uniform _ _ g1) as [noise g2].
  rewrite mul_opp_r, !mul_opp_l, div_opp_l, round_opp.
  destruct (PyFloat.round _) as [n|e]; cbn [negate_result fst snd]; [|reflexivity].
  f_equal. f_equal. lia.
Qed.

(** ** Accuracy of the revenue against exact arithmetic *)

Lemma mul_step (x y : float) (A d M Z : Q) :
  fin x = true -> fin y = true ->
  (A - d <= fval x <= A + d)%Q ->
  (0 <= A <= M)%Q -> (0 <= d)%Q -> (fval y <= Z)%Q ->
  ((M + d) * Z <= pow2 900)%Q ->
  fin (x * y) = true /\
  (A * fval y - err_mul d M Z <= fval (x * y) <= A * fval y + err_mul d M Z)%Q /\
  (0 <= A * fval y <= M * Z)%Q.
Proof.
  intros Fx Fy Hx HA Hd HZ H900.
  pose proof (fval_nonneg x Fx) as Hx0. pose proof (fval_nonneg y Fy) as Hy0.
  pose proof u64_pos as Hu. pose proof eta64_pos as He.
  set (v := fval x) in *. set (z := fval y) in *.
  assert (Hvz : (v * z <= (M + d) * Z)%Q) by nra.
  destruct (mul_value x y Fx Fy ltac:(fold v z; lra)) as [F [L U]].
  fold v z in L, U. unfold lo_mul, hi_mul in L, U.
  pose proof (round_up_ge (d * Z + ((M + d) * Z * u64 + eta64))) as Hr.
  fold (err_mul d M Z) in Hr.
  assert (H1 : (v * z <= A * z + d * Z)%Q) by nra.
  assert (H2 : (A * z - d * Z <= v * z)%Q) by nra.
  assert (H3 : (v * z * u64 <= (M + d) * Z * u64)%Q) by nra.
  assert (H4 : (0 <= v * z)%Q) by nra.
  split; [assumption|]. split; [split; nra|]. split; nra.
Qed.

Lemma div_step (x y : float) (A d M : Q) :
  fin x = true -> fin y = true -> (0 < fval y)%Q ->
  (A - d <= fval x <= A + d)%Q ->
  (0 <= A <= M)%Q -> (0 <= d)%Q ->
  ((M + d) / fval y <= pow2 900)%Q ->
  fin (x / y) = true /\
  (A / fval y - err_div d M (fval y) <= fval (x / y)
   <= A / fval y + err_div d M (fval y))%Q.
Proof.
  intros Fx Fy Hy Hx HA Hd H900.
  pose proof (fval_nonneg x Fx) as Hx0.
  pose proof u64_pos as Hu. pose proof eta64_pos as He.
  set (v := fval x) in *. set (c := fval y) in *.
  assert (Hc : (0 < / c)%Q) by (apply Qinv_lt_0_compat; assumption).
  unfold Qdiv in H900.
  assert (Hvc : (v / c <= (M + d) / c)%Q) by (unfold Qdiv; nra).
  destruct (div_value x y Fx Fy Hy ltac:(fold v c; unfold Qdiv in *; lra)) as [F [L U]].
  fold v c in L, U. unfold lo_div, hi_div in L, U.
  pose proof (round_up_ge (d / c + 2 * ((M + d) / c * u64 + eta64))) as Hr.
  fold (err_div d M c) in Hr.
  unfold Qdiv in *.
  assert (H1 : (v * / c <= A * / c + d * / c)%Q) by nra.
  assert (H2 : (A * / c - d * / c <= v * / c)%Q) by nra.
  assert (H3 : (v * / c * u64 <= (M + d) * / c * u64)%Q) by nra.
  assert (H4 : (0 <= v * / c)%Q) by nra.
  split; [assumption|]. split; nra.
Qed.

Ltac qcompute := apply Qle_bool_imp_le; vm_compute; reflexivity.

Lemma scaled_revenue_accuracy (base f qm ym noise : float) :
  inside base base_range -> inside f contract_range -> inside qm quarter_range ->
  inside ym year_range -> inside noise noise_range ->
  let exact := (fval base * fval f * fval qm * fval ym * fval noise)%Q in
  let scaled := (base * f * qm * ym * noise / PyFloat.of_int 1000000)%float in
  fin scaled = true /\
  (exact / fval (PyFloat.of_int 1000000) - err5 <= fval scaled
   <= exact / fval (PyFloat.of_int 1000000) + err5)%Q.
Proof.
  intros [Fb [Lb Ub]] [Ff [Lf Uf]] [Fq [Lq Uq]] [Fy [Ly Uy]] [Fn [Ln Un]] exact scaled.
  assert (U1 : (upper contract_range <= 1)%Q) by qcompute.
  assert (L0 : (0 <= lower base_range)%Q) by qcompute.
  fold max_base in Ub. fold max_quarter in Uq. fold max_year in Uy. fold max_noise in Un.
  assert (E1 : (0 <= err1)%Q) by qcompute.
  assert (E2 : (0 <= err2)%Q) by qcompute.
  assert (E3 : (0 <= err3)%Q) by qcompute.
  assert (E4 : (0 <= err4)%Q) by qcompute.
  assert (C1 : ((max_base + 0) * 1 <= pow2 900)%Q) by qcompute.
  assert (C2 : ((max_base + err1) * max_quarter <= pow2 900)%Q) by qcompute.
  assert (C3 : ((max_base * max_quarter + err2) * max_year <= pow2 900)%Q) by qcompute.
  assert (C4 : ((max_base * max_quarter * max_year + err3) * max_noise <= pow2 900)%Q)
    by qcompute.
  assert (C5 : ((max_base * max_quarter * max_year * max_noise + err4)
                / fval (PyFloat.of_int 1000000) <= pow2 900)%Q) by qcompute.
  destruct (mul_step base f (fval base) 0 max_base 1 Fb Ff
              ltac:(lra) ltac:(lra) ltac:(lra) ltac:(lra) C1) as (F1 & B1 & A1).
  fold err1 in B1.
  destruct (mul_step (base * f) qm (fval base * fval f) err1 max_base max_quarter F1 Fq
              ltac:(lra) ltac:(lra) ltac:(lra) ltac:(lra) C2) as (F2 & B2 & A2).
  fold err2 in B2.
  destruct (mul_step (base * f * qm) ym (fval base * fval f * fval qm) err2
              (max_base * max_quarter) max_year F2 Fy
              ltac:(lra) ltac:(lra) ltac:(lra) ltac:(lra) C3) as (F3 & B3 & A3).
  fold err3 in B3.
  destruct (mul_step (base * f * qm * ym) noise
              (fval base * fval f * fval qm * fval ym) err3
              (max_base * max_quarter * max_year) max_noise F3 Fn
              ltac:(lra) ltac:(lra) ltac:(lra) ltac:(lra) C4) as (F4 & B4 & A4).
  fold err4 in B4.
  destruct (div_step (base * f * qm * ym * noise) (PyFloat.of_int 1000000)
              (fval base * fval f * fval qm * fval ym * fval noise) err4
              (max_base * max_quarter * max_year * max_noise) F4 million_fin million_pos
              ltac:(lra) ltac:(lra) ltac:(lra) C5) as (F5 & B5).
  fold err5 in B5.
  split; assumption.
Qed.

Lemma million_value : (fval (PyFloat.of_int 1000000) == 1000000)%Q.
Proof. vm_compute. reflexivity. Qed.

Lemma err5_small : (err5 <= 1 # 1000000000)%Q.
Proof. qcompute. Qed.

Lemma revenue_accuracy `{RandomSource} (f : float) (q y : Z)
    (seed_arg : option Z) (g g1 g2 : rng) (base noise : float) :
  uniform_in_range 0 1 f = true ->
  In q [1; 2; 3; 4] ->
  In y [2024; 2025] ->
  rng_uniform (PyFloat.of_int BASE_REVENUE_MIN) (PyFloat.of_int BASE_REVENUE_MAX)
    (start_state seed_arg g) = (base, g1) ->
  rng_uniform (PyFloat.of_int 1 - NOISE_RANGE) (PyFloat.of_int 1 + NOISE_RANGE) g1
    = (noise, g2) ->
  uniform_in_range (PyFloat.of_int BASE_REVENUE_MIN) (PyFloat.of_int BASE_REVENUE_MAX) base
    = true ->
  uniform_in_range (PyFloat.of_int 1 - NOISE_RANGE) (PyFloat.of_int 1 + NOISE_RANGE) noise
    = true ->
  exists r,
    generate_revenue f q y seed_arg g = (Ok r, g2) /\
    (exact_revenue base f q y noise - half_million <= inject_Z r
     <= exact_revenue base f q y noise + half_million)%Q.
Proof.
  intros Rf Hq Hy Hb Hn Rb Rn.
  destruct (scaled_revenue_accuracy base f (seasonal_factor q) (growth_factor y) noise
              (base_inside base Rb) (contract_inside f Rf)
              (seasonal_factor_inside q Hq) (growth_factor_inside y Hy)
              (noise_inside noise Rn)) as [F B].
  destruct (round_value _ F) as (n & Hr & Hn1).
  exists (n * 1000000). split.
  - rewrite (generate_revenue_steps f q y seed_arg g g1 g2 base noise _ _
               (quarter_lookup q Hq) (year_lookup y Hy) Hb Hn).
    rewrite Hr. reflexivity.
  - fold (exact_revenue base f q y noise) in B.
    rewrite million_value in B. pose proof err5_small as He.
    rewrite inject_Z_mult. change (inject_Z 1000000) with 1000000%Q.
    unfold half_million. set (X := exact_revenue base f q y noise) in *.
    unfold Qdiv in B. change (/ 1000000)%Q with (1 # 1000000)%Q in B.
    split; lra.
Qed.

(** X6.  For a multiplier in [0, 1], quarter in 1..4, year in 2024..2025
    and draws within their ranges, the revenue returned is not negative and
    differs from the product [base * f * Q[q] * Y[y] * noise] taken in exact
    arithmetic by at most 500,000.001: the floating-point products add less
    than a thousandth to the half million of the final rounding. *)
Theorem generate_revenue_accuracy `{RandomSource} (f : float) (q y : Z)
    (seed_arg : option Z) (g g1 g2 : rng) (base noise : float) :
  uniform_in_range 0 1 f = true ->
  In q [1; 2; 3; 4] ->
  In y [2024; 2025] ->
  rng_uniform (PyFloat.of_int BASE_REVENUE_MIN) (PyFloat.of_int BASE_REVENUE_MAX)
    (start_state seed_arg g) = (base, g1) ->
  rng_uniform (PyFloat.of_int 1 - NOISE_RANGE) (PyFloat.of_int 1 + NOISE_RANGE) g1
    = (noise, g2) ->
  uniform_in_range (PyFloat.of_int BASE_REVENUE_MIN) (PyFloat.of_int BASE_REVENUE_MAX) base
    = true ->
  uniform_in_range (PyFloat.of_int 1 - NOISE_RANGE) (PyFloat.of_int 1 + NOISE_RANGE) noise
    = true ->
  exists r,
    generate_revenue f q y seed_arg g = (Ok r, g2) /\
    0 <= r /\
    (exact_revenue base f q y noise - (500000 + (1 # 1000)) <= inject_Z r
     <= exact_revenue base f q y noise + (500000 + (1 # 1000)))%Q.
Proof.
  intros Rf Hq Hy Hb Hn Rb Rn.
  destruct (revenue_accuracy f q y seed_arg g g1 g2 base noise Rf Hq Hy Hb Hn Rb Rn)
    as (r & E & B).
  exists r. split; [assumption|]. split; [|exact B].
  assert (X0 : (0 <= exact_revenue base f q y noise)%Q).
  { unfold exact_revenue.
    pose proof (fval_nonneg _ (inside_fin _ _ (base_inside base Rb))).
    pose proof (fval_nonneg _ (inside_fin _ _ (contract_inside f Rf))).
    pose proof (fval_nonneg _ (inside_fin _ _ (seasonal_factor_inside q Hq))).
    pose proof (fval_nonneg _ (inside_fin _ _ (growth_factor_inside y Hy))).
    pose proof (fval_nonneg _ (inside_fin _ _ (noise_inside noise Rn))).
    repeat apply Qmult_le_0_compat; assumption. }
  rewrite (generate_revenue_steps f q y seed_arg g g1 g2 base noise _ _
             (quarter_lookup q Hq) (year_lookup y Hy) Hb Hn) in E.
  destruct (PyFloat.round _) as [n|e]; [|discriminate E].
  cbn [bind_result] in E. injection E as <-.
  unfold half_million in B.
  assert (Hlt : (inject_Z (-1000000) < inject_Z (n * 1000000))%Q).
  { change (inject_Z (-1000000)) with (-1000000)%Q. lra. }
  rewrite <- Zlt_Qlt in Hlt. lia.
Qed.

Lemma generate_revenue_accuracy_witness :
  exists r,
    generate_revenue (H := Alternating) 0.5 3 2025 (Some 7) 0 = (Ok r, 9) /\
    0 <= r /\
    (exact_revenue (PyFloat.of_int BASE_REVENUE_MAX) 0.5 3 2025
       (PyFloat.of_int 1 - NOISE_RANGE) - (500000 + (1 # 1000)) <= inject_Z r
     <= exact_revenue (PyFloat.of_int BASE_REVENUE_MAX) 0.5 3 2025
          (PyFloat.of_int 1 - NOISE_RANGE) + (500000 + (1 # 1000)))%Q.
Proof.
  apply (generate_revenue_accuracy (H := Alternating) 0.5 3 2025 (Some 7) 0 8 9
           (PyFloat.of_int BASE_REVENUE_MAX) (PyFloat.of_int 1 - NOISE_RANGE)).
  - vm_compute. reflexivity.
  - simpl. auto.
  - simpl. auto.
  - reflexivity.
  - reflexivity.
  - vm_compute. reflexivity.
  - vm_compute. reflexivity.
Defined.

(** ** Order of revenues drawn alike *)

Lemma exact_revenue_factor (base f : float) (q y : Z) (noise : float) :
  (exact_revenue base f q y noise == fval base * fval noise * factor f q y)%Q.
Proof. unfold exact_revenue, factor. ring. Qed.

Lemma draws_product (base noise : float) :
  inside base base_range -> inside noise noise_range ->
  (9600000000 <= fval base * fval noise)%Q.
Proof.
  intros [_ [Lb _]] [_ [Ln _]].
  assert (B : (12000000000 <= lower base_range)%Q) by qcompute.
  assert (N : (8 # 10 <= lower noise_range)%Q) by qcompute.
  nra.
Qed.

Lemma revenue_gap (X X' : Q) (r r' : Z) :
  (X - half_million <= inject_Z r <= X + half_million)%Q ->
  (X' - half_million <= inject_Z r' <= X' + half_million)%Q ->
  (X + 1000001 <= X')%Q ->
  r < r'.
Proof.
  unfold half_million. intros B B' G. rewrite Zlt_Qlt. lra.
Qed.

(** Two configurations whose factors differ by one percent or more give
    revenues in the same order, the draws being the same. *)
Lemma revenue_order `{RandomSource} (f f' : float) (q q' y y' : Z)
    (seed_arg : option Z) (g g1 g2 : rng) (base noise : float) :
  uniform_in_range 0 1 f = true -> uniform_in_range 0 1 f' = true ->
  In q [1; 2; 3; 4] -> In q' [1; 2; 3; 4] ->
  In y [2024; 2025] -> In y' [2024; 2025] ->
  rng_uniform (PyFloat.of_int BASE_REVENUE_MIN) (PyFloat.of_int BASE_REVENUE_MAX)
    (start_state seed_arg g) = (base, g1) ->
  rng_uniform (PyFloat.of_int 1 - NOISE_RANGE) (PyFloat.of_int 1 + NOISE_RANGE) g1
    = (noise, g2) ->
  uniform_in_range (PyFloat.of_int BASE_REVENUE_MIN) (PyFloat.of_int BASE_REVENUE_MAX) base
    = true ->
  uniform_in_range (PyFloat.of_int 1 - NOISE_RANGE) (PyFloat.of_int 1 + NOISE_RANGE) noise
    = true ->
  (1 # 2 <= factor f q y)%Q ->
  ((101 # 100) * factor f q y <= factor f' q' y')%Q ->
  exists r r',
    generate_revenue f q y seed_arg g = (Ok r, g2) /\
    generate_revenue f' q' y' seed_arg g = (Ok r', g2) /\
    r < r'.
Proof.
  intros Rf Rf' Hq Hq' Hy Hy' Hb Hn Rb Rn HF HFF.
  destruct (revenue_accuracy f q y seed_arg g g1 g2 base noise Rf Hq Hy Hb Hn Rb Rn)
    as (r & E & B).
  destruct (revenue_accuracy f' q' y' seed_arg g g1 g2 base noise Rf' Hq' Hy' Hb Hn Rb Rn)
    as (r' & E' & B').
  exists r, r'. split; [assumption|]. split; [assumption|].
  apply (revenue_gap _ _ r r' B B').
  rewrite !exact_revenue_factor.
  pose proof (draws_product base noise (base_inside base Rb) (noise_inside noise Rn)) as HP.
  set (P := (fval base * fval noise)%Q) in *.
  set (F := factor f q y) in *. set (F' := factor f' q' y') in *.
  assert (H1 : (4800000000 <= P * F)%Q) by nra.
  assert (H2 : (0 <= P * (F' - (101 # 100) * F))%Q) by nra.
  nra.
Qed.

Lemma branch_multiplier_contract (f : float) :
  In f (map (fun b => multiplier (snd b)) BRANCHES) -> uniform_in_range 0 1 f = true.
Proof. intros [<-|[<-|[<-|[]]]]; reflexivity. Qed.

Lemma factor_lower (f : float) (q y : Z) :
  In f (map (fun b => multiplier (snd b)) BRANCHES) ->
  In q [1; 2; 3; 4] -> In y [2024; 2025] ->
  (1 # 2 <= factor f q y)%Q.
Proof.
  intros [<-|[<-|[<-|[]]]] [<-|[<-|[<-|[<-|[]]]]] [<-|[<-|[]]]; qcompute.
Qed.

Lemma factor_year (f : float) (q : Z) :
  In f (map (fun b => multiplier (snd b)) BRANCHES) -> In q [1; 2; 3; 4] ->
  ((101 # 100) * factor f q 2024 <= factor f q 2025)%Q.
Proof.
  intros [<-|[<-|[<-|[]]]] [<-|[<-|[<-|[<-|[]]]]]; qcompute.
Qed.

Lemma factor_quarter (f : float) (q q' y : Z) :
  In f (map (fun b => multiplier (snd b)) BRANCHES) ->
  In q [1; 2; 3; 4] -> In q' [1; 2; 3; 4] -> In y [2024; 2025] -> q < q' ->
  ((101 # 100) * factor f q y <= factor f q' y)%Q.
Proof.
  intros [<-|[<-|[<-|[]]]] [<-|[<-|[<-|[<-|[]]]]] [<-|[<-|[<-|[<-|[]]]]] [<-|[<-|[]]] Hlt;
    try lia; qcompute.
Qed.

Lemma factor_branch (f f' : float) (q y : Z) :
  In f (map (fun b => multiplier (snd b)) BRANCHES) ->
  In f' (map (fun b => multiplier (snd b)) BRANCHES) ->
  In q [1; 2; 3; 4] -> In y [2024; 2025] -> (f <? f')%float = true ->
  ((101 # 100) * factor f q y <= factor f' q y)%Q.
Proof.
  intros [<-|[<-|[<-|[]]]] [<-|[<-|[<-|[]]]] [<-|[<-|[<-|[<-|[]]]]] [<-|[<-|[]]] Hlt;
    try discriminate Hlt; qcompute.
Qed.

Lemma factor_year_band (f : float) (q : Z) :
  In f (map (fun b => multiplier (snd b)) BRANCHES) -> In q [1; 2; 3; 4] ->
  ((1079999 # 1000000) * factor f q 2024 <= factor f q 2025)%Q /\
  (factor f q 2025 <= (1080001 # 1000000) * factor f q 2024)%Q.
Proof.
  intros [<-|[<-|[<-|[]]]] [<-|[<-|[<-|[<-|[]]]]]; split; qcompute.
Qed.

(** X7.  Year-over-year growth.  For each of the three branches and each
    quarter, the same two draws give a strictly larger revenue in 2025 than
    in 2024, by between 7% and 9%. *)
Theorem revenue_year_over_year `{RandomSource} (f : float) (q : Z)
    (seed_arg : option Z) (g g1 g2 : rng) (base noise : float) :
  In f (map (fun b => multiplier (snd b)) BRANCHES) ->
  In q [1; 2; 3; 4] ->
  rng_uniform (PyFloat.of_int BASE_REVENUE_MIN) (PyFloat.of_int BASE_REVENUE_MAX)
    (start_state seed_arg g) = (base, g1) ->
  rng_uniform (PyFloat.of_int 1 - NOISE_RANGE) (PyFloat.of_int 1 + NOISE_RANGE) g1
    = (noise, g2) ->
  uniform_in_range (PyFloat.of_int BASE_REVENUE_MIN) (PyFloat.of_int BASE_REVENUE_MAX) base
    = true ->
  uniform_in_range (PyFloat.of_int 1 - NOISE_RANGE) (PyFloat.of_int 1 + NOISE_RANGE) noise
    = true ->
  exists r24 r25,
    generate_revenue f q 2024 seed_arg g = (Ok r24, g2) /\
    generate_revenue f q 2025 seed_arg g = (Ok r25, g2) /\
    r24 < r25 /\
    107 * r24 <= 100 * r25 <= 109 * r24.
Proof.
  intros Hf Hq Hb Hn Rb Rn.
  pose proof (branch_multiplier_contract f Hf) as Rf.
  assert (H24 : In 2024 [2024; 2025]) by (simpl; auto).
  assert (H25 : In 2025 [2024; 2025]) by (simpl; auto).
  destruct (revenue_accuracy f q 2024 seed_arg g g1 g2 base noise Rf Hq H24 Hb Hn Rb Rn)
    as (r24 & E24 & B24).
  destruct (revenue_accuracy f q 2025 seed_arg g g1 g2 base noise Rf Hq H25 Hb Hn Rb Rn)
    as (r25 & E25 & B25).
  exists r24, r25. split; [assumption|]. split; [assumption|].
  rewrite exact_revenue_factor in B24, B25.
  pose proof (draws_product base noise (base_inside base Rb) (noise_inside noise Rn)) as HP.
  pose proof (factor_lower f q 2024 Hf Hq H24) as HF.
  destruct (factor_year_band f q Hf Hq) as [Hlo Hhi].
  set (P := (fval base * fval noise)%Q) in *.
  set (F := factor f q 2024) in *. set (F' := factor f q 2025) in *.
  unfold half_million in *.
  assert (H1 : (4800000000 <= P * F)%Q) by nra.
  assert (H2 : (0 <= P * (F' - (1079999 # 1000000) * F))%Q) by nra.
  assert (H3 : (0 <= P * ((1080001 # 1000000) * F - F'))%Q) by nra.
  rewrite Zlt_Qlt, !Zle_Qle, !inject_Z_mult.
  change (inject_Z 107) with 107%Q. change (inject_Z 100) with 100%Q.
  change (inject_Z 109) with 109%Q.
  repeat split; nra.
Qed.

Lemma revenue_year_over_year_witness :
  exists r24 r25,
    generate_revenue (H := Alternating) 0.85 2 2024 None 0 = (Ok r24, 2) /\
    generate_revenue (H := Alternating) 0.85 2 2025 None 0 = (Ok r25, 2) /\
    r24 < r25 /\
    107 * r24 <= 100 * r25 <= 109 * r24.
Proof.
  apply (revenue_year_over_year (H := Alternating) 0.85 2 None 0 1 2
           (PyFloat.of_int BASE_REVENUE_MIN) (PyFloat.of_int 1 + NOISE_RANGE)).
  - simpl. auto.
  - simpl. auto.
  - reflexivity.
  - reflexivity.
  - vm_compute. reflexivity.
  - vm_compute. reflexivity.
Defined.

(** X8.  Seasonal order.  For each of the three branches and each year, the
    same two draws give a strictly larger revenue in a later quarter than
    in an earlier one: Q1 < Q2 < Q3 < Q4. *)
Theorem revenue_seasonal_order `{RandomSource} (f : float) (q q' y : Z)
    (seed_arg : option Z) (g g1 g2 : rng) (base noise : float) :
  In f (map (fun b => multiplier (snd b)) BRANCHES) ->
  In q [1; 2; 3; 4] ->
  In q' [1; 2; 3; 4] ->
  In y [2024; 2025] ->
  q < q' ->
  rng_uniform (PyFloat.of_int BASE_REVENUE_MIN) (PyFloat.of_int BASE_REVENUE_MAX)
    (start_state seed_arg g) = (base, g1) ->
  rng_uniform (PyFloat.of_int 1 - NOISE_RANGE) (PyFloat.of_int 1 + NOISE_RANGE) g1
    = (noise, g2) ->
  uniform_in_range (PyFloat.of_int BASE_REVENUE_MIN) (PyFloat.of_int BASE_REVENUE_MAX) base
    = true ->
  uniform_in_range (PyFloat.of_int 1 - NOISE_RANGE) (PyFloat.of_int 1 + NOISE_RANGE) noise
    = true ->
  exists r r',
    generate_revenue f q y seed_arg g = (Ok r, g2) /\
    generate_revenue f q' y seed_arg g = (Ok r', g2) /\
    r < r'.
Proof.
  intros Hf Hq Hq' Hy Hlt Hb Hn Rb Rn.
  pose proof (branch_multiplier_contract f Hf) as Rf.
  exact (revenue_order f f q q' y y seed_arg g g1 g2 base noise
           Rf Rf Hq Hq' Hy Hy Hb Hn Rb Rn
           (factor_lower f q y Hf Hq Hy) (factor_quarter f q q' y Hf Hq Hq' Hy Hlt)).
Qed.

Lemma revenue_seasonal_order_witness :
  exists r r',
    generate_revenue (H := Alternating) 0.6 2 2025 None 1 = (Ok r, 3) /\
    generate_revenue (H := Alternating) 0.6 3 2025 None 1 = (Ok r', 3) /\
    r < r'.
Proof.
  apply (revenue_seasonal_order (H := Alternating) 0.6 2 3 2025 None 1 2 3
           (PyFloat.of_int BASE_REVENUE_MAX) (PyFloat.of_int 1 - NOISE_RANGE)).
  - simpl. auto.
  - simpl. auto.
  - simpl. auto.
  - simpl. auto.
  - lia.
  - reflexivity.
  - reflexivity.
  - vm_compute. reflexivity.
  - vm_compute. reflexivity.
Defined.

(** X9.  Branch hierarchy.  For each quarter and year, the same two draws
    give a strictly larger revenue to the branch with the larger multiplier:
    DN < HN < HCM. *)
Theorem revenue_branch_order `{RandomSource} (f f' : float) (q y : Z)
    (seed_arg : option Z) (g g1 g2 : rng) (base noise : float) :
  In f (map (fun b => multiplier (snd b)) BRANCHES) ->
  In f' (map (fun b => multiplier (snd b)) BRANCHES) ->
  (f <? f')%float = true ->
  In q [1; 2; 3; 4] ->
  In y [2024; 2025] ->
  rng_uniform (PyFloat.of_int BASE_REVENUE_MIN) (PyFloat.of_int BASE_REVENUE_MAX)
    (start_state seed_arg g) = (base, g1) ->
  rng_uniform (PyFloat.of_int 1 - NOISE_RANGE) (PyFloat.of_int 1 + NOISE_RANGE) g1
    = (noise, g2) ->
  uniform_in_range (PyFloat.of_int BASE_REVENUE_MIN) (PyFloat.of_int BASE_REVENUE_MAX) base
    = true ->
  uniform_in_range (PyFloat.of_int 1 - NOISE_RANGE) (PyFloat.of_int 1 + NOISE_RANGE) noise
    = true ->
  exists r r',
    generate_revenue f q y seed_arg g = (Ok r, g2) /\
    generate_revenue f' q y seed_arg g = (Ok r', g2) /\
    r < r'.
Proof.
  intros Hf Hf' Hlt Hq Hy Hb Hn Rb Rn.
  exact (revenue_order f f' q q y y seed_arg g g1 g2 base noise
           (branch_multiplier_contract f Hf) (branch_multiplier_contract f' Hf')
           Hq Hq Hy Hy Hb Hn Rb Rn
           (factor_lower f q y Hf Hq Hy) (factor_branch f f' q y Hf Hf' Hq Hy Hlt)).
Qed.

Lemma revenue_branch_order_witness :
  exists r r',
    generate_revenue (H := Alternating) 0.6 4 2024 None 0 = (Ok r, 2) /\
    generate_revenue (H := Alternating) 0.85 4 2024 None 0 = (Ok r', 2) /\
    r < r'.
Proof.
  apply (revenue_branch_order (H := Alternating) 0.6 0.85 4 2024 None 0 1 2
           (PyFloat.of_int BASE_REVENUE_MIN) (PyFloat.of_int 1 + NOISE_RANGE)).
  - simpl. auto.
  - simpl. auto.
  - reflexivity.
  - simpl. auto.
  - simpl. auto.
  - reflexivity.
  - reflexivity.
  - vm_compute. reflexivity.
  - vm_compute. reflexivity.
Defined.

(** ** Calendar helpers on arbitrary input *)

(** X10.  For every integer month, in or out of 1..12: [get_quarter m] is
    [q] exactly when [m] is one of the three months [3q - 2 .. 3q]; the
    result is a quarter in 1..4 exactly when the month is in 1..12; and
    [get_quarter] is monotone. *)
Theorem get_quarter_inverse (m q : Z) :
  (get_quarter m = q <-> 3 * q - 2 <= m <= 3 * q) /\
  (1 <= get_quarter m <= 4 <-> 1 <= m <= 12) /\
  (forall m', m <= m' -> get_quarter m <= get_quarter m').
Proof.
  unfold get_quarter. repeat split; intros; Z.div_mod_to_equations; lia.
Qed.

(** X11.  For every year 1..9999 and month 1..12, [get_last_day_of_month]
    returns the date of that year and month whose day is the Gregorian
    length of the month, between 28 and 31: a valid date whose next day is
    not one. *)
Theorem get_last_day_of_month_any_year (y m : Z) :
  1 <= y <= 9999 ->
  1 <= m <= 12 ->
  exists d,
    get_last_day_of_month y m = Ok {| year := y; month := m; day := d |} /\
    d = gregorian_month_length y m /\
    28 <= d <= 31 /\
    Datetime.valid_date y m d = true /\
    Datetime.valid_date y m (d + 1) = false.
Proof.
  intros Hy Hm.
  destruct (get_last_day_of_month_gregorian y m Hy Hm) as (E & V1 & V2).
  exists (gregorian_month_length y m). repeat split; try assumption.
  - unfold gregorian_month_length.
    destruct (month_cases m Hm) as [->|[->|[->|[->|[->|[->|[->|[->|[->|[->|[->| ->]]]]]]]]]]];
      try lia. destruct (gregorian_leap_year y); lia.
  - unfold gregorian_month_length.
    destruct (month_cases m Hm) as [->|[->|[->|[->|[->|[->|[->|[->|[->|[->|[->| ->]]]]]]]]]]];
      try lia. destruct (gregorian_leap_year y); lia.
Qed.

Lemma get_last_day_of_month_any_year_witness :
  exists d,
    get_last_day_of_month 1900 2 = Ok {| year := 1900; month := 2; day := d |} /\
    d = gregorian_month_length 1900 2 /\
    28 <= d <= 31 /\
    Datetime.valid_date 1900 2 d = true /\
    Datetime.valid_date 1900 2 (d + 1) = false.
Proof.
  apply (get_last_day_of_month_any_year 1900 2); lia.
Defined.

(** X12.  A month outside 1..12 makes [get_last_day_of_month] raise
    [calendar.IllegalMonthError] with that month, whatever the year. *)
Theorem get_last_day_of_month_bad_month (y m : Z) :
  ~ (1 <= m <= 12) ->
  get_last_day_of_month y m = Raise (IllegalMonthError m).
Proof.
  intros Hm. unfold get_last_day_of_month, Calendar.monthrange.
  destruct (Z.leb_spec 1 m); destruct (Z.leb_spec m 12); cbn [andb bind_result];
    try reflexivity. lia.
Qed.

Lemma get_last_day_of_month_bad_month_witness :
  get_last_day_of_month 2024 13 = Raise (IllegalMonthError 13).
Proof.
  apply (get_last_day_of_month_bad_month 2024 13). lia.
Defined.



(** ** How the dataset is drawn *)

Section Drawing.
Context `{RandomSource}.
Hypothesis contract : uniform_contract.

Lemma generated_from_app (g g1 g2 : rng) (l1 l2 : list revenue_record) :
  generated_from g l1 g1 -> generated_from g1 l2 g2 -> generated_from g (l1 ++ l2) g2.
Proof.
  induction 1 as [g|g ga gb r l f Hf Hg Hl IH]; intros H2; cbn [app]; [assumption|].
  econstructor; eauto.
Qed.

Lemma for_each_produces {X : Type} (xs : list X)
    (body : X -> list revenue_record -> Gen (list revenue_record))
    (K : X -> list (string * string * date)) :
  (forall x acc, In x xs -> produces (body x acc) acc (K x)) ->
  forall acc, produces (for_each xs body acc) acc (flat_map K xs).
Proof.
  induction xs as [|x xs IH]; intros Hbody acc g; cbn [for_each flat_map].
  - exists [], g. unfold gen_ret. rewrite app_nil_r. repeat split. constructor.
  - destruct (Hbody x acc (or_introl eq_refl) g) as (l1 & g1 & E1 & K1 & G1).
    destruct (IH (fun x' a Hin => Hbody x' a (or_intror Hin)) (acc ++ l1) g1)
      as (l2 & g2 & E2 & K2 & G2).
    exists (l1 ++ l2), g2. unfold gen_bind. rewrite E1, E2, app_assoc, map_app, K1, K2.
    repeat split. eapply generated_from_app; eassumption.
Qed.

Lemma branch_lookup (code : string) (info : branch_info) :
  In (code, info) BRANCHES -> branch_multiplier_of code = Some (multiplier info).
Proof.
  intros [E|[E|[E|[]]]]; injection E as <- <-; reflexivity.
Qed.

Lemma month_produces (y m : Z) (acc : list revenue_record) :
  In y [2024; 2025] -> In m (range 1 13) ->
  produces
    (gen_bind (gen_lift (get_last_day_of_month y m)) (fun rd =>
       for_each BRANCHES (fun '(code, info) records =>
         gen_bind (generate_revenue (multiplier info) (get_quarter m) y None) (fun revenue =>
           gen_ret (records ++ [ {| branch_code := code;
                                    branch_name := name info;
                                    report_date := rd;
                                    revenue_vnd := revenue |} ])))
         acc))
    acc (month_keys y m).
Proof.
  intros Hy Hm. apply range_months in Hm.
  assert (Hy' : 1 <= y <= 9999) by (destruct Hy as [<-|[<-|[]]]; lia).
  destruct (get_last_day_of_month_gregorian y m Hy' Hm) as (E & _).
  intros g. unfold gen_bind at 1, gen_lift at 1. rewrite E.
  change (month_keys y m) with
    (flat_map (fun b : string * branch_info =>
                 [(fst b, name (snd b),
                   {| year := y; month := m; day := gregorian_month_length y m |})])
              BRANCHES).
  revert g. apply for_each_produces.
  intros [code info] acc' Hin g.
  destruct (generate_revenue_returns contract (multiplier info) (get_quarter m) y
              (in_map (fun b => multiplier (snd b)) _ _ Hin)
              (get_quarter_range m Hm) Hy g) as (r & g' & Eg & _).
  eexists [_], g'. unfold gen_bind, gen_ret. rewrite Eg.
  repeat split.
  econstructor; [exact (branch_lookup code info Hin)|exact Eg|constructor].
Qed.

Lemma build_records_produces : produces build_records [] expected_keys.
Proof.
  unfold build_records, expected_keys.
  apply for_each_produces. intros y acc Hy.
  apply for_each_produces. intros m acc' Hm.
  apply month_produces; assumption.
Qed.

End Drawing.

(** X14.  The records of the dataset are generated one after the other in
    list order, each by an unseeded call of [generate_revenue] with the
    multiplier of the record's branch, the quarter of the record's month
    and the record's year, made from the generator state the previous call
    left: the draws are never reset between records. *)
Theorem seed_data_draw_order `{RandomSource} (g : rng) :
  uniform_contract ->
  exists records g',
    build_records g = (Ok records, g') /\
    generated_from g records g'.
Proof.
  intros contract.
  destruct (build_records_produces contract g) as (l & g' & E & _ & G).
  exists l, g'. split; assumption.
Qed.

Lemma seed_data_draw_order_witness :
  exists records g',
    build_records (H := Alternating) 0 = (Ok records, g') /\
    generated_from 0 records g'.
Proof.
  apply (seed_data_draw_order (H := Alternating) 0). exact Alternating_contract.
Defined.

(** ** Invariants of the dataset *)

Lemma date_eqb_eq (a b : date) : date_eqb a b = true -> a = b.
Proof.
  destruct a as [ya ma da], b as [yb mb db]. unfold date_eqb. cbn [year month day].
  intros H. apply andb_prop in H as [H Hd]. apply andb_prop in H as [Hy Hm].
  apply Z.eqb_eq in Hy, Hm, Hd. congruence.
Qed.

Lemma name_pair_eqb_eq (a b : string * string) : name_pair_eqb a b = true -> a = b.
Proof.
  destruct a as [a1 a2], b as [b1 b2]. unfold name_pair_eqb. cbn [fst snd].
  intros H. apply andb_prop in H as [H1 H2].
  apply String.eqb_eq in H1, H2. congruence.
Qed.

Lemma key_wellformed_sound (code nm : string) (d : date) :
  key_wellformed (code, nm, d) = true ->
  In (code, nm) branch_names /\
  In (year d) [2024; 2025] /\
  1 <= month d <= 12 /\
  get_last_day_of_month (year d) (month d) = Ok d.
Proof.
  unfold key_wellformed. intros H.
  apply andb_prop in H as [H Hd]. apply andb_prop in H as [H Hm2].
  apply andb_prop in H as [H Hm1]. apply andb_prop in H as [Hb Hy].
  repeat split.
  - apply existsb_exists in Hb as (p & Hin & Hp).
    apply name_pair_eqb_eq in Hp. subst p. exact Hin.
  - apply orb_prop in Hy as [Hy|Hy]; apply Z.eqb_eq in Hy; rewrite Hy; simpl; auto.
  - apply Z.leb_le. exact Hm1.
  - apply Z.leb_le. exact Hm2.
  - destruct (get_last_day_of_month (year d) (month d)) as [d'|e]; [|discriminate Hd].
    apply date_eqb_eq in Hd. congruence.
Qed.

Lemma expected_keys_wellformed : forallb key_wellformed expected_keys = true.
Proof. vm_compute. reflexivity. Qed.

Lemma expected_keys_fit : forallb key_fits expected_keys = true.
Proof. vm_compute. reflexivity. Qed.

Lemma NoDup_map_injective {A B : Type} (f : A -> B) (l : list A) (x y : A) :
  NoDup (map f l) -> In x l -> In y l -> f x = f y -> x = y.
Proof.
  induction l as [|a l IH]; cbn [map]; intros Hn Hx Hy E; [contradiction|].
  inversion Hn as [|? ? Hnotin Hn']; subst.
  destruct Hx as [->|Hx], Hy as [->|Hy]; auto.
  - exfalso. apply Hnotin. rewrite E. apply in_map. exact Hy.
  - exfalso. apply Hnotin. rewrite <- E. apply in_map. exact Hx.
Qed.

Lemma expected_keys_cover (y m : Z) (b : string * branch_info) :
  In y [2024; 2025] -> 1 <= m <= 12 -> In b BRANCHES ->
  In (fst b, name (snd b),
      {| year := y; month := m; day := gregorian_month_length y m |}) expected_keys.
Proof.
  intros Hy Hm Hb. unfold expected_keys.
  apply in_flat_map. exists y. split; [assumption|].
  apply in_flat_map. exists m. split.
  - destruct (month_cases m Hm) as [->|[->|[->|[->|[->|[->|[->|[->|[->|[->|[->| ->]]]]]]]]]]];
      vm_compute; tauto.
  - unfold month_keys.
    apply (in_map (fun b0 : string * branch_info =>
                     (fst b0, name (snd b0),
                      {| year := y; month := m; day := gregorian_month_length y m |}))
             BRANCHES b Hb).
Qed.

(** X15.  Every record of the dataset has a revenue that is a multiple of
    1,000,000 between 5,832,000,000 and 27,324,000,000, a code and a name
    paired as in [BRANCHES], a year in 2024..2025, a month in 1..12 and as
    date the last day of that month. *)
Theorem dataset_records_wellformed `{RandomSource} (g : rng) :
  uniform_contract ->
  exists records g',
    build_records g = (Ok records, g') /\
    forall r, In r records ->
      revenue_ok (revenue_vnd r) /\
      In (branch_code r, branch_name r) branch_names /\
      In (year (report_date r)) [2024; 2025] /\
      1 <= month (report_date r) <= 12 /\
      get_last_day_of_month (year (report_date r)) (month (report_date r))
        = Ok (report_date r).
Proof.
  intros contract.
  destruct (build_records_returns contract g) as (records & g' & E & l & -> & K & F).
  exists ([] ++ l), g'. cbn [app] in *. split; [assumption|].
  intros r Hr. split.
  - rewrite Forall_forall in F. exact (F r Hr).
  - apply key_wellformed_sound.
    pose proof expected_keys_wellformed as W. rewrite forallb_forall in W.
    apply (W (record_key r)). rewrite <- K. apply in_map. exact Hr.
Qed.

Lemma dataset_records_wellformed_witness :
  exists records g',
    build_records (H := Alternating) 3 = (Ok records, g') /\
    forall r, In r records ->
      revenue_ok (revenue_vnd r) /\
      In (branch_code r, branch_name r) branch_names /\
      In (year (report_date r)) [2024; 2025] /\
      1 <= month (report_date r) <= 12 /\
      get_last_day_of_month (year (report_date r)) (month (report_date r))
        = Ok (report_date r).
Proof.
  apply (dataset_records_wellformed (H := Alternating) 3). exact Alternating_contract.
Defined.

(** X16.  For every year in 2024..2025, month in 1..12 and branch of
    [BRANCHES], the dataset holds a record of that branch dated the last
    day of that month, and it is the only record with that branch code and
    date. *)
Theorem dataset_covers_configuration `{RandomSource} (g : rng) (y m : Z)
    (b : string * branch_info) :
  uniform_contract ->
  In y [2024; 2025] ->
  1 <= m <= 12 ->
  In b BRANCHES ->
  exists records g' r,
    build_records g = (Ok records, g') /\
    In r records /\
    branch_code r = fst b /\
    branch_name r = name (snd b) /\
    report_date r = {| year := y; month := m; day := gregorian_month_length y m |} /\
    forall r', In r' records ->
      branch_code r' = branch_code r -> report_date r' = report_date r -> r' = r.
Proof.
  intros contract Hy Hm Hb.
  destruct (build_records_returns contract g) as (records & g' & E & l & -> & K & F).
  cbn [app] in *.
  pose proof (expected_keys_cover y m b Hy Hm Hb) as Hin.
  rewrite <- K in Hin. apply in_map_iff in Hin as (r & Hk & Hr).
  unfold record_key in Hk. injection Hk as Hc Hn Hd.
  exists l, g', r. repeat split; try assumption.
  intros r' Hr' Ec Ed.
  assert (Hnd : NoDup (map unique_key l)).
  { rewrite unique_key_of_record_key, K. apply expected_keys_unique. }
  apply (NoDup_map_injective unique_key l r' r Hnd Hr' Hr).
  unfold unique_key. congruence.
Qed.

Lemma dataset_covers_configuration_witness :
  exists records g' r,
    build_records (H := Alternating) 0 = (Ok records, g') /\
    In r records /\
    branch_code r = "HN"%string /\
    branch_name r = "Ha Noi"%string /\
    report_date r = {| year := 2025; month := 4; day := 30 |}.
Proof.
  destruct (dataset_covers_configuration (H := Alternating) 0 2025 4
              ("HN"%string, {| name := "Ha Noi"; multiplier := 0.85 |})
              Alternating_contract)
    as (records & g' & r & E & Hr & Hc & Hn & Hd & _).
  - simpl. auto.
  - lia.
  - simpl. auto.
  - exists records, g', r. repeat split; assumption.
Defined.

(** X17.  Every record of the dataset fits the columns [create_table]
    declares: the branch code in [VARCHAR(3)], the branch name in
    [VARCHAR(50)] and the revenue in [BIGINT]. *)
Theorem dataset_fits_table `{RandomSource} (g : rng) :
  uniform_contract ->
  exists records g',
    build_records g = (Ok records, g') /\
    forallb fits_columns records = true.
Proof.
  intros contract.
  destruct (build_records_returns contract g) as (records & g' & E & l & -> & K & F).
  exists ([] ++ l), g'. cbn [app] in *. split; [assumption|].
  apply forallb_forall. intros r Hr.
  rewrite Forall_forall in F. destruct (F r Hr) as [_ [Hlo Hhi]].
  pose proof expected_keys_fit as W. rewrite forallb_forall in W.
  assert (Hk : key_fits (record_key r) = true).
  { apply W. rewrite <- K. apply in_map. exact Hr. }
  unfold key_fits, record_key in Hk. cbn [fst snd] in Hk.
  apply andb_prop in Hk as [H1 H2].
  unfold fits_columns. rewrite H1, H2. cbn [andb].
  apply andb_true_intro. split; apply Z.leb_le; unfold BIGINT_MIN, BIGINT_MAX; lia.
Qed.

Lemma dataset_fits_table_witness :
  exists records g',
    build_records (H := Alternating) 0 = (Ok records, g') /\
    forallb fits_columns records = true.
Proof.
  apply (dataset_fits_table (H := Alternating) 0). exact Alternating_contract.
Defined.

(** ** The bulk insert and the printed sample *)

(** X18.  [seed_data] makes exactly one database call, the bulk insert of
    the 72 records, after all of them have been generated.  When that call
    fails its exception is raised and nothing is printed; when it succeeds
    the records are returned after the line reporting 72 insertions.  The
    generator has advanced by the same draws in both cases. *)
Theorem seed_data_bulk_insert `{RandomSource} (script : db_script) (w : world) :
  uniform_contract ->
  exists records g',
    build_records (w_rng w) = (Ok records, g') /\
    seed_data script w =
      match on_executemany script records with
      | None =>
          (Ok records,
           {| w_rng := g';
              w_console := w_console w ++ [MsgInserted 72];
              w_calls := w_calls w ++ [CallExecuteMany 72] |})
      | Some e =>
          (Raise e,
           {| w_rng := g';
              w_console := w_console w;
              w_calls := w_calls w ++ [CallExecuteMany 72] |})
      end.
Proof.
  intros contract.
  destruct (build_records_returns contract (w_rng w)) as (records & g' & E & l & -> & K & _).
  cbn [app] in E.
  assert (Hlen : List.length l = 72%nat).
  { rewrite <- (length_map record_key), K. apply expected_keys_length. }
  exists l, g'. split; [assumption|].
  unfold seed_data, io_bind, io_gen, db, print, io_ret. rewrite E, Hlen.
  destruct (on_executemany script l); reflexivity.
Qed.

Lemma seed_data_bulk_insert_witness :
  exists records g',
    build_records (H := Alternating) 0 = (Ok records, g') /\
    seed_data commit_fails_db (initial_world 0) =
      (Ok records,
       {| w_rng := g';
          w_console := [MsgInserted 72];
          w_calls := [CallExecuteMany 72] |}).
Proof.
  destruct (seed_data_bulk_insert (H := Alternating) commit_fails_db (initial_world 0)
              Alternating_contract) as (records & g' & E & S).
  exists records, g'. split; [exact E|exact S].
Defined.

Lemma total_of_year_absent (y : Z) (records : list revenue_record) :
  (forall r, In r records -> year (report_date r) <> y) ->
  total_of_year y records = 0.
Proof.
  unfold total_of_year. induction records as [|r l IH]; intros Hno; [reflexivity|].
  cbn [filter].
  destruct (Z.eqb_spec (year (report_date r)) y) as [Hy|_].
  - exfalso. apply (Hno r); [left; reflexivity|exact Hy].
  - apply IH. intros r' Hr'. apply Hno. right. exact Hr'.
Qed.

Lemma filter_rows (rows : list revenue_record) :
  filter is_sample_row (map MsgSampleRow rows) = map MsgSampleRow rows.
Proof.
  induction rows as [|r rows IH]; [reflexivity|].
  cbn [map filter is_sample_row]. rewrite IH. reflexivity.
Qed.

Lemma filter_summary_rows (rows : list revenue_record) :
  filter is_summary (map MsgSampleRow rows) = [].
Proof. induction rows as [|r rows IH]; [reflexivity|exact IH]. Qed.

Lemma print_sample_data_run `{RandomSource} (records : list revenue_record)
    (w : world) :
  print_sample_data records w =
    (if total_of_year 2024 records =? 0 then Raise ZeroDivisionError else Ok tt,
     {| w_rng := w_rng w;
        w_console :=
          w_console w ++ MsgSampleHeader :: map MsgSampleRow (sample records)
          ++ (if total_of_year 2024 records =? 0 then []
              else [MsgSummary (total_of_year 2024 records)
                      (total_of_year 2025 records)
                      (PyFloat.of_int
                         (total_of_year 2025 records - total_of_year 2024 records)
                       / PyFloat.of_int (total_of_year 2024 records)
                       * PyFloat.of_int 100)%float]);
        w_calls := w_calls w |}).
Proof.
  unfold print_sample_data, io_bind, print, io_ret, io_raise.
  rewrite io_iter_rows. cbn beta iota zeta delta [w_rng w_console w_calls fst snd].
  destruct (total_of_year 2024 records =? 0);
    cbn beta iota zeta delta [w_rng w_console w_calls fst snd];
    rewrite <- ?app_assoc, ?app_nil_r; reflexivity.
Qed.



(** X20.  On records none of which is dated 2024, the empty list among
    them, [print_sample_data] raises [ZeroDivisionError]: the sample rows
    have been printed by then, the summary is not, and neither the
    generator nor the database is touched. *)
Theorem print_sample_data_no_2024 `{RandomSource} (records : list revenue_record)
    (w : world) :
  (forall r, In r records -> year (report_date r) <> 2024) ->
  exists out,
    print_sample_data records w =
      (Raise ZeroDivisionError,
       {| w_rng := w_rng w; w_console := w_console w ++ out; w_calls := w_calls w |}) /\
    filter is_sample_row out = map MsgSampleRow (sample records) /\
    filter is_summary out = [].
Proof.
  intros Hno. rewrite print_sample_data_run.
  rewrite (total_of_year_absent 2024 records Hno). cbn [Z.eqb].
  eexists. split; [reflexivity|].
  cbn [filter is_sample_row is_summary]. rewrite !filter_app, filter_rows, filter_summary_rows.
  cbn [filter app]. rewrite app_nil_r. split; reflexivity.
Qed.

Lemma print_sample_data_no_2024_witness :
  fst (print_sample_data
         [ {| branch_code := "DN"; branch_name := "Da Nang";
              report_date := {| year := 2025; month := 2; day := 28 |};
              revenue_vnd := 7000000000 |} ] (initial_world 0))
  = Raise ZeroDivisionError.
Proof.
  destruct (print_sample_data_no_2024 (H := Alternating)
             [ {| branch_code := "DN"; branch_name := "Da Nang";
                  report_date := {| year := 2025; month := 2; day := 28 |};
                  revenue_vnd := 7000000000 |} ] (initial_world 0))
    as (out & -> & _).
  - intros r [<-|[]]. cbn. discriminate.
  - reflexivity.
Defined.

(** X21.  The sample [records[:3] + records[-3:]] has twice as many rows as
    the smaller of 3 and the number of records.  On at most three records
    it is the whole list twice, so every record is printed twice; on six or
    more the two parts are the two ends of the list and do not overlap. *)
Theorem sample_of_short_list (records : list revenue_record) :
  List.length (sample records) = (2 * Nat.min 3 (List.length records))%nat /\
  (List.length records <= 3 -> sample records = records ++ records)%nat /\
  (6 <= List.length records ->
   exists middle,
     records = firstn 3 records ++ middle ++ skipn (List.length records - 3) records)%nat.
Proof.
  unfold sample. split; [|split].
  - rewrite length_app, length_firstn, length_skipn. lia.
  - intros Hlen. rewrite firstn_all2 by lia.
    replace (List.length records - 3)%nat with 0%nat by lia. reflexivity.
  - intros Hlen.
    exists (skipn 3 (firstn (List.length records - 3) records)).
    rewrite <- (firstn_skipn (List.length records - 3) records) at 1.
    rewrite app_assoc. f_equal.
    rewrite <- (firstn_skipn 3 (firstn (List.length records - 3) records)) at 1.
    f_equal. rewrite firstn_firstn. f_equal. lia.
Qed.

Lemma total_of_year_cons (y : Z) (r : revenue_record) (l : list revenue_record) :
  total_of_year y (r :: l) =
    (if year (report_date r) =? y then revenue_vnd r else 0) + total_of_year y l.
Proof.
  unfold total_of_year. cbn [filter].
  destruct (year (report_date r) =? y); [|lia].
  cbn [map fold_left]. rewrite fold_left_add. lia.
Qed.

Lemma total_revenue_cons (r : revenue_record) (l : list revenue_record) :
  total_revenue (r :: l) = revenue_vnd r + total_revenue l.
Proof. unfold total_revenue. cbn [map fold_left]. rewrite fold_left_add. lia. Qed.

Lemma total_of_year_bounds (y : Z) (l : list revenue_record) :
  Forall (fun r => revenue_ok (revenue_vnd r)) l ->
  let n := Z.of_nat (List.length (filter (in_year y) l)) in
  n * 5832000000 <= total_of_year y l <= n * 27324000000 /\
  (1000000 | total_of_year y l).
Proof.
  induction 1 as [|r l [Hd Hr] _ IH]; cbn zeta in *.
  - change (total_of_year y []) with 0. cbn [filter List.length Z.of_nat].
    split; [lia|exists 0; reflexivity].
  - rewrite total_of_year_cons. cbn [filter].
    change (in_year y r) with (year (report_date r) =? y).
    destruct (year (report_date r) =? y).
    + cbn [List.length]. rewrite Nat2Z.inj_succ. destruct IH as [IH1 IH2].
      split; [lia|apply Z.divide_add_r; assumption].
    + destruct IH as [IH1 IH2]. split; [lia|exact IH2].
Qed.

Lemma year_count_keys (y : Z) (l : list revenue_record) :
  List.length (filter (in_year y) l) =
    List.length (filter (fun k : string * string * date => year (snd k) =? y)
                   (map record_key l)).
Proof.
  induction l as [|r l IH]; [reflexivity|]. cbn [map filter].
  unfold in_year at 1. unfold record_key at 1. cbn [snd].
  destruct (year (report_date r) =? y); cbn [List.length]; rewrite IH; reflexivity.
Qed.

Lemma totals_partition (l : list revenue_record) :
  (forall r, In r l -> In (year (report_date r)) [2024; 2025]) ->
  total_of_year 2024 l + total_of_year 2025 l = total_revenue l.
Proof.
  induction l as [|r l IH]; intros Hy; [reflexivity|].
  rewrite !total_of_year_cons, total_revenue_cons.
  rewrite <- IH by (intros r' Hr'; apply Hy; right; exact Hr').
  destruct (Hy r (or_introl eq_refl)) as [E|[E|[]]]; rewrite <- E; cbn; lia.
Qed.

(** X22.  On the dataset, [print_sample_data] never raises: the 2024 total
    is positive.  Each yearly total is a multiple of 1,000,000 between
    209,952,000,000 and 983,664,000,000 (36 records each), and the two
    totals add up to the sum over all records: no record is left out of
    the summary. *)
Theorem dataset_summary `{RandomSource} (w : world) :
  uniform_contract ->
  exists records g',
    build_records (w_rng w) = (Ok records, g') /\
    (forall w', fst (print_sample_data records w') = Ok tt) /\
    209952000000 <= total_of_year 2024 records <= 983664000000 /\
    209952000000 <= total_of_year 2025 records <= 983664000000 /\
    (1000000 | total_of_year 2024 records) /\
    (1000000 | total_of_year 2025 records) /\
    total_of_year 2024 records + total_of_year 2025 records = total_revenue records.
Proof.
  intros contract.
  destruct (build_records_returns contract (w_rng w)) as (records & g' & E & l & -> & K & F).
  cbn [app] in *. exists l, g'. split; [assumption|].
  assert (C24 : Z.of_nat (List.length (filter (in_year 2024) l)) = 36).
  { rewrite year_count_keys, K. reflexivity. }
  assert (C25 : Z.of_nat (List.length (filter (in_year 2025) l)) = 36).
  { rewrite year_count_keys, K. reflexivity. }
  destruct (total_of_year_bounds 2024 l F) as [B24 D24].
  destruct (total_of_year_bounds 2025 l F) as [B25 D25].
  cbn zeta in B24, B25. rewrite C24 in B24. rewrite C25 in B25.
  split; [|repeat split; try assumption; try lia].
  - intros w'. rewrite print_sample_data_run. cbn [fst].
    destruct (Z.eqb_spec (total_of_year 2024 l) 0) as [Z0|_]; [lia|reflexivity].
  - apply totals_partition. intros r Hr.
    pose proof expected_keys_wellformed as W. rewrite forallb_forall in W.
    assert (Hk : key_wellformed (record_key r) = true).
    { apply W. rewrite <- K. apply in_map. exact Hr. }
    apply (key_wellformed_sound _ _ _ Hk).
Qed.

Lemma dataset_summary_witness :
  exists records g',
    build_records (H := Alternating) 0 = (Ok records, g') /\
    209952000000 <= total_of_year 2024 records <= 983664000000.
Proof.
  destruct (dataset_summary (H := Alternating) (initial_world 0) Alternating_contract)
    as (records & g' & E & _ & B & _).
  exists records, g'. split; assumption.
Defined.

(** ** Runs of [main] *)

Lemma main_body_trace `{RandomSource} (script : db_script) (w : world)
    (records : list revenue_record) (g' : rng) :
  build_records (w_rng w) = (Ok records, g') ->
  List.length records = 72%nat ->
  0 < total_of_year 2024 records ->
  main_body script w =
    match on_connect script with
    | Some e => (Raise e, world_after w (w_rng w) [MsgConnecting] [CallConnect])
    | None =>
    match on_cursor script with
    | Some e =>
        (Raise e, world_after w (w_rng w) [MsgConnecting] [CallConnect; CallCursor])
    | None =>
    match on_execute script with
    | Some e =>
        (Raise e, world_after w (w_rng w) [MsgConnecting; MsgConnected]
                    [CallConnect; CallCursor; CallExecute])
    | None =>
    match on_executemany script records with
    | Some e =>
        (Raise e, world_after w g' [MsgConnecting; MsgConnected; MsgTableCreated]
                    [CallConnect; CallCursor; CallExecute; CallExecuteMany 72])
    | None =>
    match on_commit script with
    | Some e =>
        (Raise e,
         world_after w g'
           [MsgConnecting; MsgConnected; MsgTableCreated; MsgInserted 72]
           [CallConnect; CallCursor; CallExecute; CallExecuteMany 72; CallCommit])
    | None =>
    match on_cursor_close script with
    | Some e =>
        (Raise e,
         world_after w g'
           ([MsgConnecting; MsgConnected; MsgTableCreated; MsgInserted 72;
             MsgCommitted] ++ sample_lines records)
           [CallConnect; CallCursor; CallExecute; CallExecuteMany 72; CallCommit;
            CallCursorClose])
    | None =>
    match on_conn_close script with
    | Some e =>
        (Raise e,
         world_after w g'
           ([MsgConnecting; MsgConnected; MsgTableCreated; MsgInserted 72;
             MsgCommitted] ++ sample_lines records)
           all_calls)
    | None =>
        (Ok tt,
         world_after w g'
           ([MsgConnecting; MsgConnected; MsgTableCreated; MsgInserted 72;
             MsgCommitted] ++ sample_lines records ++ [MsgDone])
           all_calls)
    end end end end end end end.
Proof.
  intros E Hlen Htot.
  unfold main_body, create_table, seed_data, print_sample_data, world_after,
    sample_lines, all_calls.
  unfold io_bind, print, db, io_gen, io_ret, io_raise.
  destruct (on_connect script) as [e|]; step; [reflexivity|].
  destruct (on_cursor script) as [e|]; step;
    [rewrite <- ?app_assoc; reflexivity|].
  destruct (on_execute script) as [e|]; step;
    [rewrite <- ?app_assoc; reflexivity|].
  rewrite E, Hlen; step.
  destruct (on_executemany script records) as [e|]; step;
    [rewrite <- ?app_assoc; reflexivity|].
  destruct (on_commit script) as [e|]; step;
    [rewrite <- ?app_assoc; reflexivity|].
  rewrite io_iter_rows; step.
  destruct (Z.eqb_spec (total_of_year 2024 records) 0) as [Hz|_]; [lia|]; step.
  destruct (on_cursor_close script) as [e|]; step;
    [rewrite <- ?app_assoc; cbn [app]; rewrite <- ?app_assoc; reflexivity|].
  destruct (on_conn_close script) as [e|]; step;
    rewrite <- ?app_assoc; cbn [app]; rewrite <- ?app_assoc; reflexivity.
Qed.

Lemma main_world `{RandomSource} (script : db_script) (w : world) :
  w_calls (snd (main script w)) =
    w_calls (snd (main_body script (snd (print MsgStart w)))) /\
  w_rng (snd (main script w)) =
    w_rng (snd (main_body script (snd (print MsgStart w)))) /\
  filter is_progress (w_console (snd (main script w))) =
    filter is_progress (w_console (snd (main_body script (snd (print MsgStart w))))).
Proof.
  rewrite main_unfold.
  destruct (main_body script (snd (print MsgStart w))) as [[u|e] w'];
    cbn [snd w_calls w_rng w_console]; repeat split.
  rewrite filter_app. unfold error_marker.
  destruct (is_psycopg2_error e); cbn [filter is_progress]; apply app_nil_r.
Qed.

(** The dataset [main] generates from the state of [w], with what the
    assembly lemmas give about it. *)
Lemma main_dataset `{RandomSource} (w : world) :
  uniform_contract ->
  exists records g',
    build_records (w_rng w) = (Ok records, g') /\
    List.length records = 72%nat /\
    0 < total_of_year 2024 records.
Proof.
  intros contract.
  destruct (build_records_returns contract (w_rng w)) as (records & g' & E & l & -> & K & F).
  cbn [app] in E. exists l, g'. split; [exact E|]. split.
  - rewrite <- (length_map record_key), K. apply expected_keys_length.
  - apply total_2024_positive; assumption.
Qed.

Ltac peel Hs pre :=
  destruct pre as [|? pre]; cbn [app] in Hs;
  [first [injection Hs as <- <-|discriminate Hs]
  |first [injection Hs as <- Hs|discriminate Hs]].

(** X23.  [main] makes a database call exactly when every call before it
    in the sequence connect, cursor, create table, bulk insert, commit,
    close cursor, close connection has succeeded.  In particular the commit
    is attempted only after a successful bulk insert, and after any failure
    neither the cursor nor the connection is closed. *)
Theorem main_calls_reached `{RandomSource} (script : db_script) (w : world) :
  uniform_contract ->
  exists records g' calls,
    build_records (w_rng w) = (Ok records, g') /\
    w_calls (snd (main script w)) = w_calls w ++ calls /\
    forall pre c post,
      all_calls = pre ++ c :: post ->
      (In c calls <-> Forall (fun c' => outcome_of script records c' = None) pre).
Proof.
  intros contract.
  destruct (main_dataset w contract) as (records & g' & E & Hlen & Htot).
  exists records, g'.
  destruct (main_world script w) as (-> & _ & _).
  rewrite (main_body_trace script (snd (print MsgStart w)) records g' E Hlen Htot).
  unfold all_calls.
  destruct (on_connect script) as [e1|] eqn:E1;
    [|destruct (on_cursor script) as [e2|] eqn:E2;
      [|destruct (on_execute script) as [e3|] eqn:E3;
        [|destruct (on_executemany script records) as [e4|] eqn:E4;
          [|destruct (on_commit script) as [e5|] eqn:E5;
            [|destruct (on_cursor_close script) as [e6|] eqn:E6;
              [|destruct (on_conn_close script) as [e7|] eqn:E7]]]]]];
    (eexists; split; [exact E|split; [reflexivity|]]);
    intros pre c post Hs;
    do 8 (try peel Hs pre);
    rewrite ?Forall_cons_iff, ?Forall_nil_iff; cbn [outcome_of In];
    rewrite ?E1, ?E2, ?E3, ?E4, ?E5, ?E6, ?E7;
    intuition (try discriminate; try congruence).
Qed.

Lemma main_calls_reached_witness :
  exists calls,
    w_calls (snd (main commit_fails_db (initial_world 0))) = calls /\
    In CallCommit calls /\ ~ In CallCursorClose calls.
Proof.
  destruct (main_calls_reached (H := Alternating) commit_fails_db (initial_world 0)
              Alternating_contract) as (records & g' & calls & _ & Hc & R).
  exists calls. split; [exact Hc|]. split.
  - apply (R [CallConnect; CallCursor; CallExecute; CallExecuteMany 72] CallCommit
             [CallCursorClose; CallConnClose] eq_refl).
    repeat constructor.
  - intros Hin.
    apply (R [CallConnect; CallCursor; CallExecute; CallExecuteMany 72; CallCommit]
             CallCursorClose [CallConnClose] eq_refl) in Hin.
    rewrite !Forall_cons_iff in Hin. cbn in Hin.
    destruct Hin as (_ & _ & _ & _ & Hin & _). discriminate Hin.
Defined.

(** X24.  [main] draws from the generator only once the connection, the
    cursor and the table creation have succeeded: a run that fails before
    leaves the generator state untouched, and every other run leaves it in
    the state after the draws of the 72 records, whatever the database does
    afterwards. *)
Theorem main_generator_use `{RandomSource} (script : db_script) (w : world) :
  uniform_contract ->
  exists records g',
    build_records (w_rng w) = (Ok records, g') /\
    w_rng (snd (main script w)) =
      match on_connect script, on_cursor script, on_execute script with
      | None, None, None => g'
      | _, _, _ => w_rng w
      end.
Proof.
  intros contract.
  destruct (main_dataset w contract) as (records & g' & E & Hlen & Htot).
  exists records, g'. split; [exact E|].
  destruct (main_world script w) as (_ & -> & _).
  rewrite (main_body_trace script (snd (print MsgStart w)) records g' E Hlen Htot).
  destruct (on_connect script), (on_cursor script), (on_execute script),
    (on_executemany script records), (on_commit script), (on_cursor_close script),
    (on_conn_close script); reflexivity.
Qed.

Lemma main_generator_use_witness :
  w_rng (snd (main (H := Alternating)
                {| on_connect := None;
                   on_cursor := Some (Psycopg2Error "no cursor");
                   on_execute := None;
                   on_executemany := fun _ => None;
                   on_commit := None;
                   on_cursor_close := None;
                   on_conn_close := None |} (initial_world 5))) = 5.
Proof.
  destruct (main_generator_use (H := Alternating)
              {| on_connect := None;
                 on_cursor := Some (Psycopg2Error "no cursor");
                 on_execute := None;
                 on_executemany := fun _ => None;
                 on_commit := None;
                 on_cursor_close := None;
                 on_conn_close := None |} (initial_world 5) Alternating_contract)
    as (records & g' & _ & E).
  exact E.
Defined.

Lemma sample_lines_progress (records : list revenue_record) :
  filter is_progress (sample_lines records) = [].
Proof.
  unfold sample_lines. cbn [filter is_progress]. rewrite filter_app.
  cbn [filter is_progress]. rewrite app_nil_r.
  induction (sample records) as [|r l IH]; [reflexivity|exact IH].
Qed.

(** X25.  The progress lines of a run of [main] are truthful: among the
    lines connected, table created, 72 records inserted, committed and
    done, the run prints, in this order, those whose step has succeeded and
    no other; connected needs both the connection and the cursor, done
    needs both closes. *)
Theorem main_console_reports `{RandomSource} (script : db_script) (w : world) :
  uniform_contract ->
  exists records g',
    build_records (w_rng w) = (Ok records, g') /\
    filter is_progress (w_console (snd (main script w))) =
      filter is_progress (w_console w) ++
      match on_connect script, on_cursor script with
      | None, None =>
          MsgConnected ::
          match on_execute script with
          | Some _ => []
          | None =>
              MsgTableCreated ::
              match on_executemany script records with
              | Some _ => []
              | None =>
                  MsgInserted 72 ::
                  match on_commit script with
                  | Some _ => []
                  | None =>
                      MsgCommitted ::
                      match on_cursor_close script, on_conn_close script with
                      | None, None => [MsgDone]
                      | _, _ => []
                      end
                  end
              end
          end
      | _, _ => []
      end.
Proof.
  intros contract.
  destruct (main_dataset w contract) as (records & g' & E & Hlen & Htot).
  exists records, g'. split; [exact E|].
  destruct (main_world script w) as (_ & _ & ->).
  rewrite (main_body_trace script (snd (print MsgStart w)) records g' E Hlen Htot).
  destruct (on_connect script), (on_cursor script), (on_execute script),
    (on_executemany script records), (on_commit script), (on_cursor_close script),
    (on_conn_close script);
    cbn [snd world_after w_console print]; rewrite !filter_app;
    cbn [filter is_progress app]; rewrite ?filter_app, ?sample_lines_progress;
    cbn [filter is_progress app]; rewrite ?app_nil_r; reflexivity.
Qed.

Lemma main_console_reports_witness :
  filter is_progress (w_console (snd (main commit_fails_db (initial_world 0)))) =
    [MsgConnected; MsgTableCreated; MsgInserted 72].
Proof.
  destruct (main_console_reports (H := Alternating) commit_fails_db (initial_world 0)
              Alternating_contract) as (records & g' & _ & E).
  exact E.
Defined.
